(** * Task management system: the task store, its codec and the reminder scan

    A shallow embedding of [ACP FINAL/System.py] and the properties of its
    task store.

    Conventions of the embedding.
    - A Python [str] is a [string] whose characters are the code points
      U+0000 .. U+00FF; [str.lower], [str.strip], [int] and the regular
      expression class [\d] are modelled on that range.
    - A Python [int] is a [Z].
    - An exception is a value of [exn]; a call that may raise returns a
      [result].
    - [Task] objects are mutable and shared by reference: they live in an
      object store [objs : gmap loc Task.t], and the task list of the manager
      is a list of references.
    - The backing file lives in a file system [fs : gmap string string]
      from path to text content. *)

From Stdlib Require Import ZArith Lia Ascii String.
From stdpp Require Import base option list sorting gmap strings.

Local Open Scope Z_scope.

(** ** Exceptions *)

Inductive exn : Type :=
| ValueError
| IndexError
| OverflowError.

Definition result (A : Type) : Type := (exn + A)%type.

Definition raise {A} (e : exn) : result A := inl e.
Definition ret {A} (a : A) : result A := inr a.

Definition bind {A B} (m : result A) (k : A → result B) : result B :=
  match m with
  | inl e => inl e
  | inr a => k a
  end.

Notation "'do' x <- m ; k" := (bind m (λ x, k))
  (at level 10, x name, m at level 100, k at level 200,
   format "'[v' 'do'  x  <-  m ; '/' k ']'").

Definition raises {A} (m : result A) : Prop := ∃ e, m = inl e.
Definition returns {A} (m : result A) : Prop := ∃ a, m = inr a.

(** ** Python strings *)

Module Str.

Definition code (c : ascii) : Z := Z.of_N (N_of_ascii c).
Definition chr (n : Z) : ascii := ascii_of_N (Z.to_N n).

Definition between (lo hi : Z) (c : ascii) : bool :=
  (lo <=? code c) && (code c <=? hi).

(** [str.isspace] on one code point below U+0100. *)
Definition isspace (c : ascii) : bool :=
  between 9 13 c || between 28 32 c || (code c =? 133) || (code c =? 160).

(** The white space that [int] skips: ASCII white space, and the two
    non-ASCII spaces below U+0100. *)
Definition int_space (c : ascii) : bool :=
  between 9 13 c || (code c =? 32) || (code c =? 133) || (code c =? 160).

Definition isdigit (c : ascii) : bool := between 48 57 c.
Definition digit_value (c : ascii) : Z := code c - 48.
Definition digit_char (d : Z) : ascii := chr (48 + d).

(** [str.lower] on one code point below U+0100: A-Z and the Latin-1 capitals
    (all of U+00C0 .. U+00DE but the multiplication sign) move up by 32. *)
Definition lower_char (c : ascii) : ascii :=
  if between 65 90 c || (between 192 222 c && negb (code c =? 215))
  then chr (code c + 32) else c.

Fixpoint lower (s : string) : string :=
  match s with
  | EmptyString => EmptyString
  | String c r => String (lower_char c) (lower r)
  end.

Fixpoint lstrip (sp : ascii → bool) (s : string) : string :=
  match s with
  | EmptyString => EmptyString
  | String c r => if sp c then lstrip sp r else s
  end.

Fixpoint rstrip (sp : ascii → bool) (s : string) : string :=
  match s with
  | EmptyString => EmptyString
  | String c r =>
      match rstrip sp r with
      | EmptyString => if sp c then EmptyString else String c EmptyString
      | r' => String c r'
      end
  end.

(** [s.strip()] *)
Definition strip (s : string) : string := rstrip isspace (lstrip isspace s).

(** [s.split(sep)] for a separator of one character. *)
Fixpoint split (sep : ascii) (s : string) : list string :=
  match s with
  | EmptyString => [EmptyString]
  | String c r =>
      if Ascii.eqb c sep then EmptyString :: split sep r
      else match split sep r with
           | p :: ps => String c p :: ps
           | [] => [String c EmptyString]
           end
  end.

(** [sep.join(l)] *)
Fixpoint join (sep : string) (l : list string) : string :=
  match l with
  | [] => ""
  | [x] => x
  | x :: r => x +:+ sep +:+ join sep r
  end.

Fixpoint contains (c : ascii) (s : string) : bool :=
  match s with
  | EmptyString => false
  | String c' r => Ascii.eqb c' c || contains c r
  end.

(** [all(p(c) for c in s)] *)
Fixpoint all (p : ascii → bool) (s : string) : bool :=
  match s with
  | EmptyString => true
  | String c r => p c && all p r
  end.

Definition len (s : string) : Z := Z.of_nat (String.length s).

Fixpoint replicate (n : nat) (c : ascii) : string :=
  match n with
  | O => EmptyString
  | S k => String c (replicate k c)
  end.

(** [s.ljust(w)] and [s.rjust(w, c)] *)
Definition ljust (w : Z) (s : string) : string :=
  s +:+ replicate (Z.to_nat (w - len s)) " ".
Definition rjust (w : Z) (c : ascii) (s : string) : string :=
  replicate (Z.to_nat (w - len s)) c +:+ s.

(** *** [str(n)] for an [int] *)

Fixpoint digits_fuel (fuel : nat) (n : Z) (acc : string) : string :=
  match fuel with
  | O => acc
  | S f =>
      let acc' := String (digit_char (n mod 10)) acc in
      if n <? 10 then acc' else digits_fuel f (n / 10) acc'
  end.

(** The decimal digits of [n >= 0]; [Z.log2 n + 1] bounds their number. *)
Definition digits (n : Z) : string :=
  digits_fuel (S (Z.to_nat (Z.log2 n))) n EmptyString.

Definition of_int (n : Z) : string :=
  if n <? 0 then String "-" (digits (- n)) else digits n.

(** [str(b)] for a [bool] *)
Definition of_bool (b : bool) : string := if b then "True" else "False".

(** [format % n] for the conversion [%0wd] *)
Definition zero_padded (w : Z) (n : Z) : string :=
  if n <? 0 then String "-" (rjust (w - 1) "0" (digits (- n)))
  else rjust w "0" (digits n).

(** *** [int(s)], base 10 *)

(** Digits, single underscores allowed between digits. [seen] says that
    the previous character was a digit. *)
Fixpoint int_digits (seen : bool) (acc : Z) (s : string) : option Z :=
  match s with
  | EmptyString => if seen then Some acc else None
  | String c r =>
      if isdigit c then int_digits true (10 * acc + digit_value c) r
      else if Ascii.eqb c "_" && seen then int_digits false acc r
      else None
  end.

Definition int (s : string) : result Z :=
  let body := rstrip int_space (lstrip int_space s) in
  let '(sign, ds) :=
    match body with
    | String "+" r => (1, r)
    | String "-" r => (-1, r)
    | _ => (1, body)
    end in
  match int_digits false 0 ds with
  | Some v => ret (sign * v)
  | None => raise ValueError
  end.

End Str.

(** ** Dates and times: the part of [datetime] the program uses *)

Module Datetime.

Definition MINYEAR : Z := 1.
Definition MAXYEAR : Z := 9999.
Definition MAXORDINAL : Z := 3652059.

(** A naive [datetime]: the fields the object stores. *)
Record t : Type := mk {
  year : Z; month : Z; day : Z;
  hour : Z; minute : Z; second : Z; microsecond : Z
}.

Definition DAYS_IN_MONTH : list Z :=
  [-1; 31; 28; 31; 30; 31; 30; 31; 31; 30; 31; 30; 31].
Definition DAYS_BEFORE_MONTH : list Z :=
  [-1; 0; 31; 59; 90; 120; 151; 181; 212; 243; 273; 304; 334].

Definition table (l : list Z) (i : Z) : Z := nth (Z.to_nat i) l (-1).

Definition is_leap (y : Z) : bool :=
  (y mod 4 =? 0) && (negb (y mod 100 =? 0) || (y mod 400 =? 0)).

Definition days_before_year (y : Z) : Z :=
  let y := y - 1 in y * 365 + y / 4 - y / 100 + y / 400.

Definition days_in_month (y m : Z) : Z :=
  if (m =? 2) && is_leap y then 29 else table DAYS_IN_MONTH m.

Definition days_before_month (y m : Z) : Z :=
  table DAYS_BEFORE_MONTH m + (if (2 <? m) && is_leap y then 1 else 0).

Definition ymd2ord (y m d : Z) : Z :=
  days_before_year y + days_before_month y m + d.

Definition DI400Y : Z := Eval cbv in days_before_year 401.
Definition DI100Y : Z := Eval cbv in days_before_year 101.
Definition DI4Y : Z := Eval cbv in days_before_year 5.

(** The end of [_ord2ymd]: month and day from the offset [n] in the year;
    the first estimate of the month is exact or one too large. *)
Definition doy2md (leapyear : bool) (n : Z) : Z * Z :=
  let month := Z.shiftr (n + 50) 5 in
  let preceding :=
    table DAYS_BEFORE_MONTH month
    + (if (2 <? month) && leapyear then 1 else 0) in
  let '(month, preceding) :=
    if n <? preceding
    then (month - 1,
          preceding - (table DAYS_IN_MONTH (month - 1)
                       + (if (month - 1 =? 2) && leapyear then 1 else 0)))
    else (month, preceding) in
  (month, n - preceding + 1).

Definition ord2ymd (n : Z) : Z * Z * Z :=
  let n := n - 1 in
  let n400 := n / DI400Y in let n := n mod DI400Y in
  let year := n400 * 400 + 1 in
  let n100 := n / DI100Y in let n := n mod DI100Y in
  let n4 := n / DI4Y in let n := n mod DI4Y in
  let n1 := n / 365 in let n := n mod 365 in
  let year := year + n100 * 100 + n4 * 4 + n1 in
  if (n1 =? 4) || (n100 =? 4) then (year - 1, 12, 31)
  else
    let leapyear := (n1 =? 3) && (negb (n4 =? 24) || (n100 =? 3)) in
    let '(month, day) := doy2md leapyear n in
    (year, month, day).

(** [_check_date_fields] *)
Definition valid_date (y m d : Z) : bool :=
  (MINYEAR <=? y) && (y <=? MAXYEAR) && (1 <=? m) && (m <=? 12)
  && (1 <=? d) && (d <=? days_in_month y m).

Definition check_date_fields (y m d : Z) : result unit :=
  if valid_date y m d then ret () else raise ValueError.

Definition valid_time (h mi s us : Z) : bool :=
  (0 <=? h) && (h <? 24) && (0 <=? mi) && (mi <? 60)
  && (0 <=? s) && (s <? 60) && (0 <=? us) && (us <? 1000000).

(** The invariant of every [datetime] object. *)
Definition valid (dt : t) : bool :=
  valid_date (year dt) (month dt) (day dt)
  && valid_time (hour dt) (minute dt) (second dt) (microsecond dt).

Definition midnight (y m d : Z) : t := mk y m d 0 0 0 0.

Definition is_midnight (dt : t) : bool :=
  (hour dt =? 0) && (minute dt =? 0) && (second dt =? 0)
  && (microsecond dt =? 0).

(** [dt.date()], kept as a [datetime] at midnight. *)
Definition date (dt : t) : t := midnight (year dt) (month dt) (day dt).

Definition toordinal (dt : t) : Z := ymd2ord (year dt) (month dt) (day dt).

(** [str(dt.date())], that is [date.isoformat]: ["%04d-%02d-%02d"]. *)
Definition isoformat (dt : t) : string :=
  Str.zero_padded 4 (year dt) +:+ "-" +:+ Str.zero_padded 2 (month dt)
  +:+ "-" +:+ Str.zero_padded 2 (day dt).

(** *** Comparison: [_cmp] on the tuples of fields *)

Fixpoint cmp_tuple (a b : list Z) : comparison :=
  match a, b with
  | [], [] => Eq
  | [], _ :: _ => Lt
  | _ :: _, [] => Gt
  | x :: a', y :: b' =>
      match x ?= y with
      | Eq => cmp_tuple a' b'
      | c => c
      end
  end.

Definition fields (dt : t) : list Z :=
  [year dt; month dt; day dt; hour dt; minute dt; second dt; microsecond dt].

Definition cmp (a b : t) : comparison := cmp_tuple (fields a) (fields b).

(** [a < b] and [a > b] *)
Definition lt (a b : t) : bool :=
  match cmp a b with Lt => true | _ => false end.
Definition gt (a b : t) : bool :=
  match cmp a b with Gt => true | _ => false end.

(** *** [timedelta] and [datetime.__add__] *)

Record timedelta : Type := mk_delta {
  days : Z; seconds : Z; microseconds : Z
}.

(** The constructor normalises: [0 <= microseconds < 10^6] and
    [0 <= seconds < 86400]. *)
Definition timedelta_new (d h mi s us : Z) : timedelta :=
  let s := h * 3600 + mi * 60 + s + us / 1000000 in
  mk_delta (d + s / 86400) (s mod 86400) (us mod 1000000).

Definition timedelta_add (a b : timedelta) : timedelta :=
  timedelta_new (days a + days b) 0 0 (seconds a + seconds b)
                (microseconds a + microseconds b).

Definition add (dt : t) (td : timedelta) : result t :=
  let delta :=
    timedelta_add
      (timedelta_new (toordinal dt) (hour dt) (minute dt) (second dt)
                     (microsecond dt)) td in
  let h := seconds delta / 3600 in
  let rem := seconds delta mod 3600 in
  let mi := rem / 60 in
  let s := rem mod 60 in
  if (0 <? days delta) && (days delta <=? MAXORDINAL) then
    let '(y, m, d) := ord2ymd (days delta) in
    ret (mk y m d h mi s (microseconds delta))
  else raise OverflowError.

(** [timedelta(days=1)] *)
Definition one_day : timedelta := timedelta_new 1 0 0 0 0.

End Datetime.

(** ** Regular expressions: the fragment of [re] that [strptime] builds *)

Module Re.

Inductive regex : Type :=
| Chr (c : ascii)                      (* a literal character *)
| Class (cs : list ascii)              (* [...] and \d *)
| Seq (r1 r2 : regex)
| Alt (r1 r2 : regex)                  (* r1|r2, r1 tried first *)
| Group (name : string) (r : regex).   (* (?P<name>r) *)

Record found : Type := mk_found {
  groups : list (string * string);
  text : string;       (* the characters matched *)
  rest : string        (* what follows the match *)
}.

Definition in_class (c : ascii) (cs : list ascii) : bool :=
  existsb (Ascii.eqb c) cs.

(** All the ways [r] matches at the start of [s], in the order a
    backtracking matcher tries them. *)
Fixpoint matches_at (r : regex) (s : string) : list found :=
  match r with
  | Chr c =>
      match s with
      | String c' s' =>
          if Ascii.eqb c' c then [mk_found [] (String c' "") s'] else []
      | EmptyString => []
      end
  | Class cs =>
      match s with
      | String c' s' =>
          if in_class c' cs then [mk_found [] (String c' "") s'] else []
      | EmptyString => []
      end
  | Seq r1 r2 =>
      f1 ← matches_at r1 s;
      f2 ← matches_at r2 (rest f1);
      [mk_found (groups f1 ++ groups f2) (text f1 +:+ text f2) (rest f2)]
  | Alt r1 r2 => matches_at r1 s ++ matches_at r2 s
  | Group name r =>
      (λ f, mk_found ((name, text f) :: groups f) (text f) (rest f))
        <$> matches_at r s
  end.

(** What a match of [r] looks like: the text it covers and the groups it
    binds. *)
Inductive derives : regex → string → list (string * string) → Prop :=
| derives_chr c : derives (Chr c) (String c "") []
| derives_class c cs : c ∈ cs → derives (Class cs) (String c "") []
| derives_seq r1 r2 t1 t2 g1 g2 :
    derives r1 t1 g1 → derives r2 t2 g2 →
    derives (Seq r1 r2) (t1 +:+ t2) (g1 ++ g2)
| derives_alt_l r1 r2 t g : derives r1 t g → derives (Alt r1 r2) t g
| derives_alt_r r1 r2 t g : derives r2 t g → derives (Alt r1 r2) t g
| derives_group name r t g :
    derives r t g → derives (Group name r) t ((name, t) :: g).

(** [re.match]: the first match in backtracking order. *)
Definition match_ (r : regex) (s : string) : option found :=
  head (matches_at r s).

(** [found.groupdict().get(name)] *)
Fixpoint assoc (name : string) (l : list (string * string)) : option string :=
  match l with
  | [] => None
  | (k, v) :: l' => if String.eqb k name then Some v else assoc name l'
  end.

Definition chars (s : string) : list ascii := list_ascii_of_string s.

(** \d, on the code points below U+0100 *)
Definition digit : regex := Class (chars "0123456789").

End Re.

(** ** [datetime.strptime(s, '%Y-%m-%d')] *)

Module Strptime.
Import Re.

(** The table of [TimeRE] for the three directives of the format. *)
Definition re_Y : regex :=
  Group "Y" (Seq digit (Seq digit (Seq digit digit))).
Definition re_m : regex :=
  Group "m" (Alt (Seq (Chr "1") (Class (chars "012")))
            (Alt (Seq (Chr "0") (Class (chars "123456789")))
                 (Class (chars "123456789")))).
Definition re_d : regex :=
  Group "d" (Alt (Seq (Chr "3") (Class (chars "01")))
            (Alt (Seq (Class (chars "12")) digit)
            (Alt (Seq (Chr "0") (Class (chars "123456789")))
            (Alt (Class (chars "123456789"))
                 (Seq (Chr " ") (Class (chars "123456789"))))))).

(** The pattern compiled from ['%Y-%m-%d']. *)
Definition tail_regex : regex :=
  Seq (Chr "-") (Seq re_m (Seq (Chr "-") re_d)).
Definition format_regex : regex := Seq re_Y tail_regex.

(** A group that matched is converted with [int]; [dflt] stands for a
    directive absent from the format. *)
Definition int_group (name : string) (dflt : Z) (f : found) : result Z :=
  match assoc name (groups f) with
  | Some v => Str.int v
  | None => ret dflt
  end.

Definition strptime (data_string : string) : result Datetime.t :=
  match match_ format_regex data_string with
  | None => raise ValueError              (* does not match format *)
  | Some f =>
      if negb (String.eqb (rest f) "") then
        raise ValueError                  (* unconverted data remains *)
      else
        do y <- int_group "Y" 1900 f;
        do m <- int_group "m" 1 f;
        do d <- int_group "d" 1 f;
        do _ <- Datetime.check_date_fields y m d;
        ret (Datetime.midnight y m d)
  end.

End Strptime.

(** ** Sequences *)

(** [l[i]] *)
Definition getitem {A} (l : list A) (i : nat) : result A :=
  match l !! i with
  | Some x => ret x
  | None => raise IndexError
  end.

Fixpoint mapM {A B} (f : A → result B) (l : list A) : result (list B) :=
  match l with
  | [] => ret []
  | x :: l' => do y <- f x; do ys <- mapM f l'; ret (y :: ys)
  end.

(** [max(l)] *)
Definition max_of (l : list Z) : result Z :=
  match l with
  | [] => raise ValueError
  | x :: l' => ret (foldl Z.max x l')
  end.

(** ** class Task *)

Module Task.

Record t : Type := mk {
  title : string;
  description : string;
  category : string;
  priority : Z;                 (* 1 - High, 2 - Medium, 3 - Low *)
  deadline : Datetime.t;
  completed : bool;
  assigned_user : string
}.

(** [Task.__init__] *)
Definition init (title description category : string) (priority : Z)
    (deadline assigned_user : string) : result t :=
  do dl <- Strptime.strptime deadline;
  ret (mk title description category priority dl false assigned_user).

Definition mark_as_completed (self : t) : t :=
  mk (title self) (description self) (category self) (priority self)
     (deadline self) true (assigned_user self).

Definition to_file_string (self : t) : string :=
  title self +:+ "|" +:+ description self +:+ "|" +:+ category self
  +:+ "|" +:+ Str.of_int (priority self)
  +:+ "|" +:+ Datetime.isoformat (Datetime.date (deadline self))
  +:+ "|" +:+ assigned_user self +:+ "|" +:+ Str.of_bool (completed self).

Definition from_file_string (line : string) : result t :=
  let parts := Str.split "|" line in
  do p0 <- getitem parts 0;
  do p1 <- getitem parts 1;
  do p2 <- getitem parts 2;
  do p3 <- getitem parts 3;
  do prio <- Str.int p3;
  do p4 <- getitem parts 4;
  do p5 <- getitem parts 5;
  do task <- init p0 p1 p2 prio p4 p5;
  do p6 <- getitem parts 6;
  if String.eqb (Str.lower p6) "true" then ret (mark_as_completed task)
  else ret task.

Definition priority_str (p : Z) : string :=
  if p =? 1 then "High" else if p =? 2 then "Medium"
  else if p =? 3 then "Low" else "Unknown".

Definition to_row (self : t) : list string :=
  let completed_str := if completed self then "Yes" else "No" in
  [title self; description self; category self; priority_str (priority self);
   Datetime.isoformat (Datetime.date (deadline self)); assigned_user self;
   completed_str].

(** What every object built by [init] satisfies: a calendar date at
    midnight. *)
Definition wf (self : t) : bool :=
  Datetime.valid (deadline self) && Datetime.is_midnight (deadline self).

End Task.

(** ** The world around the manager *)

(** References to [Task] objects. *)
Definition loc : Type := positive.

Global Instance Task_inhabited : Inhabited Task.t :=
  populate (Task.mk "" "" "" 0 (Datetime.midnight 1 1 1) false "").

Record Env : Type := mk_env {
  objs : gmap loc Task.t;        (* the Task objects *)
  fs : gmap string string;       (* the files, by path *)
  fs_writes : nat;               (* how many times a file was (re)written *)
  stdout : list string           (* what [print] wrote, one entry per call *)
}.

Definition obj (env : Env) (l : loc) : Task.t := objs env !!! l.

(** A new object gets a reference that no object has. *)
Definition alloc (task : Task.t) (env : Env) : loc * Env :=
  let l := fresh (dom (objs env)) in
  (l, mk_env (<[l := task]> (objs env)) (fs env) (fs_writes env) (stdout env)).

Definition print (line : string) (env : Env) : Env :=
  mk_env (objs env) (fs env) (fs_writes env) (stdout env ++ [line]).

Definition newline : ascii := "010"%char.

(** [for line in file]: the lines of a text, each with its newline. The
    content of a file is its text as [open(path, 'r')] gives it, newlines
    already translated. *)
Fixpoint readlines (content : string) : list string :=
  match content with
  | EmptyString => []
  | String c r =>
      if Ascii.eqb c newline then String c "" :: readlines r
      else match readlines r with
           | [] => [String c ""]
           | l :: ls => String c l :: ls
           end
  end.

Fixpoint concat_lines (l : list string) : string :=
  match l with
  | [] => ""
  | x :: r => x +:+ concat_lines r
  end.

(** [list.remove(x)] for objects compared by identity. *)
Fixpoint list_remove (x : loc) (l : list loc) : result (list loc) :=
  match l with
  | [] => raise ValueError
  | y :: l' =>
      if decide (y = x) then ret l'
      else do r <- list_remove x l'; ret (y :: r)
  end.

(** ** class TaskManager *)

Module TaskManager.

Record t : Type := mk {
  tasks : list loc;
  file_path : string;
  notification_active : bool;
  upcoming_reminders : list string      (* shared list for reminders *)
}.

Definition set_tasks (ts : list loc) (self : t) : t :=
  mk ts (file_path self) (notification_active self) (upcoming_reminders self).
Definition set_reminders (rs : list string) (self : t) : t :=
  mk (tasks self) (file_path self) (notification_active self) rs.

Definition headers : list string :=
  ["Title"; "Description"; "Category"; "Priority"; "Deadline";
   "Assigned To"; "Completed"].

Definition save_tasks_to_file (self : t) (env : Env) : Env :=
  let text :=
    concat_lines
      ((λ l, Task.to_file_string (obj env l) +:+ String newline "")
         <$> tasks self) in
  mk_env (objs env) (<[file_path self := text]> (fs env))
         (S (fs_writes env)) (stdout env).

Fixpoint load_lines (lines : list string) (self : t) (env : Env)
  : t * Env * option exn :=
  match lines with
  | [] => (self, env, None)
  | line :: lines' =>
      match Task.from_file_string (Str.strip line) with
      | inl e => (self, env, Some e)
      | inr task =>
          let '(l, env') := alloc task env in
          load_lines lines' (set_tasks (tasks self ++ [l]) self) env'
      end
  end.

(** The manager and the world when the call ends, and the exception that
    ended it, if one did. *)
Definition load_tasks_from_file (self : t) (env : Env)
  : t * Env * option exn :=
  match fs env !! file_path self with
  | None => (self, env, None)
  | Some content => load_lines (readlines content) self env
  end.

(** [threading.Thread(target=self.notification_thread, daemon=True).start()]:
    from here on the scanner runs beside the caller and rewrites
    [upcoming_reminders] in place (module [Scanner] has its cycle); it writes
    no other field. [seen] is what it has left in the list by the time the
    caller reads the manager: the list is empty only if the caller comes
    first. *)
Definition start_notification_thread (seen : list string) (self : t) : t :=
  set_reminders seen self.

(** [TaskManager()]: either the new manager, or the exception that the
    constructor raised. The load comes first: when it raises, no thread is
    started. *)
Definition init (seen : list string) (env : Env) : result t * Env :=
  let self := mk [] "database.txt" true [] in
  match load_tasks_from_file self env with
  | (self', env', None) => (ret (start_notification_thread seen self'), env')
  | (_, env', Some e) => (raise e, env')
  end.

Definition add_task (task : loc) (self : t) (env : Env) : t * Env :=
  let self' := set_tasks (tasks self ++ [task]) self in
  (self', save_tasks_to_file self' env).

Definition ljust_cell (col_widths : list Z) (row : list string) (i : nat)
  : result string :=
  do x <- getitem row i;
  do w <- getitem col_widths i;
  ret (Str.ljust w x).

Definition format_as_table (rows : list (list string))
    (headers : list string) : result string :=
  let cols := seq 0 (length headers) in
  do col_widths <-
    mapM (λ i, do ws <- mapM (λ row, do x <- getitem row i; ret (Str.len x))
                             (rows ++ [headers]);
               max_of ws) cols;
  do header_cells <- mapM (ljust_cell col_widths headers) cols;
  do rule_cells <-
    mapM (λ i, do w <- getitem col_widths i;
               ret (Str.replicate (Z.to_nat w) "-")) cols;
  do row_lines <-
    mapM (λ row, do cells <- mapM (ljust_cell col_widths row)
                                  (seq 0 (length row));
                 ret (Str.join " | " cells)) rows;
  ret (Str.join (String newline "")
         (Str.join " | " header_cells :: Str.join "-+-" rule_cells
          :: row_lines)).

Definition print_rows (title_line empty_line : string)
    (rows : list (list string)) (env : Env) : result Env :=
  match rows with
  | [] => ret (print empty_line env)
  | _ :: _ =>
      do table <- format_as_table rows headers;
      ret (print table (print title_line env))
  end.

Definition list_tasks (self : t) (env : Env) : result Env :=
  match tasks self with
  | [] => ret (print "No tasks available." env)
  | _ :: _ =>
      let rows := (λ l, Task.to_row (obj env l)) <$> tasks self in
      do table <- format_as_table rows headers;
      ret (print table env)
  end.

(** The rows that [list_tasks_by_category] builds. *)
Definition category_rows (category : string) (self : t) (env : Env)
  : list (list string) :=
  Task.to_row <$>
    filter (λ task, Str.lower (Task.category task) = Str.lower category)
           (obj env <$> tasks self).

Definition list_tasks_by_category (category : string) (self : t)
    (env : Env) : result Env :=
  print_rows ("Tasks in category: " +:+ category)
             ("No tasks found in category: " +:+ category)
             (category_rows category self env) env.

Definition priority_rows (priority : Z) (self : t) (env : Env)
  : list (list string) :=
  Task.to_row <$>
    filter (λ task, Task.priority task = priority) (obj env <$> tasks self).

Definition list_tasks_by_priority (priority : Z) (self : t) (env : Env)
  : result Env :=
  print_rows ("Tasks with priority: " +:+ Task.priority_str priority)
             ("No tasks found with priority: " +:+ Str.of_int priority)
             (priority_rows priority self env) env.

Definition title_matches (title : string) (env : Env) (l : loc) : bool :=
  String.eqb (Str.lower (Task.title (obj env l))) (Str.lower title).

(** The loop of [mark_task_as_completed]: [None] when it runs to its end. *)
Fixpoint mark_loop (title : string) (pending : list loc) (self : t)
    (env : Env) : option Env :=
  match pending with
  | [] => None
  | task :: pending' =>
      if title_matches title env task then
        let env1 :=
          mk_env (<[task := Task.mark_as_completed (obj env task)]> (objs env))
                 (fs env) (fs_writes env) (stdout env) in
        let env2 := save_tasks_to_file self env1 in
        Some (print ("Task marked as completed: "
                     +:+ Task.title (obj env2 task)) env2)
      else mark_loop title pending' self env
  end.

Definition mark_task_as_completed (title : string) (self : t) (env : Env)
  : t * Env :=
  match mark_loop title (tasks self) self env with
  | Some env' => (self, env')
  | None => (self, print ("Task not found: " +:+ title) env)
  end.

(** The loop of [delete_task]: the value of [to_remove] after it. *)
Fixpoint find_to_remove (title : string) (pending : list loc) (env : Env)
  : option loc :=
  match pending with
  | [] => None
  | task :: pending' =>
      if title_matches title env task then Some task
      else find_to_remove title pending' env
  end.

Definition delete_task (title : string) (self : t) (env : Env)
  : result (t * Env) :=
  match find_to_remove title (tasks self) env with
  | Some to_remove =>
      do ts <- list_remove to_remove (tasks self);
      let self' := set_tasks ts self in
      ret (self', print ("Task deleted: " +:+ title)
                        (save_tasks_to_file self' env))
  | None => ret (self, print ("Task not found: " +:+ title) env)
  end.

(** The condition of the scan. [and] evaluates its right operand only
    when the left one holds. *)
Definition due (now : Datetime.t) (task : Task.t) : result bool :=
  if negb (Task.completed task) then
    if Datetime.gt (Task.deadline task) now then
      do limit <- Datetime.add now Datetime.one_day;
      ret (Datetime.lt (Task.deadline task) limit)
    else ret false
  else ret false.

Definition reminder (task : Task.t) : string :=
  "Task '" +:+ Task.title task +:+ "' has a deadline within 24 hours!".

Fixpoint scan_loop (now : Datetime.t) (pending : list loc) (self : t)
    (env : Env) : t * option exn :=
  match pending with
  | [] => (self, None)
  | task :: pending' =>
      match due now (obj env task) with
      | inl e => (self, Some e)
      | inr true =>
          scan_loop now pending'
            (set_reminders (upcoming_reminders self ++ [reminder (obj env task)])
                           self) env
      | inr false => scan_loop now pending' self env
      end
  end.

(** One scan cycle, run without interruption; [now] is what
    [datetime.now()] returned. *)
Definition check_upcoming_deadlines (now : Datetime.t) (self : t)
    (env : Env) : t * option exn :=
  scan_loop now (tasks self) (set_reminders [] self) env.

Definition stop_notifications (self : t) : t :=
  mk (tasks self) (file_path self) false (upcoming_reminders self).

End TaskManager.

(** ** The scan cycle, one step at a time

    The scanner thread runs [check_upcoming_deadlines] while the main thread
    reads [upcoming_reminders]; the interpreter may switch threads between
    any two operations on the list. A state of the cycle is a program point
    and the manager as the other thread sees it there. *)

Module Scanner.
Import TaskManager.

Inductive pc : Type :=
| Start                 (* before [self.upcoming_reminders.clear()] *)
| Loop (i : nat)        (* in the [for], about to fetch [self.tasks[i]] *)
| Finished
| Failed (e : exn).

Definition state : Type := (pc * TaskManager.t)%type.

Definition step (now : Datetime.t) (env : Env) (st : state) : option state :=
  let '(p, self) := st in
  match p with
  | Start => Some (Loop 0, set_reminders [] self)
  | Loop i =>
      match tasks self !! i with
      | None => Some (Finished, self)
      | Some task =>
          match due now (obj env task) with
          | inl e => Some (Failed e, self)
          | inr true =>
              Some (Loop (S i),
                    set_reminders
                      (upcoming_reminders self ++ [reminder (obj env task)])
                      self)
          | inr false => Some (Loop (S i), self)
          end
      end
  | Finished | Failed _ => None
  end.

Definition steps_to (now : Datetime.t) (env : Env) (st st' : state) : Prop :=
  step now env st = Some st'.

(** The states a cycle started on [self] goes through. *)
Definition reachable (now : Datetime.t) (env : Env) (self : TaskManager.t)
    (st : state) : Prop :=
  rtc (steps_to now env) (Start, self) st.

(** What a reader of [upcoming_reminders] may see during the cycle. *)
Definition observable (now : Datetime.t) (env : Env) (self : TaskManager.t)
    (seen : list string) : Prop :=
  ∃ st, reachable now env self st ∧ upcoming_reminders st.2 = seen.

Fixpoint run (fuel : nat) (now : Datetime.t) (env : Env) (st : state)
  : list state :=
  match fuel with
  | O => [st]
  | S f =>
      match step now env st with
      | None => [st]
      | Some st' => st :: run f now env st'
      end
  end.

End Scanner.

(** ** The vocabulary of the properties *)

Module Spec.

(** The position of a [datetime] on the time line, in microseconds; day 1
    is 0001-01-01. *)
Definition timestamp (dt : Datetime.t) : Z :=
  (((Datetime.toordinal dt * 24 + Datetime.hour dt) * 60
    + Datetime.minute dt) * 60 + Datetime.second dt) * 1000000
  + Datetime.microsecond dt.

Definition hours_24 : Z := 24 * 60 * 60 * 1000000.

(** The condition for a reminder, as the specification words it: not
    completed, deadline after [now] and before [now] plus 24 hours. *)
Definition within_24h (now : Datetime.t) (task : Task.t) : bool :=
  negb (Task.completed task)
  && (timestamp now <? timestamp (Task.deadline task))
  && (timestamp (Task.deadline task) <? timestamp now + hours_24).

(** The deadline strings that denote the date [y]-[m]-[d] and that task
    creation accepts: a year of four digits, a month and a day with or
    without a leading zero, a day of one digit also after a space. *)
Definition month_forms (m : Z) : list string :=
  [Str.zero_padded 2 m; Str.of_int m].
Definition day_forms (d : Z) : list string :=
  [Str.zero_padded 2 d; Str.of_int d]
  ++ (if d <? 10 then [" " +:+ Str.of_int d] else []).
Definition accepted_forms (y m d : Z) : list string :=
  M ← month_forms m; D ← day_forms d;
  [Str.zero_padded 4 y +:+ "-" +:+ M +:+ "-" +:+ D].

(** The strict form of the specification: YYYY-MM-DD, four, two and two
    digits, denoting a date of the calendar. *)
Definition strict_form (s : string) : bool :=
  match s with
  | String y1 (String y2 (String y3 (String y4 (String dash1
      (String m1 (String m2 (String dash2 (String d1 (String d2 ""))))))))) =>
      Ascii.eqb dash1 "-" && Ascii.eqb dash2 "-"
      && forallb Str.isdigit [y1; y2; y3; y4; m1; m2; d1; d2]
      && Datetime.valid_date
           (1000 * Str.digit_value y1 + 100 * Str.digit_value y2
            + 10 * Str.digit_value y3 + Str.digit_value y4)
           (10 * Str.digit_value m1 + Str.digit_value m2)
           (10 * Str.digit_value d1 + Str.digit_value d2)
  | _ => false
  end.

(** Equality without regard to case, as the specification words it: the
    same length and, at each place, the same character or the capital and
    the small form of one letter. The capitals are A-Z and, above U+007F,
    U+00C0 .. U+00DE without the multiplication sign; the small form of a
    capital is 32 places up. *)
Definition capital (c : ascii) : bool :=
  ((65 <=? Str.code c) && (Str.code c <=? 90))
  || ((192 <=? Str.code c) && (Str.code c <=? 222)
      && negb (Str.code c =? 215)).
Definition small_of (up lo : ascii) : bool :=
  capital up && (Str.code lo =? Str.code up + 32).
Definition same_letter (a b : ascii) : bool :=
  Ascii.eqb a b || small_of a b || small_of b a.
Fixpoint equal_ignoring_case (s t : string) : bool :=
  match s, t with
  | EmptyString, EmptyString => true
  | String a s', String b t' => same_letter a b && equal_ignoring_case s' t'
  | _, _ => false
  end.

End Spec.

(** ** Sample data *)

Module Sample.

Definition rent : Task.t :=
  Task.mk "Pay rent" "" "Bills" 1 (Datetime.midnight 2099 1 1) false "alice".
Definition milk : Task.t :=
  Task.mk "Buy milk" "2 l" "Home" 3 (Datetime.midnight 2024 3 10) false "carol".
Definition rent_again : Task.t :=
  Task.mk "PAY RENT" "second entry" "bills" 2 (Datetime.midnight 2024 3 10)
          false "bob".
Definition done_task : Task.t :=
  Task.mk "Call bank" "" "Bills" 2 (Datetime.midnight 2024 3 10) true "alice".

(** Four objects; the list of the manager holds them in this order. *)
Definition env : Env :=
  mk_env {[ 1%positive := rent; 2%positive := milk;
            3%positive := rent_again; 4%positive := done_task ]}
         ∅ 0 [].
Definition manager : TaskManager.t :=
  TaskManager.mk [1%positive; 2%positive; 3%positive; 4%positive]
                 "database.txt" true ["stale reminder"].

(** One minute past midnight on 2024-03-09, and midnight itself. *)
Definition now : Datetime.t := Datetime.mk 2024 3 9 0 1 0 0.
Definition now_midnight : Datetime.t := Datetime.mk 2024 3 9 0 0 0 0.

(** A backing file: a well-formed line, then a line of five fields. *)
Definition broken_file : string :=
  "Pay rent||Bills|1|2099-01-01|alice|False" +:+ String newline
    ("Buy milk|2 l|Home|3|2024-03-10" +:+ String newline "").
Definition broken_env : Env :=
  mk_env ∅ {[ "database.txt" := broken_file ]} 0 [].

(** A line of eight fields. *)
Definition long_line : string :=
  "Pay rent||Bills|1|2099-01-01|alice|TRUE|extra".

End Sample.

(** ** Notions used in the proofs *)

(** No task of [ts] has the title, compared without case. *)
Definition no_match (title : string) (env : Env) (ts : list loc) : Prop :=
  ∀ l, l ∈ ts → Str.lower (Task.title (obj env l)) ≠ Str.lower title.

(** [l] at index [i] is the first task of [ts] with the title. *)
Definition first_match (title : string) (env : Env) (ts : list loc) (i : nat)
    (l : loc) : Prop :=
  ts !! i = Some l
  ∧ Str.lower (Task.title (obj env l)) = Str.lower title
  ∧ ∀ j l', (j < i)%nat → ts !! j = Some l' →
            Str.lower (Task.title (obj env l')) ≠ Str.lower title.

(** The world once the object at [l] is marked. *)
Definition completed_at (l : loc) (env : Env) : Env :=
  mk_env (<[l := Task.mark_as_completed (obj env l)]> (objs env))
         (fs env) (fs_writes env) (stdout env).

(** [doy2md] is right at offset [n]: a month, a day of that month, and the
    days before them add up to [n + 1]. *)
Definition doy_ok (leap : bool) (n : Z) : bool :=
  let '(m, d) := Datetime.doy2md leap n in
  (1 <=? m) && (m <=? 12) && (1 <=? d)
  && (d <=? (if (m =? 2) && leap then 29
             else Datetime.table Datetime.DAYS_IN_MONTH m))
  && (Datetime.table Datetime.DAYS_BEFORE_MONTH m
      + (if (2 <? m) && leap then 1 else 0) + d =? n + 1).

(** Four digits, and the number they denote. *)
Definition text4 (y1 y2 y3 y4 : ascii) : string :=
  String y1 (String y2 (String y3 (String y4 ""))).
Definition value4 (y1 y2 y3 y4 : ascii) : Z :=
  1000 * Str.digit_value y1 + 100 * Str.digit_value y2
  + 10 * Str.digit_value y3 + Str.digit_value y4.

Definition int_or_0 (t : string) : Z :=
  match Str.int t with inr v => v | inl _ => 0 end.

(** After the year, the pattern matches ["-" M "-" D] to its end, binds the
    two groups to [M] and [D], and [int] reads them as [m] and [d]. *)
Definition tail_ok (m d : Z) (M D : string) : bool :=
  match Re.match_ Strptime.tail_regex ("-" +:+ M +:+ "-" +:+ D) with
  | Some f =>
      String.eqb (Re.rest f) ""
      && bool_decide (Re.assoc "m" (Re.groups f) = Some M)
      && bool_decide (Re.assoc "d" (Re.groups f) = Some D)
      && match Str.int M, Str.int D with
         | inr vm, inr vd => (vm =? m) && (vd =? d)
         | _, _ => false
         end
  | None => false
  end.

(** Where a scan cycle stands at each of its states, in terms of the loop
    run without interruption. *)
Definition cycle_inv (now : Datetime.t) (env : Env) (self : TaskManager.t)
    (st : Scanner.state) : Prop :=
  match st.1 with
  | Scanner.Start => st.2 = self
  | Scanner.Loop i =>
      (i ≤ length (TaskManager.tasks self))%nat
      ∧ TaskManager.scan_loop now (take i (TaskManager.tasks self))
          (TaskManager.set_reminders [] self) env = (st.2, None)
  | Scanner.Finished =>
      TaskManager.check_upcoming_deadlines now self env = (st.2, None)
  | Scanner.Failed e =>
      TaskManager.check_upcoming_deadlines now self env = (st.2, Some e)
  end.

(** ** The backing file and the task list *)

(** The carriage return, which reading in text mode turns into a newline. *)
Definition carriage_return : ascii := "013"%char.

(** The text that [save_tasks_to_file] writes for the tasks of the manager. *)
Definition file_text (self : TaskManager.t) (env : Env) : string :=
  concat_lines
    ((λ l, Task.to_file_string (obj env l) +:+ String newline "")
       <$> TaskManager.tasks self).

(** The backing file holds the tasks of the manager as they are now. *)
Definition in_sync (self : TaskManager.t) (env : Env) : Prop :=
  fs env !! TaskManager.file_path self = Some (file_text self env).

(** A text without the delimiter and without a line end. *)
Definition plain (s : string) : bool :=
  negb (Str.contains "|" s) && negb (Str.contains newline s)
  && negb (Str.contains carriage_return s).

(** A task that the file can hold: a date at midnight as its deadline, plain
    texts, and no white space in front of the title. *)
Definition storable (t : Task.t) : bool :=
  Task.wf t && plain (Task.title t) && plain (Task.description t)
  && plain (Task.category t) && plain (Task.assigned_user t)
  && String.eqb (Str.lstrip Str.isspace (Task.title t)) (Task.title t).

(** The task with another title. *)
Definition with_title (title : string) (t : Task.t) : Task.t :=
  Task.mk title (Task.description t) (Task.category t) (Task.priority t)
          (Task.deadline t) (Task.completed t) (Task.assigned_user t).

(** ** More sample data *)

Module Cases.

(** The sample world once the manager has saved its four tasks. *)
Definition env : Env := TaskManager.save_tasks_to_file Sample.manager Sample.env.

(** What the first cycle of the scanner leaves at [Sample.now]. *)
Definition first_scan : list string :=
  ["Task 'Buy milk' has a deadline within 24 hours!";
   "Task 'PAY RENT' has a deadline within 24 hours!"].

(** The manager that a new start builds from that file. *)
Definition manager : TaskManager.t :=
  match (TaskManager.init first_scan env).1 with
  | inr self => self
  | inl _ => Sample.manager
  end.

(** A title with blanks in front, and a deadline with a time of day. *)
Definition padded : Task.t :=
  Task.mk "  Pay rent" "" "Bills" 1 (Datetime.mk 2099 1 1 9 30 0 0) false
          "alice".

(** A title that holds the delimiter twice. *)
Definition barred : Task.t :=
  Task.mk "a|b|c" "5" "2024-01-01" 1 (Datetime.midnight 2099 1 1) false
          "alice".

(** A backing file whose second line is empty. *)
Definition blank_file : string :=
  "Pay rent||Bills|1|2099-01-01|alice|False" +:+ String newline
    (String newline "").
Definition blank_env : Env :=
  mk_env ∅ {[ "database.txt" := blank_file ]} 0 [].

(** A backing file whose second line has eight fields. *)
Definition long_file : string :=
  "Buy milk|2 l|Home|3|2024-03-10|carol|False" +:+ String newline
    (Sample.long_line +:+ String newline "").
Definition long_env : Env :=
  mk_env ∅ {[ "database.txt" := long_file ]} 0 [].

(** Two rows of two cells under a header of two, and a row that is short. *)
Definition headers : list string := ["Title"; "Assigned To"].
Definition rows : list (list string) := [["Pay rent"; "alice"]; ["Buy milk"; "carol"]].
Definition ragged : list (list string) := [["Pay rent"; "alice"]; ["Buy milk"]].

End Cases.

(** * Properties *)

(** ** Sample values, as the interpreter computes them *)

Example str_samples :
  Str.of_int (-1205) = "-1205" ∧ Str.of_int 0 = "0"
  ∧ Str.int " +1_0 " = inr 10 ∧ Str.int "1__0" = inl ValueError
  ∧ Str.split "|" "a||b|" = ["a"; ""; "b"; ""]
  ∧ Str.lower "AbZ[" = "abz[" ∧ Str.zero_padded 4 5 = "0005".
Proof. by vm_compute. Qed.

Example datetime_samples :
  Datetime.ord2ymd 738000 = (2021, 7, 29)
  ∧ Datetime.ymd2ord 2021 7 29 = 738000
  ∧ Datetime.ord2ymd 3652059 = (9999, 12, 31)
  ∧ Datetime.ord2ymd 730179 = (2000, 2, 29)
  ∧ Datetime.ord2ymd 146097 = (400, 12, 31)
  ∧ Datetime.add (Datetime.mk 2024 2 28 23 59 59 999999) Datetime.one_day
    = inr (Datetime.mk 2024 2 29 23 59 59 999999)
  ∧ Datetime.isoformat (Datetime.mk 5 3 4 0 0 0 0) = "0005-03-04".
Proof. by vm_compute. Qed.

Example strptime_samples :
  Strptime.strptime "2024-01- 5" = inr (Datetime.midnight 2024 1 5)
  ∧ Strptime.strptime "2024-02-30" = inl ValueError
  ∧ Strptime.strptime "2024-01-311" = inl ValueError
  ∧ Strptime.strptime "2024-13-01" = inl ValueError
  ∧ Strptime.strptime "0000-01-01" = inl ValueError
  ∧ Strptime.strptime "2000-02-29" = inr (Datetime.midnight 2000 2 29).
Proof. by vm_compute. Qed.

Example codec_samples :
  Task.to_file_string Sample.rent = "Pay rent||Bills|1|2099-01-01|alice|False"
  ∧ Task.from_file_string "a|b|c|1|2024-01-01|u" = inl IndexError
  ∧ Task.from_file_string "a|b|c|x|2024-01-01" = inl ValueError.
Proof. by vm_compute. Qed.

(** A task is created, added, marked under another case of its title, and
    deleted. *)
Example end_to_end :
  let env0 := mk_env ∅ ∅ 0 [] in
  let self0 := TaskManager.mk [] "database.txt" true [] in
  ∃ task, Task.init "Pay rent" "" "Bills" 1 "2099-01-01" "alice" = inr task ∧
  let '(l, env1) := alloc task env0 in
  let '(self1, env2) := TaskManager.add_task l self0 env1 in
  let '(self2, env3) := TaskManager.mark_task_as_completed "pay rent" self1 env2 in
  fs env2 !! "database.txt"
    = Some ("Pay rent||Bills|1|2099-01-01|alice|False" +:+ String newline "")
  ∧ fs env3 !! "database.txt"
    = Some ("Pay rent||Bills|1|2099-01-01|alice|True" +:+ String newline "")
  ∧ ∃ self3 env4, TaskManager.delete_task "Pay Rent" self2 env3 = inr (self3, env4)
      ∧ TaskManager.tasks self3 = [] ∧ fs env4 !! "database.txt" = Some "".
Proof. eexists. split; [reflexivity|]. vm_compute. split_and!; try done. by eexists _, _. Qed.

(** ** Tactics *)

Ltac divmod := Z.to_euclidean_division_equations; lia.

Ltac calc_tables :=
  repeat match goal with
  | |- context [Datetime.table ?l ?i] =>
      let v := eval vm_compute in (Datetime.table l i) in change (Datetime.table l i) with v
  end; cbn [Z.eqb Z.ltb Z.compare Pos.eqb Pos.compare Pos.compare_cont andb orb negb].

Ltac inv_derives :=
  repeat match goal with
  | H : Re.derives (Re.Seq _ _) _ _ |- _ => inversion H; clear H; subst
  | H : Re.derives (Re.Alt _ _) _ _ |- _ => inversion H; clear H; subst
  | H : Re.derives (Re.Group _ _) _ _ |- _ => inversion H; clear H; subst
  | H : Re.derives (Re.Chr _) _ _ |- _ => inversion H; clear H; subst
  | H : Re.derives (Re.Class _) _ _ |- _ => inversion H; clear H; subst
  | H : _ ∈ _ :: _ |- _ => apply elem_of_cons in H as [->|H]
  | H : _ ∈ [] |- _ => apply elem_of_nil in H; destruct H
  end.

(** ** The error monad *)

Lemma bind_inl {A B} (m : result A) (k : A → result B) e :
  bind m k = inl e → m = inl e ∨ ∃ a, m = inr a ∧ k a = inl e.
Proof. destruct m as [e'|a]; simpl; [intros [= ->]; by left|right; eauto]. Qed.

Lemma bind_inr {A B} (m : result A) (k : A → result B) b :
  bind m k = inr b → ∃ a, m = inr a ∧ k a = inr b.
Proof. destruct m as [e'|a]; simpl; [done|eauto]. Qed.

(** ** Strings *)

Section string_facts.
Lemma app_cons c (s t : string) : String c s +:+ t = String c (s +:+ t).
Proof. reflexivity. Qed.

Lemma app_empty_l (s : string) : "" +:+ s = s.
Proof. reflexivity. Qed.

Lemma app_empty_r (s : string) : s +:+ "" = s.
Proof. induction s as [|c s IH]; [done|]. by rewrite app_cons, IH. Qed.

Lemma app_assoc_str (a b c : string) : (a +:+ b) +:+ c = a +:+ (b +:+ c).
Proof. induction a as [|x a IH]; [done|]. by rewrite !app_cons, IH. Qed.

Lemma all_app p (a b : string) : Str.all p (a +:+ b) = Str.all p a && Str.all p b.
Proof.
  induction a as [|c a IH]; [done|]. rewrite app_cons. simpl.
  by rewrite IH, andb_assoc.
Qed.

Lemma all_impl (p q : ascii → bool) s :
  (∀ c, p c = true → q c = true) → Str.all p s = true → Str.all q s = true.
Proof.
  intros Hpq. induction s as [|c s IH]; [done|]. simpl.
  intros [Hc Hs]%andb_true_iff. by rewrite (Hpq c Hc), IH.
Qed.

Lemma all_not_contains p c s :
  Str.all p s = true → p c = false → Str.contains c s = false.
Proof.
  intros Hall Hc. induction s as [|c' s IH]; [done|]. simpl in *.
  apply andb_true_iff in Hall as [Hc' Hs]. rewrite (IH Hs), orb_false_r.
  apply Ascii.eqb_neq. intros ->. congruence.
Qed.

Lemma lstrip_id sp s :
  Str.all (λ c, negb (sp c)) s = true → Str.lstrip sp s = s.
Proof.
  destruct s as [|c s]; [done|]. simpl.
  intros [Hc _]%andb_true_iff. apply negb_true_iff in Hc. by rewrite Hc.
Qed.

Lemma rstrip_id sp s :
  Str.all (λ c, negb (sp c)) s = true → Str.rstrip sp s = s.
Proof.
  induction s as [|c s IH]; [done|]. simpl.
  intros [Hc Hs]%andb_true_iff. apply negb_true_iff in Hc.
  rewrite (IH Hs). destruct s; [by rewrite Hc|done].
Qed.

Lemma split_no_sep sep s :
  Str.contains sep s = false → Str.split sep s = [s].
Proof.
  induction s as [|c s IH]; [done|]. simpl.
  intros [Hc Hs]%orb_false_iff. by rewrite Hc, (IH Hs).
Qed.

Lemma split_app sep a r :
  Str.contains sep a = false →
  Str.split sep (a +:+ String sep r) = a :: Str.split sep r.
Proof.
  induction a as [|c a IH].
  - intros _. rewrite app_empty_l. simpl. by rewrite Ascii.eqb_refl.
  - rewrite app_cons. simpl. intros [Hc Ha]%orb_false_iff. by rewrite Hc, (IH Ha).
Qed.

Lemma split_nonempty sep s : Str.split sep s ≠ [].
Proof. destruct s as [|c s]; [done|]. simpl. destruct (Ascii.eqb c sep); [done|]. by destruct (Str.split sep s). Qed.

(** Digits *)

Lemma digit_cases d : 0 ≤ d ≤ 9 →
  d = 0 ∨ d = 1 ∨ d = 2 ∨ d = 3 ∨ d = 4 ∨ d = 5 ∨ d = 6 ∨ d = 7 ∨ d = 8 ∨ d = 9.
Proof. lia. Qed.

Lemma digit_char_spec d :
  0 ≤ d ≤ 9 →
  Str.isdigit (Str.digit_char d) = true ∧ Str.digit_value (Str.digit_char d) = d.
Proof.
  intros H. destruct (digit_cases d H) as [->|[->|[->|[->|[->|[->|[->|[->|[->| ->]]]]]]]]];
    by vm_compute.
Qed.

Lemma isdigit_spec c :
  Str.isdigit c = true →
  0 ≤ Str.digit_value c ≤ 9 ∧ Str.digit_char (Str.digit_value c) = c.
Proof.
  destruct c as [[] [] [] [] [] [] [] []]; intros H; vm_compute in H;
    try discriminate H; (split; [split|]); by vm_compute.
Qed.

Lemma digits_fuel_all fuel n acc :
  Str.all Str.isdigit acc = true → Str.all Str.isdigit (Str.digits_fuel fuel n acc) = true.
Proof.
  revert n acc. induction fuel as [|f IH]; intros n acc Hacc; [done|]. simpl.
  assert (Str.all Str.isdigit (String (Str.digit_char (n mod 10)) acc) = true) as H.
  { simpl. rewrite Hacc, andb_true_r. apply digit_char_spec. divmod. }
  destruct (n <? 10); [done|]. by apply IH.
Qed.

Lemma digits_all n : Str.all Str.isdigit (Str.digits n) = true.
Proof. by apply digits_fuel_all. Qed.

Lemma digits_fuel_nonempty fuel n acc : Str.digits_fuel (S fuel) n acc ≠ "".
Proof.
  revert n acc. induction fuel as [|f IH]; intros n acc.
  - simpl. by destruct (n <? 10).
  - change (Str.digits_fuel (S (S f)) n acc) with
      (if n <? 10 then String (Str.digit_char (n mod 10)) acc
       else Str.digits_fuel (S f) (n / 10) (String (Str.digit_char (n mod 10)) acc)).
    destruct (n <? 10); [done|]. apply IH.
Qed.

(** Reading the digits of [n] back gives [n]. *)
Lemma int_digits_fuel fuel n acc seen :
  0 ≤ n < 2 ^ Z.of_nat (S fuel) →
  Str.int_digits seen 0 (Str.digits_fuel (S fuel) n acc) = Str.int_digits true n acc.
Proof.
  revert n acc seen. induction fuel as [|f IH]; intros n acc seen Hn.
  - simpl in Hn. assert ((n <? 10) = true) as Hlt by (apply Z.ltb_lt; lia).
    simpl. rewrite Hlt. simpl.
    destruct (digit_char_spec (n mod 10)) as [-> ->]; [divmod|].
    f_equal. divmod.
  - change (Str.digits_fuel (S (S f)) n acc) with
      (if n <? 10 then String (Str.digit_char (n mod 10)) acc
       else Str.digits_fuel (S f) (n / 10) (String (Str.digit_char (n mod 10)) acc)).
    destruct (Z.ltb_spec n 10) as [Hlt|Hge].
    + simpl. destruct (digit_char_spec (n mod 10)) as [-> ->]; [divmod|].
      f_equal. divmod.
    + rewrite IH.
      * simpl. destruct (digit_char_spec (n mod 10)) as [-> ->]; [divmod|].
        f_equal. divmod.
      * rewrite Nat2Z.inj_succ, Z.pow_succ_r in Hn by lia. divmod.
Qed.

Lemma log2_fuel n : 0 ≤ n → n < 2 ^ Z.of_nat (S (Z.to_nat (Z.log2 n))).
Proof.
  intros Hn. rewrite Nat2Z.inj_succ, Z2Nat.id by apply Z.log2_nonneg.
  destruct (Z.eq_dec n 0) as [->|Hne]; [done|].
  apply Z.log2_spec. lia.
Qed.

Lemma int_digits_digits n seen :
  0 ≤ n → Str.int_digits seen 0 (Str.digits n) = Some n.
Proof.
  intros Hn. unfold Str.digits. rewrite int_digits_fuel by (split; [done|by apply log2_fuel]).
  done.
Qed.

Lemma isdigit_not_space c : Str.isdigit c = true → Str.int_space c = false.
Proof.
  destruct c as [[] [] [] [] [] [] [] []]; intros H; vm_compute in H;
    try discriminate H; by vm_compute.
Qed.

Lemma isdigit_not_sign c : Str.isdigit c = true → c ≠ "+"%char ∧ c ≠ "-"%char ∧ c ≠ "|"%char.
Proof.
  intros H. split_and!; intros ->; by vm_compute in H.
Qed.

Lemma digits_head n :
  ∃ c r, Str.digits n = String c r ∧ Str.isdigit c = true.
Proof.
  pose proof (digits_all n) as Hall.
  destruct (Str.digits n) as [|c r] eqn:E.
  - by apply digits_fuel_nonempty in E.
  - simpl in Hall. apply andb_true_iff in Hall as [Hc _]. eauto.
Qed.

Lemma int_digits_string n :
  0 ≤ n → Str.int (Str.digits n) = inr n.
Proof.
  intros Hn. unfold Str.int.
  assert (Str.all (λ c, negb (Str.int_space c)) (Str.digits n) = true) as Hsp.
  { eapply all_impl; [|apply digits_all]. intros c Hc. by rewrite isdigit_not_space. }
  rewrite lstrip_id, rstrip_id by done.
  destruct (digits_head n) as (c & r & E & Hc). 
  destruct (isdigit_not_sign c Hc) as (Hp & Hm & _).
  assert (match Str.digits n with
          | String "+" r => (1, r)
          | String "-" r => (-1, r)
          | _ => (1, Str.digits n)
          end = (1, Str.digits n)) as ->.
  { rewrite E. destruct c as [[] [] [] [] [] [] [] []]; done. }
  rewrite int_digits_digits by done. unfold ret. f_equal. lia.
Qed.

Lemma int_of_int n : Str.int (Str.of_int n) = inr n.
Proof.
  unfold Str.of_int. destruct (Z.ltb_spec n 0) as [Hneg|Hpos]; [|by apply int_digits_string].
  unfold Str.int.
  assert (Str.all (λ c, negb (Str.int_space c)) (String "-" (Str.digits (- n))) = true) as Hsp.
  { simpl. eapply all_impl; [|apply digits_all]. intros c Hc. by rewrite isdigit_not_space. }
  rewrite lstrip_id, rstrip_id by done.
  rewrite int_digits_digits by lia. unfold ret. f_equal. lia.
Qed.

Lemma of_int_no_bar n : Str.contains "|" (Str.of_int n) = false.
Proof.
  apply (all_not_contains (λ c, Str.isdigit c || Ascii.eqb c "-")); [|done].
  unfold Str.of_int. destruct (n <? 0); simpl.
  - eapply all_impl; [|apply digits_all]. by intros c ->.
  - eapply all_impl; [|apply digits_all]. by intros c ->.
Qed.

End string_facts.

(** ** Decimal numerals of a fixed width *)

Section padding_facts.
Lemma digits_fuel_S f n acc :
  Str.digits_fuel (S f) n acc =
  if n <? 10 then String (Str.digit_char (n mod 10)) acc
  else Str.digits_fuel f (n / 10) (String (Str.digit_char (n mod 10)) acc).
Proof. reflexivity. Qed.

Lemma digits_fuel_indep f1 f2 n acc :
  0 ≤ n < 2 ^ Z.of_nat (S f1) → n < 2 ^ Z.of_nat (S f2) →
  Str.digits_fuel (S f1) n acc = Str.digits_fuel (S f2) n acc.
Proof.
  revert f2 n acc. induction f1 as [|f1 IH]; intros f2 n acc H1 H2.
  - rewrite !digits_fuel_S. simpl in H1.
    by assert ((n <? 10) = true) as -> by (apply Z.ltb_lt; lia).
  - rewrite !digits_fuel_S. destruct (Z.ltb_spec n 10) as [|Hge]; [done|].
    destruct f2 as [|f2]; [simpl in H2; lia|].
    rewrite Nat2Z.inj_succ, Z.pow_succ_r in H1, H2 by lia.
    apply IH; divmod.
Qed.

Lemma digits_fuel_acc f n acc :
  Str.digits_fuel f n acc = Str.digits_fuel f n "" +:+ acc.
Proof.
  revert n acc. induction f as [|f IH]; intros n acc; [done|].
  rewrite !digits_fuel_S. destruct (n <? 10); [done|].
  rewrite (IH _ (String _ acc)), (IH _ (String _ "")), app_assoc_str. done.
Qed.

Lemma digits_small n : 0 ≤ n < 10 → Str.digits n = String (Str.digit_char n) "".
Proof.
  intros Hn. unfold Str.digits. rewrite digits_fuel_S.
  assert ((n <? 10) = true) as -> by (apply Z.ltb_lt; lia).
  by rewrite Z.mod_small by lia.
Qed.

Lemma digits_step n :
  10 ≤ n → Str.digits n = Str.digits (n / 10) +:+ String (Str.digit_char (n mod 10)) "".
Proof.
  intros Hn. unfold Str.digits at 1. rewrite digits_fuel_S.
  assert ((n <? 10) = false) as -> by (apply Z.ltb_ge; lia).
  pose proof (log2_fuel n) as Hfuel.
  destruct (Z.to_nat (Z.log2 n)) as [|k] eqn:Hk.
  { simpl in Hfuel. lia. }
  rewrite digits_fuel_acc. f_equal. unfold Str.digits.
  rewrite Nat2Z.inj_succ, Z.pow_succ_r in Hfuel by lia.
  apply digits_fuel_indep; [divmod|]. apply log2_fuel. divmod.
Qed.

Lemma digit_char_0 : Str.digit_char 0 = "0"%char.
Proof. reflexivity. Qed.

Lemma digits_2 n : 10 ≤ n < 100 →
  Str.digits n = String (Str.digit_char (n / 10)) (String (Str.digit_char (n mod 10)) "").
Proof. intros Hn. rewrite digits_step, digits_small by divmod. done. Qed.

Lemma digits_3 n : 100 ≤ n < 1000 →
  Str.digits n = String (Str.digit_char (n / 100)) (String (Str.digit_char (n / 10 mod 10))
                   (String (Str.digit_char (n mod 10)) "")).
Proof.
  intros Hn. rewrite digits_step, digits_2 by divmod.
  rewrite Z.div_div by lia. done.
Qed.

Lemma digits_4 n : 1000 ≤ n < 10000 →
  Str.digits n = String (Str.digit_char (n / 1000)) (String (Str.digit_char (n / 100 mod 10))
                   (String (Str.digit_char (n / 10 mod 10)) (String (Str.digit_char (n mod 10)) ""))).
Proof.
  intros Hn. rewrite digits_step, digits_3 by divmod.
  rewrite !Z.div_div by lia. done.
Qed.

(** [%04d] of a number below 10000 is its four digits. *)
Lemma zero_padded_4 y : 0 ≤ y < 10000 →
  Str.zero_padded 4 y =
    String (Str.digit_char (y / 1000)) (String (Str.digit_char (y / 100 mod 10))
      (String (Str.digit_char (y / 10 mod 10)) (String (Str.digit_char (y mod 10)) ""))).
Proof.
  intros Hy. unfold Str.zero_padded, Str.rjust.
  assert ((y <? 0) = false) as -> by (apply Z.ltb_ge; lia).
  destruct (Z.lt_ge_cases y 10); [|destruct (Z.lt_ge_cases y 100); [|destruct (Z.lt_ge_cases y 1000)]].
  - rewrite digits_small by lia.
    replace (y / 1000) with 0 by divmod. replace (y / 100 mod 10) with 0 by divmod.
    replace (y / 10 mod 10) with 0 by divmod. replace (y mod 10) with y by divmod. done.
  - rewrite digits_2 by lia.
    replace (y / 1000) with 0 by divmod. replace (y / 100 mod 10) with 0 by divmod.
    replace (y / 10 mod 10) with (y / 10) by divmod. done.
  - rewrite digits_3 by lia.
    replace (y / 1000) with 0 by divmod. replace (y / 100 mod 10) with (y / 100) by divmod.
    done.
  - rewrite digits_4 by lia. done.
Qed.

Lemma int_text4 y1 y2 y3 y4 :
  Str.isdigit y1 = true → Str.isdigit y2 = true →
  Str.isdigit y3 = true → Str.isdigit y4 = true →
  Str.int (text4 y1 y2 y3 y4) = inr (value4 y1 y2 y3 y4).
Proof.
  intros H1 H2 H3 H4. unfold Str.int, text4.
  assert (Str.all (λ c, negb (Str.int_space c)) (text4 y1 y2 y3 y4) = true) as Hsp.
  { simpl. by rewrite !isdigit_not_space. }
  unfold text4 in Hsp. rewrite lstrip_id, rstrip_id by done.
  destruct (isdigit_not_sign y1 H1) as (Hp & Hm & _).
  assert (match String y1 (String y2 (String y3 (String y4 ""))) with
          | String "+" r => (1, r)
          | String "-" r => (-1, r)
          | _ => (1, String y1 (String y2 (String y3 (String y4 ""))))
          end = (1, String y1 (String y2 (String y3 (String y4 ""))))) as ->.
  { destruct y1 as [[] [] [] [] [] [] [] []]; done. }
  simpl. rewrite H1, H2, H3, H4. unfold ret, value4. f_equal. lia.
Qed.

Lemma zero_padded_text4 y1 y2 y3 y4 :
  Str.isdigit y1 = true → Str.isdigit y2 = true →
  Str.isdigit y3 = true → Str.isdigit y4 = true →
  Str.zero_padded 4 (value4 y1 y2 y3 y4) = text4 y1 y2 y3 y4.
Proof.
  intros H1 H2 H3 H4.
  destruct (isdigit_spec y1 H1) as [B1 E1]. destruct (isdigit_spec y2 H2) as [B2 E2].
  destruct (isdigit_spec y3 H3) as [B3 E3]. destruct (isdigit_spec y4 H4) as [B4 E4].
  unfold value4. rewrite zero_padded_4 by lia. unfold text4.
  set (v := 1000 * Str.digit_value y1 + 100 * Str.digit_value y2
            + 10 * Str.digit_value y3 + Str.digit_value y4).
  replace (v / 1000) with (Str.digit_value y1) by (subst v; divmod).
  replace (v / 100 mod 10) with (Str.digit_value y2) by (subst v; divmod).
  replace (v / 10 mod 10) with (Str.digit_value y3) by (subst v; divmod).
  replace (v mod 10) with (Str.digit_value y4) by (subst v; divmod).
  by rewrite E1, E2, E3, E4.
Qed.

Lemma text4_of_year y : 0 ≤ y < 10000 →
  ∃ y1 y2 y3 y4,
    Str.zero_padded 4 y = text4 y1 y2 y3 y4 ∧ value4 y1 y2 y3 y4 = y ∧
    Str.isdigit y1 = true ∧ Str.isdigit y2 = true ∧
    Str.isdigit y3 = true ∧ Str.isdigit y4 = true.
Proof.
  intros Hy. rewrite zero_padded_4 by done.
  destruct (digit_char_spec (y / 1000)) as [D1 V1]; [divmod|].
  destruct (digit_char_spec (y / 100 mod 10)) as [D2 V2]; [divmod|].
  destruct (digit_char_spec (y / 10 mod 10)) as [D3 V3]; [divmod|].
  destruct (digit_char_spec (y mod 10)) as [D4 V4]; [divmod|].
  eexists _, _, _, _. split; [reflexivity|]. split; [|done].
  unfold value4. rewrite V1, V2, V3, V4. divmod.
Qed.

End padding_facts.

(** ** The calendar *)

Section calendar_facts.
Import Datetime Spec.

Lemma is_leap_spec y :
  is_leap y = true ↔ y mod 4 = 0 ∧ (y mod 100 ≠ 0 ∨ y mod 400 = 0).
Proof.
  unfold is_leap. rewrite andb_true_iff, orb_true_iff, negb_true_iff.
  rewrite !Z.eqb_eq, Z.eqb_neq. tauto.
Qed.

Lemma days_before_year_succ y :
  days_before_year (y + 1) = days_before_year y + 365 + (if is_leap y then 1 else 0).
Proof.
  destruct (is_leap y) eqn:E.
  - apply is_leap_spec in E. unfold days_before_year. divmod.
  - assert (¬ (y mod 4 = 0 ∧ (y mod 100 ≠ 0 ∨ y mod 400 = 0))) as H.
    { rewrite <- is_leap_spec. congruence. }
    unfold days_before_year. divmod.
Qed.

Lemma days_before_year_mono y y' : y ≤ y' → days_before_year y ≤ days_before_year y'.
Proof. unfold days_before_year. intros. divmod. Qed.

Lemma month_cases m : 1 ≤ m ≤ 12 →
  m = 1 ∨ m = 2 ∨ m = 3 ∨ m = 4 ∨ m = 5 ∨ m = 6 ∨ m = 7 ∨ m = 8 ∨ m = 9 ∨ m = 10 ∨ m = 11 ∨ m = 12.
Proof. lia. Qed.

Lemma valid_date_spec y m d :
  valid_date y m d = true ↔ 1 ≤ y ≤ 9999 ∧ 1 ≤ m ≤ 12 ∧ 1 ≤ d ≤ days_in_month y m.
Proof.
  unfold valid_date, MINYEAR, MAXYEAR. rewrite !andb_true_iff, !Z.leb_le. tauto.
Qed.

(* day of year bounds *)
Lemma day_of_year_bounds y m d : 1 ≤ m ≤ 12 → 1 ≤ d ≤ days_in_month y m →
  1 ≤ days_before_month y m + d ≤ 365 + (if is_leap y then 1 else 0).
Proof.
  intros Hm. unfold days_in_month, days_before_month.
  destruct (is_leap y);
  destruct (month_cases m Hm) as [->|[->|[->|[->|[->|[->|[->|[->|[->|[->|[->| ->]]]]]]]]]]];
  calc_tables; lia.
Qed.

Lemma days_before_month_mono y m m' : 1 ≤ m → m < m' → m' ≤ 12 →
  days_before_month y m + days_in_month y m ≤ days_before_month y m'.
Proof.
  intros H1 H2 H3. unfold days_in_month, days_before_month.
  assert (1 ≤ m ≤ 12) as Hm by lia. assert (1 ≤ m' ≤ 12) as Hm' by lia.
  destruct (is_leap y);
  destruct (month_cases m Hm) as [->|[->|[->|[->|[->|[->|[->|[->|[->|[->|[->| ->]]]]]]]]]]];
  destruct (month_cases m' Hm') as [->|[->|[->|[->|[->|[->|[->|[->|[->|[->|[->| ->]]]]]]]]]]];
  calc_tables; lia.
Qed.

Lemma ymd2ord_lt y m d y' m' d' :
  1 ≤ m ≤ 12 → 1 ≤ d ≤ days_in_month y m →
  1 ≤ m' ≤ 12 → 1 ≤ d' ≤ days_in_month y' m' →
  cmp_tuple [y; m; d] [y'; m'; d'] = Lt → ymd2ord y m d < ymd2ord y' m' d'.
Proof.
  intros Hm Hd Hm' Hd' Hc. unfold ymd2ord. simpl in Hc.
  pose proof (day_of_year_bounds y m d Hm Hd).
  pose proof (day_of_year_bounds y' m' d' Hm' Hd').
  destruct (Z.compare_spec y y') as [->|Hy|Hy]; [|clear Hc|done].
  - destruct (Z.compare_spec m m') as [->|Hmm|Hmm]; [|clear Hc|done].
    + destruct (Z.compare_spec d d'); try done. lia.
    + pose proof (days_before_month_mono y' m m'). lia.
  - pose proof (days_before_year_succ y).
    pose proof (days_before_year_mono (y + 1) y'). lia.
Qed.

Lemma doy_ok_all leap n : 0 ≤ n < 365 → doy_ok leap n = true.
Proof.
  intros Hn.
  assert (forallb (doy_ok leap) (seqZ 0 365) = true) as H.
  { destruct leap; vm_compute; reflexivity. }
  rewrite forallb_forall in H. apply H, list_elem_of_In, elem_of_seqZ. lia.
Qed.

Lemma doy2md_spec y n :
  0 ≤ n < 365 →
  let '(m, d) := doy2md (is_leap y) n in
  1 ≤ m ≤ 12 ∧ 1 ≤ d ≤ days_in_month y m ∧ days_before_month y m + d = n + 1.
Proof.
  intros Hn. pose proof (doy_ok_all (is_leap y) n Hn) as H.
  unfold doy_ok in H. destruct (doy2md (is_leap y) n) as [m d].
  unfold days_in_month, days_before_month.
  rewrite !andb_true_iff, !Z.leb_le, Z.eqb_eq in H. lia.
Qed.

Lemma ord2ymd_spec n :
  1 ≤ n ≤ MAXORDINAL →
  let '(y, m, d) := ord2ymd n in
  valid_date y m d = true ∧ ymd2ord y m d = n.
Proof.
  intros Hn. unfold MAXORDINAL in Hn. unfold ord2ymd, DI400Y, DI100Y, DI4Y.
  set (n0 := n - 1).
  set (a := n0 / 146097). set (r1 := n0 mod 146097).
  set (b := r1 / 36524). set (r2 := r1 mod 36524).
  set (c := r2 / 1461). set (r3 := r2 mod 1461).
  set (e := r3 / 365). set (r4 := r3 mod 365).
  assert (n0 = 146097 * a + r1 ∧ 0 ≤ r1 < 146097) as [Ha Hr1] by (subst a r1; divmod).
  assert (r1 = 36524 * b + r2 ∧ 0 ≤ r2 < 36524) as [Hb Hr2] by (subst b r2; divmod).
  assert (r2 = 1461 * c + r3 ∧ 0 ≤ r3 < 1461) as [Hc Hr3] by (subst c r3; divmod).
  assert (r3 = 365 * e + r4 ∧ 0 ≤ r4 < 365) as [He Hr4] by (subst e r4; divmod).
  assert (n0 = n - 1) as Hn0 by done.
  clearbody n0 a r1 b r2 c r3 e r4.
  assert (0 ≤ a ≤ 24 ∧ 0 ≤ b ≤ 4 ∧ 0 ≤ c ≤ 24 ∧ 0 ≤ e ≤ 4) as (Ba & Bb & Bc & Be) by lia.
  destruct ((e =? 4) || (b =? 4)) eqn:E.
  - assert (is_leap (a * 400 + 1 + b * 100 + c * 4 + e - 1) = true) as Hl.
    { apply is_leap_spec. apply orb_true_iff in E as [E|E]; apply Z.eqb_eq in E; divmod. }
    rewrite valid_date_spec. unfold ymd2ord, days_in_month, days_before_month.
    rewrite Hl. calc_tables. unfold days_before_year.
    apply orb_true_iff in E as [E|E]; apply Z.eqb_eq in E; divmod.
  - apply orb_false_iff in E as [E1 E2]. apply Z.eqb_neq in E1, E2.
    set (y := a * 400 + 1 + b * 100 + c * 4 + e).
    assert ((e =? 3) && (negb (c =? 24) || (b =? 3)) = is_leap y) as ->.
    { apply eq_true_iff_eq. rewrite is_leap_spec.
      rewrite andb_true_iff, orb_true_iff, negb_true_iff, !Z.eqb_eq, Z.eqb_neq.
      subst y. divmod. }
    pose proof (doy2md_spec y r4 Hr4) as H.
    destruct (doy2md (is_leap y) r4) as [m d].
    destruct H as (Hm & Hd & Hs).
    rewrite valid_date_spec. unfold ymd2ord.
    assert (days_before_year y = 146097 * a + 36524 * b + 1461 * c + 365 * e) as Hy.
    { unfold days_before_year. subst y. divmod. }
    subst y. lia.
Qed.

Import Spec.

Lemma valid_spec dt :
  valid dt = true ↔
  valid_date (year dt) (month dt) (day dt) = true ∧
  0 ≤ hour dt < 24 ∧ 0 ≤ minute dt < 60 ∧ 0 ≤ second dt < 60 ∧ 0 ≤ microsecond dt < 1000000.
Proof.
  unfold valid, valid_time.
  rewrite !andb_true_iff, !Z.leb_le, !Z.ltb_lt. tauto.
Qed.

Lemma cmp_tuple_date y m d y' m' d' :
  1 ≤ m ≤ 12 → 1 ≤ d ≤ days_in_month y m →
  1 ≤ m' ≤ 12 → 1 ≤ d' ≤ days_in_month y' m' →
  cmp_tuple [y; m; d] [y'; m'; d'] = (ymd2ord y m d ?= ymd2ord y' m' d').
Proof.
  intros Hm Hd Hm' Hd'.
  destruct (cmp_tuple [y; m; d] [y'; m'; d']) eqn:E; symmetry.
  - simpl in E. apply Z.compare_eq_iff.
    destruct (Z.compare_spec y y'); try done.
    destruct (Z.compare_spec m m'); try done.
    destruct (Z.compare_spec d d'); try done. congruence.
  - apply Z.compare_lt_iff. by apply ymd2ord_lt.
  - apply Z.compare_gt_iff. apply ymd2ord_lt; try done.
    simpl in E |- *.
    rewrite (Z.compare_antisym y y'), (Z.compare_antisym m m'), (Z.compare_antisym d d').
    destruct (y ?= y'); try done; simpl.
    destruct (m ?= m'); try done; simpl.
    destruct (d ?= d'); try done.
Qed.

Lemma cmp_tuple_split x1 x2 x3 ta y1 y2 y3 tb :
  cmp_tuple (x1 :: x2 :: x3 :: ta) (y1 :: y2 :: y3 :: tb) =
  match cmp_tuple [x1; x2; x3] [y1; y2; y3] with
  | Eq => cmp_tuple ta tb
  | c => c
  end.
Proof.
  simpl. destruct (x1 ?= y1); try done. destruct (x2 ?= y2); try done.
  destruct (x3 ?= y3); done.
Qed.

Lemma cmp_timestamp a b :
  valid a = true → valid b = true → cmp a b = (timestamp a ?= timestamp b).
Proof.
  intros (Hda & Ha)%valid_spec (Hdb & Hb)%valid_spec.
  apply valid_date_spec in Hda as (_ & Hma & Hdda).
  apply valid_date_spec in Hdb as (_ & Hmb & Hddb).
  unfold cmp, fields. rewrite cmp_tuple_split, cmp_tuple_date by done.
  unfold timestamp, toordinal.
  set (oa := ymd2ord _ _ _). set (ob := ymd2ord _ _ _).
  destruct (Z.compare_spec oa ob) as [->|Ho|Ho]; symmetry.
  - simpl.
    destruct (Z.compare_spec (hour a) (hour b)) as [->|?|?];
      [|apply Z.compare_lt_iff; lia|apply Z.compare_gt_iff; lia].
    destruct (Z.compare_spec (minute a) (minute b)) as [->|?|?];
      [|apply Z.compare_lt_iff; lia|apply Z.compare_gt_iff; lia].
    destruct (Z.compare_spec (second a) (second b)) as [->|?|?];
      [|apply Z.compare_lt_iff; lia|apply Z.compare_gt_iff; lia].
    destruct (Z.compare_spec (microsecond a) (microsecond b)) as [->|?|?];
      [apply Z.compare_eq_iff|apply Z.compare_lt_iff|apply Z.compare_gt_iff]; lia.
  - apply Z.compare_lt_iff. lia.
  - apply Z.compare_gt_iff. lia.
Qed.

Lemma gt_timestamp a b :
  valid a = true → valid b = true → gt a b = (timestamp b <? timestamp a).
Proof.
  intros Ha Hb. unfold gt. rewrite cmp_timestamp by done.
  destruct (Z.compare_spec (timestamp a) (timestamp b)); symmetry;
    [apply Z.ltb_ge|apply Z.ltb_ge|apply Z.ltb_lt]; lia.
Qed.

Lemma lt_timestamp a b :
  valid a = true → valid b = true → lt a b = (timestamp a <? timestamp b).
Proof.
  intros Ha Hb. unfold lt. rewrite cmp_timestamp by done.
  destruct (Z.compare_spec (timestamp a) (timestamp b)); symmetry;
    [apply Z.ltb_ge|apply Z.ltb_lt|apply Z.ltb_ge]; lia.
Qed.

Lemma ymd2ord_bounds y m d :
  valid_date y m d = true → 1 ≤ ymd2ord y m d ≤ MAXORDINAL.
Proof.
  intros (Hy & Hm & Hd)%valid_date_spec.
  pose proof (day_of_year_bounds y m d Hm Hd).
  pose proof (days_before_year_succ y).
  pose proof (days_before_year_mono 1 y).
  pose proof (days_before_year_mono (y + 1) 10000).
  assert (days_before_year 1 = 0) as Hy1 by reflexivity.
  assert (days_before_year 10000 = 3652059) as Hy2 by reflexivity.
  unfold ymd2ord, MAXORDINAL. lia.
Qed.

Lemma add_one_day now :
  valid now = true → toordinal now < MAXORDINAL →
  ∃ limit, add now one_day = inr limit ∧ valid limit = true
           ∧ timestamp limit = timestamp now + hours_24.
Proof.
  intros Hv Hmax. pose proof Hv as (Hd & Hh & Hmi & Hs & Hus)%valid_spec.
  pose proof (ymd2ord_bounds _ _ _ Hd) as Ho. fold (toordinal now) in Ho.
  unfold add. change one_day with (mk_delta 1 0 0).
  unfold timedelta_add, timedelta_new. cbn [days seconds microseconds].
  set (o := toordinal now) in *.
  assert (microsecond now / 1000000 = 0) as -> by divmod.
  set (sec := hour now * 3600 + minute now * 60 + second now + 0).
  assert (0 ≤ sec < 86400) as Hsec by (subst sec; lia).
  assert (sec / 86400 = 0) as -> by divmod.
  assert (sec mod 86400 = sec) as -> by divmod.
  assert (microsecond now mod 1000000 = microsecond now) as -> by divmod.
  assert ((microsecond now + 0) / 1000000 = 0) as -> by divmod.
  assert ((microsecond now + 0) mod 1000000 = microsecond now) as -> by divmod.
  replace (0 * 3600 + 0 * 60 + (sec + 0) + 0) with sec by lia.
  assert (sec / 86400 = 0) as -> by divmod.
  assert (sec mod 86400 = sec) as -> by divmod.
  replace (o + 0 + 1 + 0) with (o + 1) by lia.
  assert ((0 <? o + 1) && (o + 1 <=? MAXORDINAL) = true) as ->.
  { apply andb_true_iff. split; [apply Z.ltb_lt|apply Z.leb_le]; lia. }
  pose proof (ord2ymd_spec (o + 1)) as Hinv.
  destruct (ord2ymd (o + 1)) as [[y m] d].
  destruct Hinv as [Hvd Hord]; [lia|].
  eexists. split; [reflexivity|]. split.
  - apply valid_spec. cbn [year month day hour minute second microsecond].
    split; [done|]. subst sec. divmod.
  - unfold timestamp, toordinal, hours_24.
    cbn [year month day hour minute second microsecond].
    rewrite Hord. fold (toordinal now). fold o. subst sec. divmod.
Qed.

End calendar_facts.

(** ** The condition of the scan *)

Section scan_facts.
Import Datetime Spec TaskManager.

Lemma wf_spec t :
  Task.wf t = true ↔
  valid (Task.deadline t) = true ∧ hour (Task.deadline t) = 0 ∧ minute (Task.deadline t) = 0
  ∧ second (Task.deadline t) = 0 ∧ microsecond (Task.deadline t) = 0.
Proof.
  unfold Task.wf, is_midnight. rewrite !andb_true_iff, !Z.eqb_eq. tauto.
Qed.

Lemma due_within_24h now task :
  valid now = true → Task.wf task = true →
  due now task = inr (within_24h now task).
Proof.
  intros Hnow (Hdl & Hh & Hmi & Hs & Hus)%wf_spec.
  unfold due, within_24h. destruct (Task.completed task); [done|]. simpl.
  rewrite gt_timestamp by done.
  destruct (Z.ltb_spec (timestamp now) (timestamp (Task.deadline task))) as [Hlt|Hge];
    [|done].
  destruct (add_one_day now Hnow) as (limit & -> & Hvl & Hts).
  - pose proof Hnow as (_ & Hn)%valid_spec.
    pose proof Hdl as (Hd & _)%valid_spec.
    apply ymd2ord_bounds in Hd. fold (toordinal (Task.deadline task)) in Hd.
    unfold timestamp in Hlt. rewrite Hh, Hmi, Hs, Hus in Hlt. lia.
  - simpl. by rewrite lt_timestamp, Hts.
Qed.

Lemma scan_loop_spec now pending self env :
  valid now = true →
  (∀ l, l ∈ pending → Task.wf (obj env l) = true) →
  scan_loop now pending self env =
    (set_reminders
       (upcoming_reminders self ++
          (reminder <$> filter (λ task, within_24h now task = true) (obj env <$> pending)))
       self, None).
Proof.
  intros Hnow. revert self. induction pending as [|l pending IH]; intros self Hwf.
  - simpl. rewrite app_nil_r. by destruct self.
  - simpl. rewrite due_within_24h by (done || apply Hwf; left).
    rewrite filter_cons. destruct (within_24h now (obj env l)) eqn:E.
    + rewrite decide_True by done. rewrite IH by (intros; apply Hwf; by right).
      simpl. by rewrite <- app_assoc.
    + rewrite decide_False by done. apply IH. intros; apply Hwf; by right.
Qed.

End scan_facts.

(** ** What strptime accepts *)

Section strptime_facts.
Import Re Strptime Spec.

Lemma in_class_digit c : in_class c (chars "0123456789") = Str.isdigit c.
Proof. destruct c as [[] [] [] [] [] [] [] []]; by vm_compute. Qed.

Lemma in_class_elem c cs : in_class c cs = true → c ∈ cs.
Proof.
  unfold in_class. rewrite existsb_exists. intros (x & Hx & Heq).
  apply Ascii.eqb_eq in Heq as ->. by apply list_elem_of_In.
Qed.

Lemma matches_at_sound r s f :
  f ∈ matches_at r s → s = text f +:+ rest f ∧ derives r (text f) (groups f).
Proof.
  revert s f. induction r as [c|cs|r1 IH1 r2 IH2|r1 IH1 r2 IH2|name r IH]; intros s f; simpl.
  - destruct s as [|c' s]; [by intros ?%elem_of_nil|].
    destruct (Ascii.eqb_spec c' c) as [->|]; [|by intros ?%elem_of_nil].
    intros ->%list_elem_of_singleton. simpl. split; [done|constructor].
  - destruct s as [|c' s]; [by intros ?%elem_of_nil|].
    destruct (in_class c' cs) eqn:E; [|by intros ?%elem_of_nil].
    intros ->%list_elem_of_singleton. simpl. split; [done|].
    constructor. by apply in_class_elem.
  - intros (f1 & (f2 & ->%list_elem_of_singleton & H2)%list_elem_of_bind & H1)%list_elem_of_bind.
    apply IH1 in H1 as [E1 D1]. apply IH2 in H2 as [E2 D2]. simpl. split.
    + by rewrite app_assoc_str, <- E2.
    + by constructor.
  - intros [H|H]%elem_of_app.
    + apply IH1 in H as [E D]. split; [done|by apply derives_alt_l].
    + apply IH2 in H as [E D]. split; [done|by apply derives_alt_r].
  - intros (f' & -> & H)%list_elem_of_fmap. apply IH in H as [E D]. simpl.
    split; [done|by constructor].
Qed.

Lemma bind_singleton_fmap {A B} (h : A → B) (l : list A) :
  (x ← l; [h x]) = h <$> l.
Proof. induction l as [|a l IH]; [done|]. csimpl. by rewrite IH. Qed.

Lemma matches_at_seq r1 r2 s :
  matches_at (Seq r1 r2) s =
    (f1 ← matches_at r1 s; f2 ← matches_at r2 (rest f1);
     [mk_found (groups f1 ++ groups f2) (text f1 +:+ text f2) (rest f2)]).
Proof. reflexivity. Qed.

Lemma matches_at_group name r s :
  matches_at (Group name r) s =
    (λ f, mk_found ((name, text f) :: groups f) (text f) (rest f)) <$> matches_at r s.
Proof. reflexivity. Qed.

Lemma matches_at_digit c r :
  Str.isdigit c = true → matches_at digit (String c r) = [mk_found [] (String c "") r].
Proof.
  intros H. unfold digit.
  change (matches_at (Class ?cs) (String c r)) with
    (if in_class c cs then [mk_found [] (String c "") r] else []).
  by rewrite in_class_digit, H.
Qed.

Lemma matches_at_Y y1 y2 y3 y4 r :
  Str.isdigit y1 = true → Str.isdigit y2 = true →
  Str.isdigit y3 = true → Str.isdigit y4 = true →
  matches_at re_Y (text4 y1 y2 y3 y4 +:+ r) =
    [mk_found [("Y", text4 y1 y2 y3 y4)] (text4 y1 y2 y3 y4) r].
Proof.
  intros H1 H2 H3 H4. unfold re_Y, text4. rewrite !app_cons, app_empty_l.
  rewrite matches_at_group.
  rewrite matches_at_seq, (matches_at_digit y1) by done.
  rewrite bind_singleton. cbn [rest groups text].
  rewrite matches_at_seq, (matches_at_digit y2) by done.
  rewrite bind_singleton. cbn [rest groups text].
  rewrite matches_at_seq, (matches_at_digit y3) by done.
  rewrite bind_singleton. cbn [rest groups text].
  rewrite (matches_at_digit y4) by done.
  rewrite !bind_singleton. cbn [rest groups text]. done.
Qed.

Lemma matches_at_format y1 y2 y3 y4 r :
  Str.isdigit y1 = true → Str.isdigit y2 = true →
  Str.isdigit y3 = true → Str.isdigit y4 = true →
  matches_at format_regex (text4 y1 y2 y3 y4 +:+ r) =
    (λ f2, mk_found (("Y", text4 y1 y2 y3 y4) :: groups f2)
                    (text4 y1 y2 y3 y4 +:+ text f2) (rest f2))
      <$> matches_at tail_regex r.
Proof.
  intros H1 H2 H3 H4. unfold format_regex.
  rewrite matches_at_seq, matches_at_Y, bind_singleton by done.
  cbn [rest groups text]. apply bind_singleton_fmap.
Qed.

Lemma tail_ok_all :
  forallb (λ m, forallb (λ d, forallb (λ M, forallb (tail_ok m d M) (day_forms d))
                                      (month_forms m))
                        (seqZ 1 31))
          (seqZ 1 12) = true.
Proof. vm_compute. reflexivity. Qed.

Lemma tail_accepts m d M D :
  1 ≤ m ≤ 12 → 1 ≤ d ≤ 31 → M ∈ month_forms m → D ∈ day_forms d →
  ∃ f, match_ tail_regex ("-" +:+ M +:+ "-" +:+ D) = Some f ∧ rest f = ""
       ∧ assoc "m" (groups f) = Some M ∧ assoc "d" (groups f) = Some D
       ∧ Str.int M = inr m ∧ Str.int D = inr d.
Proof.
  intros Hm Hd HM HD.
  assert (In m (seqZ 1 12)) as Im by (apply list_elem_of_In, elem_of_seqZ; lia).
  assert (In d (seqZ 1 31)) as Id by (apply list_elem_of_In, elem_of_seqZ; lia).
  apply list_elem_of_In in HM, HD.
  pose proof (proj1 (forallb_forall _ _) tail_ok_all m Im) as H1. cbv beta in H1.
  pose proof (proj1 (forallb_forall _ _) H1 d Id) as H2. cbv beta in H2.
  pose proof (proj1 (forallb_forall _ _) H2 M HM) as H3. cbv beta in H3.
  pose proof (proj1 (forallb_forall _ _) H3 D HD) as H. clear H1 H2 H3.
  unfold tail_ok in H. destruct (match_ tail_regex _) as [f|]; [|done].
  rewrite !andb_true_iff in H. destruct H as (((Hr & H1) & H2) & H3).
  apply String.eqb_eq in Hr. apply bool_decide_eq_true in H1, H2.
  destruct (Str.int M) as [|vm]; [done|]. destruct (Str.int D) as [|vd]; [done|].
  apply andb_true_iff in H3 as [->%Z.eqb_eq ->%Z.eqb_eq].
  by exists f.
Qed.

Lemma derives_m t g :
  derives re_m t g → ∃ m, 1 ≤ m ≤ 12 ∧ t ∈ month_forms m ∧ g = [("m", t)].
Proof.
  intros H. cbv [re_m chars list_ascii_of_string] in H. inv_derives.
  all: match goal with |- ∃ m, _ ∧ ?t ∈ _ ∧ _ => exists (int_or_0 t) end.
  all: split; [by vm_compute|split; [|done]].
  all: compute_done.
Qed.

Lemma derives_d t g :
  derives re_d t g → ∃ d, 1 ≤ d ≤ 31 ∧ t ∈ day_forms d ∧ g = [("d", t)].
Proof.
  intros H. cbv [re_d digit chars list_ascii_of_string] in H. inv_derives.
  all: match goal with |- ∃ m, _ ∧ ?t ∈ _ ∧ _ => exists (int_or_0 t) end.
  all: split; [by vm_compute|split; [|done]].
  all: compute_done.
Qed.

Lemma elem_digit c : c ∈ chars "0123456789" → Str.isdigit c = true.
Proof.
  intros H. rewrite <- in_class_digit. unfold in_class. apply existsb_exists.
  exists c. split; [by apply list_elem_of_In|apply Ascii.eqb_refl].
Qed.

Lemma derives_Y t g :
  derives re_Y t g →
  ∃ y1 y2 y3 y4, t = text4 y1 y2 y3 y4 ∧ g = [("Y", t)] ∧
    Str.isdigit y1 = true ∧ Str.isdigit y2 = true ∧
    Str.isdigit y3 = true ∧ Str.isdigit y4 = true.
Proof.
  intros H. unfold re_Y, digit in H.
  repeat match goal with
  | H : derives (Seq _ _) _ _ |- _ => inversion H; clear H; subst
  | H : derives (Group _ _) _ _ |- _ => inversion H; clear H; subst
  | H : derives (Class _) _ _ |- _ => inversion H; clear H; subst
  end.
  eexists _, _, _, _. split; [reflexivity|]. split; [done|].
  split_and!; by apply elem_digit.
Qed.

Lemma head_fmap {A B} (h : A → B) (l : list A) : head (h <$> l) = h <$> head l.
Proof. by destruct l. Qed.

Lemma days_in_month_le_31 y m : 1 ≤ m ≤ 12 → Datetime.days_in_month y m ≤ 31.
Proof.
  intros Hm. unfold Datetime.days_in_month.
  destruct (Datetime.is_leap y);
  destruct (month_cases m Hm) as [->|[->|[->|[->|[->|[->|[->|[->|[->|[->|[->| ->]]]]]]]]]]];
  by vm_compute.
Qed.

Lemma strptime_accepted y m d s :
  Datetime.valid_date y m d = true → s ∈ accepted_forms y m d →
  strptime s = inr (Datetime.midnight y m d).
Proof.
  intros Hv Hs. pose proof Hv as (Hy & Hm & Hd)%valid_date_spec.
  pose proof (days_in_month_le_31 y m Hm) as H31.
  unfold accepted_forms in Hs.
  apply list_elem_of_bind in Hs as (M & Hs & HM).
  apply list_elem_of_bind in Hs as (D & ->%list_elem_of_singleton & HD).
  destruct (text4_of_year y) as (y1 & y2 & y3 & y4 & -> & Hval & H1 & H2 & H3 & H4); [lia|].
  destruct (tail_accepts m d M D) as (f & Hf & Hrest & Hgm & Hgd & HiM & HiD);
    [lia|lia|done|done|].
  unfold strptime, match_. rewrite matches_at_format, head_fmap by done.
  unfold match_ in Hf. rewrite Hf. cbn [fmap option_fmap option_map rest groups].
  rewrite Hrest. cbn [String.eqb negb].
  unfold int_group. cbn [groups assoc String.eqb Ascii.eqb Bool.eqb].
  rewrite int_text4, Hval by done. cbn [bind].
  rewrite Hgm, HiM. cbn [bind]. rewrite Hgd, HiD. cbn [bind].
  unfold Datetime.check_date_fields. by rewrite Hv.
Qed.

Lemma strptime_inv s dt :
  strptime s = inr dt →
  ∃ y m d, Datetime.valid_date y m d = true ∧ s ∈ accepted_forms y m d
           ∧ dt = Datetime.midnight y m d.
Proof.
  unfold strptime. destruct (match_ format_regex s) as [f|] eqn:Hf; [|done].
  destruct (String.eqb_spec (rest f) "") as [Hrest|]; [|done]. cbn [negb].
  apply head_Some_elem_of, matches_at_sound in Hf as [Hs Hd].
  rewrite Hrest, app_empty_r in Hs. subst s.
  unfold format_regex, tail_regex in Hd.
  repeat match goal with
  | H : derives (Seq _ _) _ _ |- _ => inversion H; clear H; subst
  | H : derives (Chr _) _ _ |- _ => inversion H; clear H; subst
  end.
  match goal with H : derives re_Y _ _ |- _ =>
    apply derives_Y in H as (y1 & y2 & y3 & y4 & -> & -> & Hy1 & Hy2 & Hy3 & Hy4) end.
  match goal with H : derives re_m _ _ |- _ =>
    apply derives_m in H as (m & Hm & HM & ->) end.
  match goal with H : derives re_d _ _ |- _ =>
    apply derives_d in H as (d & Hdd & HD & ->) end.
  destruct (tail_accepts m d _ _ Hm Hdd HM HD) as (_ & _ & _ & _ & _ & HiM & HiD).
  unfold int_group.
  match goal with H : _ = groups f |- _ => rewrite <- H end.
  cbn [app assoc String.eqb Ascii.eqb Bool.eqb].
  rewrite int_text4 by done. cbn [bind]. rewrite HiM. cbn [bind]. rewrite HiD. cbn [bind].
  unfold Datetime.check_date_fields.
  destruct (Datetime.valid_date _ m d) eqn:Hv; [|done]. cbn [bind ret].
  intros [= <-]. eexists _, m, d. split; [exact Hv|]. split; [|done].
  unfold accepted_forms. apply list_elem_of_bind. eexists. split; [|exact HM].
  apply list_elem_of_bind. eexists. split; [|exact HD].
  apply list_elem_of_singleton. by rewrite zero_padded_text4.
Qed.

Lemma int_raises s e : Str.int s = inl e → e = ValueError.
Proof.
  unfold Str.int. destruct (match _ with String _ _ => _ | _ => _ end) as [sign ds].
  destruct (Str.int_digits false 0 ds); [done|]. by intros [= <-].
Qed.

Lemma int_group_raises name dflt f e :
  int_group name dflt f = inl e → e = ValueError.
Proof.
  unfold int_group. destruct (assoc name (groups f)); [apply int_raises|done].
Qed.

Lemma strptime_raises s e : strptime s = inl e → e = ValueError.
Proof.
  unfold strptime. destruct (match_ format_regex s) as [f|]; [|by intros [= <-]].
  destruct (negb _); [by intros [= <-]|].
  intros [H|(y & _ & H)]%bind_inl; [by eapply int_group_raises|].
  apply bind_inl in H as [H|(m & _ & H)]; [by eapply int_group_raises|].
  apply bind_inl in H as [H|(d & _ & H)]; [by eapply int_group_raises|].
  apply bind_inl in H as [H|(u & _ & H)]; [|done].
  unfold Datetime.check_date_fields in H. destruct (Datetime.valid_date y m d); [done|].
  by injection H.
Qed.

End strptime_facts.

(** ** The codec of a task *)

Section codec_facts.
Import Spec.

Lemma replicate_all p n c : p c = true → Str.all p (Str.replicate n c) = true.
Proof. intros Hc. induction n as [|n IH]; [done|]. simpl. by rewrite Hc, IH. Qed.

Lemma zero_padded_all w n : 0 ≤ n → Str.all Str.isdigit (Str.zero_padded w n) = true.
Proof.
  intros Hn. unfold Str.zero_padded, Str.rjust.
  assert ((n <? 0) = false) as -> by (apply Z.ltb_ge; lia).
  rewrite all_app, replicate_all, digits_all by done. done.
Qed.

Lemma isoformat_no_bar dt :
  Datetime.valid_date (Datetime.year dt) (Datetime.month dt) (Datetime.day dt) = true →
  Str.contains "|" (Datetime.isoformat (Datetime.date dt)) = false.
Proof.
  intros (Hy & Hm & Hd)%valid_date_spec.
  apply (all_not_contains (λ c, Str.isdigit c || Ascii.eqb c "-")); [|done].
  unfold Datetime.isoformat, Datetime.date. cbn [Datetime.year Datetime.month Datetime.day Datetime.midnight].
  rewrite !all_app.
  assert (∀ w n, 0 ≤ n → Str.all (λ c, Str.isdigit c || Ascii.eqb c "-") (Str.zero_padded w n) = true) as H.
  { intros w n Hn. eapply all_impl; [|by apply zero_padded_all]. by intros c ->. }
  rewrite !H by lia. done.
Qed.

Lemma isoformat_accepted dt :
  Datetime.isoformat (Datetime.date dt)
    ∈ accepted_forms (Datetime.year dt) (Datetime.month dt) (Datetime.day dt).
Proof.
  unfold accepted_forms, Datetime.isoformat, Datetime.date.
  cbn [Datetime.year Datetime.month Datetime.day Datetime.midnight].
  apply list_elem_of_bind. eexists. split; [|left].
  apply list_elem_of_bind. eexists. split; [|left].
  by apply list_elem_of_singleton.
Qed.

Lemma strptime_isoformat dt :
  Datetime.valid_date (Datetime.year dt) (Datetime.month dt) (Datetime.day dt) = true →
  Strptime.strptime (Datetime.isoformat (Datetime.date dt)) = inr (Datetime.date dt).
Proof. intros Hv. by apply strptime_accepted, isoformat_accepted. Qed.

Lemma lower_of_bool b : String.eqb (Str.lower (Str.of_bool b)) "true" = b.
Proof. by destruct b. Qed.

Lemma split_to_file_string t :
  Datetime.valid_date (Datetime.year (Task.deadline t)) (Datetime.month (Task.deadline t))
                      (Datetime.day (Task.deadline t)) = true →
  Str.contains "|" (Task.title t) = false →
  Str.contains "|" (Task.description t) = false →
  Str.contains "|" (Task.category t) = false →
  Str.contains "|" (Task.assigned_user t) = false →
  Str.split "|" (Task.to_file_string t) =
    [Task.title t; Task.description t; Task.category t; Str.of_int (Task.priority t);
     Datetime.isoformat (Datetime.date (Task.deadline t)); Task.assigned_user t;
     Str.of_bool (Task.completed t)].
Proof.
  intros Hv Ht Hd Hc Hu. unfold Task.to_file_string.
  repeat match goal with
  | |- context [ "|" +:+ ?x ] => change ("|" +:+ x) with (String "|" x)
  end.
  rewrite !split_app by (done || apply of_int_no_bar || by apply isoformat_no_bar).
  rewrite split_no_sep; [done|]. by destruct (Task.completed t).
Qed.

Lemma from_file_string_steps line p0 p1 p2 p3 p4 p5 p6 extra n dl :
  Str.split "|" line = p0 :: p1 :: p2 :: p3 :: p4 :: p5 :: p6 :: extra →
  Str.int p3 = inr n → Strptime.strptime p4 = inr dl →
  Task.from_file_string line =
    inr (Task.mk p0 p1 p2 n dl (String.eqb (Str.lower p6) "true") p5).
Proof.
  intros Hs Hn Hdl. unfold Task.from_file_string. rewrite Hs. cbn [getitem lookup list_lookup bind ret].
  rewrite Hn. cbn [bind]. unfold Task.init. rewrite Hdl. cbn [bind ret].
  by destruct (String.eqb (Str.lower p6) "true").
Qed.

Lemma from_file_string_raises_iff line :
  raises (Task.from_file_string line) ↔
    (length (Str.split "|" line) < 7)%nat
    ∨ (∃ p3, Str.split "|" line !! 3%nat = Some p3 ∧ raises (Str.int p3))
    ∨ (∃ p4, Str.split "|" line !! 4%nat = Some p4 ∧ raises (Strptime.strptime p4)).
Proof.
  unfold Task.from_file_string, Task.init, raises.
  destruct (Str.split "|" line) as [|p0 [|p1 [|p2 [|p3 [|p4 [|p5 [|p6 extra]]]]]]];
    cbn [getitem lookup list_lookup bind ret length].
  1-4: split; [intros _; left; lia|intros _; by eexists].
  all: destruct (Str.int p3) as [e3|n] eqn:E3; cbn [bind].
  all: try (split; [intros _; right; left; exists p3; split; [done|by eexists]
                   |intros _; by eexists]).
  1: split; [intros _; left; lia|intros _; by eexists].
  all: destruct (Strptime.strptime p4) as [e4|dl] eqn:E4; cbn [bind ret].
  all: try (split; [intros _; right; right; exists p4; split; [done|by eexists]
                   |intros _; by eexists]).
  1-2: split; [intros _; left; lia|intros _; by eexists].
  split.
  - intros [e He]. by destruct (String.eqb (Str.lower p6) "true").
  - intros [H|[(p & [= <-] & [e He])|(p & [= <-] & [e He])]]; [simpl in H; lia|congruence..].
Qed.

Lemma from_file_string_exn line e :
  Task.from_file_string line = inl e → e = ValueError ∨ e = IndexError.
Proof.
  unfold Task.from_file_string, Task.init.
  destruct (Str.split "|" line) as [|p0 [|p1 [|p2 [|p3 [|p4 [|p5 [|p6 extra]]]]]]];
    cbn [getitem lookup list_lookup bind ret raise]; try (intros [= <-]; by right).
  all: destruct (Str.int p3) as [e3|n] eqn:E3; cbn [bind];
    [intros [= <-]; left; by eapply int_raises|]; try (intros [= <-]; by right).
  all: destruct (Strptime.strptime p4) as [e4|dl] eqn:E4; cbn [bind ret];
    [intros [= <-]; left; by eapply strptime_raises|]; try (intros [= <-]; by right).
  by destruct (String.eqb (Str.lower p6) "true").
Qed.

(** Every task that the program builds has a date of the calendar, at
    midnight, as its deadline. *)
Lemma init_wf title description category priority deadline assigned_user t :
  Task.init title description category priority deadline assigned_user = inr t →
  Task.wf t = true.
Proof.
  unfold Task.init. intros (dl & Hdl & [= <-])%bind_inr.
  apply strptime_inv in Hdl as (y & m & d & Hv & _ & ->).
  unfold Task.wf, Datetime.valid. simpl. by rewrite Hv.
Qed.

Lemma mark_as_completed_wf t : Task.wf (Task.mark_as_completed t) = Task.wf t.
Proof. done. Qed.

Lemma from_file_string_wf line t :
  Task.from_file_string line = inr t → Task.wf t = true.
Proof.
  unfold Task.from_file_string.
  intros (p0 & _ & H)%bind_inr. apply bind_inr in H as (p1 & _ & H).
  apply bind_inr in H as (p2 & _ & H). apply bind_inr in H as (p3 & _ & H).
  apply bind_inr in H as (n & _ & H). apply bind_inr in H as (p4 & _ & H).
  apply bind_inr in H as (p5 & _ & H). apply bind_inr in H as (task & Ht & H).
  apply bind_inr in H as (p6 & _ & H). apply init_wf in Ht.
  destruct (String.eqb _ _); injection H as <-; by rewrite ?mark_as_completed_wf.
Qed.

Lemma zero_padded_2 n : 0 ≤ n < 100 →
  Str.zero_padded 2 n = String (Str.digit_char (n / 10)) (String (Str.digit_char (n mod 10)) "").
Proof.
  intros Hn. unfold Str.zero_padded, Str.rjust.
  assert ((n <? 0) = false) as -> by (apply Z.ltb_ge; lia).
  destruct (Z.lt_ge_cases n 10).
  - rewrite digits_small by lia.
    replace (n / 10) with 0 by divmod. replace (n mod 10) with n by divmod. done.
  - rewrite digits_2 by lia. done.
Qed.

Lemma zero_padded_2_digits c1 c2 :
  Str.isdigit c1 = true → Str.isdigit c2 = true →
  Str.zero_padded 2 (10 * Str.digit_value c1 + Str.digit_value c2) = String c1 (String c2 "").
Proof.
  intros H1 H2.
  destruct (isdigit_spec c1 H1) as [B1 E1]. destruct (isdigit_spec c2 H2) as [B2 E2].
  rewrite zero_padded_2 by lia.
  set (v := 10 * Str.digit_value c1 + Str.digit_value c2).
  replace (v / 10) with (Str.digit_value c1) by (subst v; divmod).
  replace (v mod 10) with (Str.digit_value c2) by (subst v; divmod).
  by rewrite E1, E2.
Qed.

Lemma strict_form_accepted s :
  strict_form s = true →
  ∃ y m d, Datetime.valid_date y m d = true ∧ s ∈ accepted_forms y m d.
Proof.
  unfold strict_form.
  destruct s as [|y1 [|y2 [|y3 [|y4 [|c1 [|m1 [|m2 [|c2 [|d1 [|d2 [|]]]]]]]]]]]; try done.
  rewrite !andb_true_iff. intros (((Hc1 & Hc2) & Hdig) & Hv).
  apply Ascii.eqb_eq in Hc1 as ->. apply Ascii.eqb_eq in Hc2 as ->.
  cbn [forallb] in Hdig. rewrite !andb_true_iff in Hdig.
  destruct Hdig as (H1 & H2 & H3 & H4 & H5 & H6 & H7 & H8 & _).
  eexists _, _, _. split; [exact Hv|].
  unfold accepted_forms. apply list_elem_of_bind. eexists. split; [|left].
  apply list_elem_of_bind. eexists. split; [|left].
  apply list_elem_of_singleton.
  fold (value4 y1 y2 y3 y4). rewrite zero_padded_text4, !zero_padded_2_digits by done.
  done.
Qed.

End codec_facts.

(** ** Loading, filtering and printing *)

Section manager_facts.
Import Spec TaskManager.

Lemma load_lines_raises lines self env line :
  line ∈ lines → raises (Task.from_file_string (Str.strip line)) →
  ∃ self' env' e, load_lines lines self env = (self', env', Some e)
    ∧ fs env' = fs env ∧ fs_writes env' = fs_writes env ∧ stdout env' = stdout env.
Proof.
  intros Hin [e He]. revert self env.
  induction lines as [|l lines IH]; intros self env; [by apply elem_of_nil in Hin|].
  simpl. destruct (Task.from_file_string (Str.strip l)) as [e'|task] eqn:El.
  - by eexists _, _, _.
  - apply elem_of_cons in Hin as [->|Hin]; [congruence|].
    destruct (IH Hin (set_tasks (tasks self ++ [fresh (dom (objs env))]) self)
                (alloc task env).2) as (self' & env' & e' & Hl & H1 & H2 & H3).
    by eexists _, _, _.
Qed.

(** The positions that a filter keeps. *)
Lemma filter_positions {A} (P : A → Prop) `{∀ x, Decision (P x)} (l : list A) :
  ∃ idxs : list nat,
    StronglySorted Nat.lt idxs
    ∧ (∀ i, i ∈ idxs ↔ ∃ x, l !! i = Some x ∧ P x)
    ∧ Forall2 (λ i y, l !! i = Some y) idxs (filter P l).
Proof.
  induction l as [|a l (idxs & Hs & Hm & Hf)].
  - exists []. split; [constructor|]. split; [|constructor].
    intros i. split; [by intros ?%elem_of_nil|by intros (x & ? & _)].
  - set (tl := S <$> idxs).
    assert (StronglySorted Nat.lt tl) as Hst.
    { subst tl. clear Hm Hf. induction Hs as [|i idxs Hs IHs Hall]; [constructor|].
      csimpl. constructor; [done|]. apply Forall_fmap.
      eapply Forall_impl; [exact Hall|]. simpl. lia. }
    assert (∀ i, i ∈ tl ↔ ∃ j, i = S j ∧ ∃ x, l !! j = Some x ∧ P x) as Hmt.
    { intros i. subst tl. rewrite list_elem_of_fmap. by setoid_rewrite Hm. }
    assert (Forall2 (λ i y, (a :: l) !! i = Some y) tl (filter P l)) as Hft.
    { subst tl. apply Forall2_fmap_l. eapply Forall2_impl; [exact Hf|]. done. }
    rewrite filter_cons. destruct (decide (P a)) as [Ha|Ha].
    + exists (0%nat :: tl). split.
      { constructor; [done|]. apply Forall_forall. intros i (j & -> & _)%Hmt. lia. }
      split; [|by constructor].
      intros i. rewrite elem_of_cons, Hmt. split.
      * intros [->|(j & -> & x & Hx & HP)]; [by exists a|by exists x].
      * destruct i as [|j]; [by left|]. intros (x & Hx & HP). right. exists j. eauto.
    + exists tl. split; [done|]. split; [|done].
      intros i. rewrite Hmt. split.
      * intros (j & -> & x & Hx & HP). by exists x.
      * destruct i as [|j]; [intros (x & [= <-] & HP); done|].
        intros (x & Hx & HP). exists j. eauto.
Qed.

(** [mapM] *)
Lemma mapM_returns {A B} (f : A → result B) (l : list A) :
  (∀ x, x ∈ l → returns (f x)) →
  ∃ ys, mapM f l = inr ys ∧ length ys = length l.
Proof.
  induction l as [|x l IH]; intros Hf; [by exists []|].
  destruct (Hf x) as [y Hy]; [left|].
  destruct IH as (ys & Hys & Hlen); [intros; apply Hf; by right|].
  exists (y :: ys). simpl. rewrite Hy, Hys. simpl. by rewrite Hlen.
Qed.

Lemma getitem_returns {A} (l : list A) i : (i < length l)%nat → returns (getitem l i).
Proof.
  intros Hi. unfold getitem. destruct (lookup_lt_is_Some_2 l i Hi) as [x ->]. by exists x.
Qed.

Lemma format_as_table_returns rows headers :
  (∀ row, row ∈ rows → length row = length headers) →
  returns (format_as_table rows headers).
Proof.
  intros Hrows. unfold format_as_table.
  destruct (mapM_returns
    (λ i, do ws <- mapM (λ row, do x <- getitem row i; ret (Str.len x)) (rows ++ [headers]);
          max_of ws) (seq 0 (length headers))) as (col_widths & -> & Hcw).
  { intros i Hi%elem_of_seq.
    destruct (mapM_returns (λ row, do x <- getitem row i; ret (Str.len x)) (rows ++ [headers]))
      as (ws & -> & Hws).
    { intros row [Hr|Hr%list_elem_of_singleton]%elem_of_app; [|subst row].
      - destruct (getitem_returns row i) as [x ->]; [rewrite (Hrows row Hr); lia|].
        by eexists.
      - destruct (getitem_returns headers i) as [x ->]; [lia|]. by eexists. }
    cbn [bind]. destruct ws as [|w ws]; [|by eexists].
    rewrite length_app in Hws. simpl in Hws. lia. }
  rewrite length_seq in Hcw. cbn [bind].
  assert (∀ row, length row = length headers →
    ∃ cells, mapM (ljust_cell col_widths row) (seq 0 (length row)) = inr cells) as Hcells.
  { intros row Hlen.
    destruct (mapM_returns (ljust_cell col_widths row) (seq 0 (length row))) as (cells & -> & _);
      [|by eexists].
    intros i Hi%elem_of_seq. unfold ljust_cell.
    destruct (getitem_returns row i) as [x ->]; [lia|].
    destruct (getitem_returns col_widths i) as [w ->]; [lia|]. by eexists. }
  destruct (Hcells headers eq_refl) as [header_cells ->]. cbn [bind].
  destruct (mapM_returns
    (λ i, do w <- getitem col_widths i; ret (Str.replicate (Z.to_nat w) "-"))
    (seq 0 (length headers))) as (rule_cells & -> & _).
  { intros i Hi%elem_of_seq.
    destruct (getitem_returns col_widths i) as [w ->]; [lia|]. by eexists. }
  cbn [bind].
  destruct (mapM_returns
    (λ row, do cells <- mapM (ljust_cell col_widths row) (seq 0 (length row));
            ret (Str.join " | " cells)) rows) as (row_lines & -> & _).
  { intros row Hr. destruct (Hcells row (Hrows row Hr)) as [cells ->]. by eexists. }
  by eexists.
Qed.

Lemma category_rows_width category self env row :
  row ∈ category_rows category self env → length row = length headers.
Proof.
  unfold category_rows. intros (t & -> & _)%list_elem_of_fmap. done.
Qed.

Lemma print_rows_spec title_line empty_line rows env :
  (∀ row, row ∈ rows → length row = length headers) →
  ∃ env', print_rows title_line empty_line rows env = inr env'
    ∧ objs env' = objs env ∧ fs env' = fs env ∧ fs_writes env' = fs_writes env
    ∧ (rows = [] → stdout env' = stdout env ++ [empty_line])
    ∧ (rows ≠ [] → ∃ table, format_as_table rows headers = inr table
                     ∧ stdout env' = stdout env ++ [title_line; table]).
Proof.
  intros Hrows. unfold print_rows. destruct rows as [|row rows].
  - eexists. split; [done|]. by split_and!.
  - destruct (format_as_table_returns (row :: rows) headers Hrows) as [table ->].
    eexists. split; [done|]. split_and!; try done.
    intros _. exists table. split; [done|]. simpl. by rewrite <- app_assoc.
Qed.

End manager_facts.

(** ** Looking a task up by its title *)

Section title_facts.
Import TaskManager.

Section by_title.
Variables (title : string) (env : Env).

Lemma title_matches_true l :
  title_matches title env l = true
  ↔ Str.lower (Task.title (obj env l)) = Str.lower title.
Proof. apply String.eqb_eq. Qed.

Lemma title_matches_false l :
  title_matches title env l = false
  ↔ Str.lower (Task.title (obj env l)) ≠ Str.lower title.
Proof. apply String.eqb_neq. Qed.

Lemma no_match_cons l ts :
  no_match title env (l :: ts) →
  title_matches title env l = false ∧ no_match title env ts.
Proof.
  intros Hno. split.
  - apply title_matches_false, Hno. left.
  - intros l' Hl'. apply Hno. by right.
Qed.

Lemma mark_loop_no_match ts self :
  no_match title env ts → mark_loop title ts self env = None.
Proof.
  induction ts as [|l ts IH]; [done|].
  intros [Hl Hts]%no_match_cons. simpl. rewrite Hl. by apply IH.
Qed.

Lemma find_to_remove_no_match ts :
  no_match title env ts → find_to_remove title ts env = None.
Proof.
  induction ts as [|l ts IH]; [done|].
  intros [Hl Hts]%no_match_cons. simpl. rewrite Hl. by apply IH.
Qed.

Lemma first_match_cons_ne l0 ts i l :
  first_match title env (l0 :: ts) (S i) l →
  title_matches title env l0 = false ∧ first_match title env ts i l.
Proof.
  intros (Hi & Hm & Hno). split.
  - apply title_matches_false. apply (Hno 0%nat); [lia|done].
  - split; [done|]. split; [done|].
    intros j l' Hj Hl'. apply (Hno (S j)); [lia|done].
Qed.

Lemma first_match_head l0 ts l :
  first_match title env (l0 :: ts) 0 l →
  l0 = l ∧ title_matches title env l = true.
Proof.
  intros (Hi & Hm & _). simpl in Hi. simplify_eq.
  split; [done|]. by apply title_matches_true.
Qed.

Lemma find_to_remove_first ts i l :
  first_match title env ts i l → find_to_remove title ts env = Some l.
Proof.
  revert i. induction ts as [|l0 ts IH]; intros i Hf.
  - by destruct Hf as [Hf _].
  - destruct i as [|i].
    + apply first_match_head in Hf as [-> Hm]. simpl. by rewrite Hm.
    + apply first_match_cons_ne in Hf as [Hne Hf]. simpl. rewrite Hne. eauto.
Qed.

(** [list.remove] takes out the entry that the loop found, although it
    looks for the object and not for the index: an earlier entry for the
    same object would have matched first. *)
Lemma list_remove_first ts i l :
  first_match title env ts i l → list_remove l ts = ret (delete i ts).
Proof.
  revert i. induction ts as [|l0 ts IH]; intros i Hf.
  - by destruct Hf as [Hf _].
  - destruct i as [|i].
    + apply first_match_head in Hf as [-> _]. simpl. by rewrite decide_True.
    + pose proof Hf as (_ & Hm & _).
      apply first_match_cons_ne in Hf as [Hne Hf]. simpl.
      rewrite decide_False.
      * by rewrite (IH i Hf).
      * intros ->. by apply title_matches_false in Hne.
Qed.

Lemma mark_loop_first ts self i l :
  first_match title env ts i l →
  mark_loop title ts self env =
    Some (print ("Task marked as completed: " +:+ Task.title (obj env l))
                (save_tasks_to_file self (completed_at l env))).
Proof.
  revert i. induction ts as [|l0 ts IH]; intros i Hf.
  - by destruct Hf as [Hf _].
  - destruct i as [|i].
    + apply first_match_head in Hf as [-> Hm]. simpl. rewrite Hm.
      do 2 f_equal. unfold obj at 1. simpl. by rewrite lookup_total_insert_eq.
    + apply first_match_cons_ne in Hf as [Hne Hf]. simpl. rewrite Hne. eauto.
Qed.

End by_title.

End title_facts.

(** ** The scan cycle, step by step *)

Section cycle_facts.
Import TaskManager Scanner.

Section scan_cycle.
Variables (now : Datetime.t) (env : Env).

Lemma scan_loop_tasks pending self :
  tasks (scan_loop now pending self env).1 = tasks self.
Proof.
  revert self. induction pending as [|l pending IH]; intros self; [done|].
  simpl. destruct (due now (obj env l)) as [e|[]]; [done|..]; by rewrite IH.
Qed.

Lemma scan_loop_grows pending self :
  upcoming_reminders self `prefix_of`
    upcoming_reminders (scan_loop now pending self env).1.
Proof.
  revert self. induction pending as [|l pending IH]; intros self; [done|].
  simpl. destruct (due now (obj env l)) as [e|[]]; [done|..].
  - etrans; [|apply IH]. simpl. by apply prefix_app_r.
  - apply IH.
Qed.

Lemma scan_loop_app p1 p2 self :
  scan_loop now (p1 ++ p2) self env =
    match scan_loop now p1 self env with
    | (self1, None) => scan_loop now p2 self1 env
    | (self1, Some e) => (self1, Some e)
    end.
Proof.
  revert self. induction p1 as [|l p1 IH]; intros self; [done|].
  simpl. destruct (due now (obj env l)) as [e|[]]; [done|..]; apply IH.
Qed.

(** Every prefix of the list of after is the list at some step. *)
Lemma scan_loop_prefixes pending self p :
  upcoming_reminders self `prefix_of` p →
  p `prefix_of` upcoming_reminders (scan_loop now pending self env).1 →
  ∃ i s, (i ≤ length pending)%nat
         ∧ scan_loop now (take i pending) self env = (s, None)
         ∧ upcoming_reminders s = p.
Proof.
  revert self. induction pending as [|l pending IH]; intros self H1 H2.
  - exists 0%nat, self. split; [done|]. split; [done|].
    simpl in H2. by apply (anti_symm prefix).
  - simpl in H2. destruct (due now (obj env l)) as [e|[]] eqn:Hdue.
    + exists 0%nat, self. split; [simpl; lia|]. split; [done|].
      simpl in H2. by apply (anti_symm prefix).
    + destruct (decide (p = upcoming_reminders self)) as [->|Hne].
      { exists 0%nat, self. split; [simpl; lia|]. done. }
      destruct (IH (set_reminders (upcoming_reminders self ++ [reminder (obj env l)]) self))
        as (i & s & Hi & Hs & Hp).
      * simpl. destruct H1 as [k ->]. destruct k as [|r k]; [by rewrite app_nil_r in Hne|].
        assert (r = reminder (obj env l)) as ->.
        { pose proof (scan_loop_grows pending
            (set_reminders (upcoming_reminders self ++ [reminder (obj env l)]) self)) as Hg.
          simpl in Hg. destruct Hg as [k1 Hk1]. destruct H2 as [k2 Hk2].
          rewrite Hk1 in Hk2. rewrite <- !app_assoc in Hk2.
          apply app_inv_head in Hk2. simpl in Hk2. by injection Hk2. }
        exists k. by rewrite <- app_assoc.
      * done.
      * exists (S i), s. split; [simpl; lia|]. simpl. by rewrite Hdue.
    + destruct (IH self H1 H2) as (i & s & Hi & Hs & Hp).
      exists (S i), s. split; [simpl; lia|]. simpl. by rewrite Hdue.
Qed.

Lemma cycle_inv_step self st st' :
  cycle_inv now env self st → steps_to now env st st' → cycle_inv now env self st'.
Proof.
  destruct st as [p s]. unfold cycle_inv, steps_to. simpl.
  destruct p as [|i| |e]; intros Hinv Hstep; simplify_eq/=.
  - split; [lia|done].
  - destruct Hinv as [Hi Hrun].
    assert (tasks s = tasks self) as Hts.
    { pose proof (scan_loop_tasks (take i (tasks self)) (set_reminders [] self)) as H.
      by rewrite Hrun in H. }
    rewrite Hts in Hstep.
    destruct (tasks self !! i) as [l|] eqn:Hl.
    + assert (scan_loop now (take (S i) (tasks self)) (set_reminders [] self) env
              = scan_loop now [l] s env) as Hnext.
      { rewrite (take_S_r _ _ _ Hl), scan_loop_app, Hrun. done. }
      pose proof (lookup_lt_Some _ _ _ Hl) as Hlt.
      simpl in Hnext.
      destruct (due now (obj env l)) as [e|[]] eqn:Hdue; simplify_eq/=.
      * unfold check_upcoming_deadlines.
        rewrite <- (take_drop i (tasks self)) at 1.
        rewrite scan_loop_app, Hrun, (drop_S _ _ _ Hl). simpl. by rewrite Hdue.
      * split; [lia|done].
      * split; [lia|done].
    + simplify_eq/=. apply lookup_ge_None in Hl.
      unfold check_upcoming_deadlines. by rewrite take_ge in Hrun by lia.
Qed.

Lemma cycle_inv_reachable self st :
  reachable now env self st → cycle_inv now env self st.
Proof.
  unfold reachable. intros H.
  revert st H. apply (rtc_ind_r (R := steps_to now env)); [done|].
  intros st1 st2 _ Hstep Hinv. by eapply cycle_inv_step.
Qed.

Lemma cycle_inv_seen self st :
  cycle_inv now env self st →
  upcoming_reminders st.2 = upcoming_reminders self
  ∨ upcoming_reminders st.2 `prefix_of`
      upcoming_reminders (check_upcoming_deadlines now self env).1.
Proof.
  destruct st as [p s]. unfold cycle_inv. simpl.
  destruct p as [|i| |e]; intros Hinv.
  - left. by subst.
  - right. destruct Hinv as [Hi Hrun]. unfold check_upcoming_deadlines.
    rewrite <- (take_drop i (tasks self)) at 1. rewrite scan_loop_app, Hrun.
    apply scan_loop_grows.
  - right. by rewrite Hinv.
  - right. by rewrite Hinv.
Qed.

(** The cycle reaches the loop at every index up to the first failure. *)
Lemma reachable_loop self i s :
  (i ≤ length (tasks self))%nat →
  scan_loop now (take i (tasks self)) (set_reminders [] self) env = (s, None) →
  reachable now env self (Loop i, s).
Proof.
  revert s. induction i as [|i IH]; intros s Hi Hrun.
  - rewrite take_0 in Hrun. simplify_eq/=.
    eapply rtc_l; [|apply rtc_refl]. done.
  - destruct (lookup_lt_is_Some_2 (tasks self) i) as [l Hl]; [lia|].
    rewrite (take_S_r _ _ _ Hl), scan_loop_app in Hrun.
    destruct (scan_loop now (take i (tasks self)) (set_reminders [] self) env)
      as [s1 [e|]] eqn:Hprev; [done|].
    eapply rtc_r; [apply IH; [lia|done]|].
    unfold steps_to. simpl.
    assert (tasks s1 = tasks self) as ->.
    { pose proof (scan_loop_tasks (take i (tasks self)) (set_reminders [] self)) as H.
      by rewrite Hprev in H. }
    rewrite Hl. simpl in Hrun.
    destruct (due now (obj env l)) as [e|[]]; by simplify_eq/=.
Qed.

Lemma reachable_end self :
  reachable now env self
    (match (check_upcoming_deadlines now self env).2 with
     | None => Finished
     | Some e => Failed e
     end, (check_upcoming_deadlines now self env).1).
Proof.
  unfold check_upcoming_deadlines.
  (* find the first index where the loop fails, if any *)
  assert (∀ n, (n ≤ length (tasks self))%nat →
    (∃ s, scan_loop now (take n (tasks self)) (set_reminders [] self) env = (s, None))
    ∨ (∃ i l s e, (i < n)%nat ∧ tasks self !! i = Some l ∧
         scan_loop now (take i (tasks self)) (set_reminders [] self) env = (s, None) ∧
         due now (obj env l) = inl e)) as Hsplit.
  { induction n as [|n IH]; intros Hn.
    - left. rewrite take_0. eauto.
    - destruct IH as [[s Hs]|(i & l & s & e & Hi & Hl & Hs & He)]; [lia| |].
      + destruct (lookup_lt_is_Some_2 (tasks self) n) as [l Hl]; [lia|].
        destruct (due now (obj env l)) as [e|b] eqn:Hdue.
        * right. exists n, l, s, e. split_and!; (done || lia).
        * left. rewrite (take_S_r _ _ _ Hl), scan_loop_app, Hs. simpl. rewrite Hdue.
          destruct b; eauto.
      + right. exists i, l, s, e. split_and!; (done || lia). }
  destruct (Hsplit (length (tasks self))) as [[s Hs]|(i & l & s & e & Hi & Hl & Hs & He)];
    [lia| |].
  - rewrite firstn_all in Hs. rewrite Hs. simpl.
    eapply rtc_r; [apply (reachable_loop self (length (tasks self)) s); [lia|]|].
    + by rewrite firstn_all.
    + unfold steps_to. simpl.
      assert (tasks s = tasks self) as ->.
      { pose proof (scan_loop_tasks (tasks self) (set_reminders [] self)) as H.
        by rewrite Hs in H. }
      by rewrite lookup_ge_None_2 by lia.
  - rewrite <- (take_drop i (tasks self)) at 1 2.
    rewrite scan_loop_app, Hs, (drop_S _ _ _ Hl). simpl. rewrite He. simpl.
    eapply rtc_r; [apply (reachable_loop self i s); [lia|done]|].
    unfold steps_to. simpl.
    assert (tasks s = tasks self) as ->.
    { pose proof (scan_loop_tasks (take i (tasks self)) (set_reminders [] self)) as H.
      by rewrite Hs in H. }
    by rewrite Hl, He.
Qed.

End scan_cycle.

End cycle_facts.

(** ** Letters and their case *)

Lemma same_letter_table :
  forallb (λ a, forallb (λ b,
             Bool.eqb (Ascii.eqb (Str.lower_char a) (Str.lower_char b))
                      (Spec.same_letter a b))
             (ascii_of_nat <$> seq 0 256))
          (ascii_of_nat <$> seq 0 256) = true.
Proof. by vm_compute. Qed.

Lemma ascii_listed (a : ascii) : In a (ascii_of_nat <$> seq 0 256).
Proof.
  rewrite <- (ascii_nat_embedding a). apply in_map, in_seq.
  pose proof (nat_ascii_bounded a). lia.
Qed.

Lemma lower_char_same_letter a b :
  Str.lower_char a = Str.lower_char b ↔ Spec.same_letter a b = true.
Proof.
  pose proof (proj1 (forallb_forall _ _) same_letter_table a (ascii_listed a)) as H.
  cbv beta in H.
  pose proof (proj1 (forallb_forall _ _) H b (ascii_listed b)) as H'.
  cbv beta in H'. apply Bool.eqb_prop in H'. rewrite <- H'.
  symmetry. apply Ascii.eqb_eq.
Qed.

(** [a.lower() == b.lower()] is equality without regard to case. *)
Lemma lower_equal_ignoring_case s t :
  Str.lower s = Str.lower t ↔ Spec.equal_ignoring_case s t = true.
Proof.
  revert t. induction s as [|a s IH]; intros [|b t]; simpl; try done.
  rewrite andb_true_iff, <- IH, <- lower_char_same_letter. split.
  - by intros [= -> ->].
  - by intros [-> ->].
Qed.

Lemma lower_differs s t :
  Str.lower s ≠ Str.lower t ↔ Spec.equal_ignoring_case s t = false.
Proof.
  rewrite lower_equal_ignoring_case. by destruct (Spec.equal_ignoring_case s t).
Qed.

(** ** The exception of a rejected line *)

Lemma int_outcome s : Str.int s = inl ValueError ∨ ∃ n, Str.int s = inr n.
Proof.
  destruct (Str.int s) as [e|n] eqn:E; [|right; by exists n].
  left. by rewrite (int_raises _ _ E).
Qed.

Lemma strptime_outcome s :
  Strptime.strptime s = inl ValueError ∨ ∃ dl, Strptime.strptime s = inr dl.
Proof.
  destruct (Strptime.strptime s) as [e|dl] eqn:E; [|right; by exists dl].
  left. by rewrite (strptime_raises _ _ E).
Qed.

Lemma from_file_string_value_error line :
  Task.from_file_string line = inl ValueError ↔
    (∃ p3, Str.split "|" line !! 3%nat = Some p3 ∧ raises (Str.int p3))
    ∨ ((6 ≤ length (Str.split "|" line))%nat
       ∧ ∃ p4, Str.split "|" line !! 4%nat = Some p4
               ∧ raises (Strptime.strptime p4)).
Proof.
  unfold Task.from_file_string, Task.init, raises.
  destruct (Str.split "|" line) as [|p0 [|p1 [|p2 [|p3 [|p4 [|p5 [|p6 extra]]]]]]];
    cbn [getitem lookup list_lookup bind ret raise length].
  1-4: split; [done|intros [(? & [=] & _)|[? _]]; lia].
  all: destruct (int_outcome p3) as [E3|[n E3]]; rewrite E3; cbn [bind].
  all: try (split; [intros _; left; exists p3; split; [done|by eexists]|done]).
  1-2: split; [done|intros [(? & [= <-] & [? ?])|[? _]]; [congruence|lia]].
  all: destruct (strptime_outcome p4) as [E4|[dl E4]]; rewrite E4; cbn [bind ret].
  all: try (split; [intros _; right; split; [lia|]; exists p4; split; [done|by eexists]|done]).
  - split; [done|]. intros [(? & [= <-] & [? ?])|[_ (? & [= <-] & [? ?])]]; congruence.
  - destruct (String.eqb (Str.lower p6) "true"); (split; [done|]);
      intros [(? & [= <-] & [? ?])|[_ (? & [= <-] & [? ?])]]; congruence.
Qed.

Lemma from_file_string_index_error line :
  Task.from_file_string line = inl IndexError ↔
    (length (Str.split "|" line) < 7)%nat
    ∧ ¬ (∃ p3, Str.split "|" line !! 3%nat = Some p3 ∧ raises (Str.int p3))
    ∧ ¬ (length (Str.split "|" line) = 6%nat
         ∧ ∃ p4, Str.split "|" line !! 4%nat = Some p4
                 ∧ raises (Strptime.strptime p4)).
Proof.
  unfold Task.from_file_string, Task.init, raises.
  destruct (Str.split "|" line) as [|p0 [|p1 [|p2 [|p3 [|p4 [|p5 [|p6 extra]]]]]]];
    cbn [getitem lookup list_lookup bind ret raise length].
  1-4: split; [intros _; split; [lia|]; split; [by intros (? & [=] & _)|intros [? _]; lia]|done].
  all: destruct (int_outcome p3) as [E3|[n E3]]; rewrite E3; cbn [bind].
  all: try (split; [done|intros (_ & H & _); destruct H; exists p3; split; [done|by eexists]]).
  1-2: split; [intros _; split; [lia|]; split;
                 [intros (? & [= <-] & [? ?]); congruence|intros [? _]; lia]|done].
  all: destruct (strptime_outcome p4) as [E4|[dl E4]]; rewrite E4; cbn [bind ret].
  - split; [done|]. intros (_ & _ & H). destruct H. split; [done|].
    exists p4. split; [done|by eexists].
  - split; [intros _|done]. split; [lia|]. split.
    + intros (? & [= <-] & [? ?]); congruence.
    + intros (_ & ? & [= <-] & [? ?]); congruence.
  - split; [done|]. intros [? _]. lia.
  - destruct (String.eqb (Str.lower p6) "true"); (split; [done|]); intros [? _]; lia.
Qed.

Lemma completed_field p6 :
  String.eqb (Str.lower p6) "true" = Spec.equal_ignoring_case p6 "true".
Proof.
  apply eq_true_iff_eq. rewrite String.eqb_eq.
  by rewrite <- lower_equal_ignoring_case.
Qed.

(** ** Loading, whatever its end *)

Lemma load_lines_end lines self env self' env' r :
  TaskManager.load_lines lines self env = (self', env', r) →
  fs env' = fs env ∧ fs_writes env' = fs_writes env ∧ stdout env' = stdout env
  ∧ match r with
    | Some e => ∃ line, line ∈ lines
                        ∧ Task.from_file_string (Str.strip line) = inl e
    | None => (∀ line, line ∈ lines →
                       returns (Task.from_file_string (Str.strip line)))
              ∧ length (TaskManager.tasks self')
                = (length (TaskManager.tasks self) + length lines)%nat
    end.
Proof.
  revert self env. induction lines as [|line lines IH]; intros self env.
  - simpl. intros [= <- <- <-].
    split_and!; first [done|by intros line ?%elem_of_nil|simpl; lia].
  - simpl. destruct (Task.from_file_string (Str.strip line)) as [e|t] eqn:Hline.
    + intros [= <- <- <-]. split_and!; try done. exists line. split; [left|done].
    + intros (H1 & H2 & H3 & Hr)%IH. split_and!; try done.
      destruct r as [e|].
      * destruct Hr as (bad & Hin & Hbad). exists bad. split; [by right|done].
      * destruct Hr as [Hall Hlen]. split.
        -- intros x [->|Hx]%elem_of_cons; [by exists t|by apply Hall].
        -- rewrite Hlen. cbn [TaskManager.tasks TaskManager.set_tasks].
           rewrite length_app. simpl. lia.
Qed.

(** * The claims *)

Import Spec TaskManager Scanner.

(** C1. Round trip of the codec. For every task whose title, description,
    category and assigned user hold no ['|'] (the priority is an integer,
    the deadline a date of the calendar), [Task.from_file_string] applied to
    [to_file_string] returns a task with the same title, description,
    category, priority, deadline date, assigned user and completed flag. *)
Theorem file_string_roundtrip (t : Task.t) :
  Datetime.valid (Task.deadline t) = true →
  Str.contains "|" (Task.title t) = false →
  Str.contains "|" (Task.description t) = false →
  Str.contains "|" (Task.category t) = false →
  Str.contains "|" (Task.assigned_user t) = false →
  Task.from_file_string (Task.to_file_string t) =
    inr (Task.mk (Task.title t) (Task.description t) (Task.category t)
                 (Task.priority t) (Datetime.date (Task.deadline t))
                 (Task.completed t) (Task.assigned_user t)).
Proof.
  intros [Hv _]%valid_spec Ht Hd Hc Hu.
  rewrite (from_file_string_steps _ _ _ _ _ _ _ _ [] (Task.priority t)
             (Datetime.date (Task.deadline t))
             (split_to_file_string t Hv Ht Hd Hc Hu)).
  - by rewrite lower_of_bool.
  - apply int_of_int.
  - by apply strptime_isoformat.
Qed.

(** The sample task comes back as it was. *)
Lemma sample_rent_comes_back :
  Task.from_file_string (Task.to_file_string Sample.rent) = inr Sample.rent.
Proof. apply (file_string_roundtrip Sample.rent); reflexivity. Defined.

(** A line of eight fields is deserialized: the eighth is ignored. *)
Lemma eight_fields_are_accepted :
  length (Str.split "|" Sample.long_line) = 8%nat
  ∧ Task.from_file_string Sample.long_line =
      inr (Task.mk "Pay rent" "" "Bills" 1 (Datetime.midnight 2099 1 1)
                   true "alice").
Proof. split; reflexivity. Qed.

(** C2, amended. [Task.from_file_string] raises exactly when the line splits
    on ['|'] into fewer than 7 parts, or [int] rejects the fourth part, or
    [strptime] rejects the fifth. The exception is [ValueError] when [int]
    rejects the fourth part, and when there are 6 parts or more and
    [strptime] rejects the fifth; in every other case of failure it is
    [IndexError], so with 5 parts a bad date is never looked at. With 7
    parts or more, the first seven decide and the others are ignored; the
    task is completed when the seventh part is "true" without regard to
    case. *)
Theorem from_file_string_fails_iff (line : string) :
  let parts := Str.split "|" line in
  (raises (Task.from_file_string line) ↔
     (length parts < 7)%nat
     ∨ (∃ p3, parts !! 3%nat = Some p3 ∧ raises (Str.int p3))
     ∨ (∃ p4, parts !! 4%nat = Some p4 ∧ raises (Strptime.strptime p4)))
  ∧ (Task.from_file_string line = inl ValueError ↔
       (∃ p3, parts !! 3%nat = Some p3 ∧ raises (Str.int p3))
       ∨ ((6 ≤ length parts)%nat
          ∧ ∃ p4, parts !! 4%nat = Some p4 ∧ raises (Strptime.strptime p4)))
  ∧ (Task.from_file_string line = inl IndexError ↔
       (length parts < 7)%nat
       ∧ ¬ (∃ p3, parts !! 3%nat = Some p3 ∧ raises (Str.int p3))
       ∧ ¬ (length parts = 6%nat
            ∧ ∃ p4, parts !! 4%nat = Some p4
                    ∧ raises (Strptime.strptime p4)))
  ∧ (∀ p0 p1 p2 p3 p4 p5 p6 extra n dl,
       parts = p0 :: p1 :: p2 :: p3 :: p4 :: p5 :: p6 :: extra →
       Str.int p3 = inr n → Strptime.strptime p4 = inr dl →
       Task.from_file_string line =
         inr (Task.mk p0 p1 p2 n dl (equal_ignoring_case p6 "true") p5))
  ∧ (∀ e, Task.from_file_string line = inl e →
          e = ValueError ∨ e = IndexError).
Proof.
  intros parts. subst parts. split_and!.
  - apply from_file_string_raises_iff.
  - apply from_file_string_value_error.
  - apply from_file_string_index_error.
  - intros * Hs Hn Hdl. rewrite <- completed_field.
    by eapply from_file_string_steps.
  - apply from_file_string_exn.
Qed.

(** Eight fields give a task, and so does a priority that [int] reads with
    blanks, a sign and an underscore. Five fields raise [IndexError], a bad
    date among them or not; a bad priority and, in a line of seven fields, a
    bad date raise [ValueError]. *)
Lemma sample_lines_of_eight_and_five :
  Task.from_file_string Sample.long_line =
    inr (Task.mk "Pay rent" "" "Bills" 1 (Datetime.midnight 2099 1 1)
                 true "alice")
  ∧ Task.from_file_string "Buy milk|2 l|Home| +3_0 |2024-03-10|carol|False" =
      inr (Task.mk "Buy milk" "2 l" "Home" 30 (Datetime.midnight 2024 3 10)
                   false "carol")
  ∧ Task.from_file_string "Buy milk|2 l|Home|3|2024-03-10" = inl IndexError
  ∧ Task.from_file_string "Buy milk|2 l|Home|3|not-a-date" = inl IndexError
  ∧ Task.from_file_string "Buy milk|2 l|Home|three|2024-03-10|carol|False"
    = inl ValueError
  ∧ Task.from_file_string "Buy milk|2 l|Home|3|not-a-date|carol|False"
    = inl ValueError.
Proof.
  split_and!.
  - apply (proj1 (proj2 (proj2 (proj2 (from_file_string_fails_iff
                                         Sample.long_line))))
             "Pay rent" "" "Bills" "1" "2099-01-01" "alice" "TRUE" ["extra"]);
      reflexivity.
  - apply (proj1 (proj2 (proj2 (proj2
             (from_file_string_fails_iff
                "Buy milk|2 l|Home| +3_0 |2024-03-10|carol|False"))))
             "Buy milk" "2 l" "Home" " +3_0 " "2024-03-10" "carol" "False" []);
      reflexivity.
  - apply (proj1 (proj2 (proj2 (from_file_string_fails_iff
                                  "Buy milk|2 l|Home|3|2024-03-10")))).
    split_and!.
    + vm_compute. lia.
    + intros (p3 & Hp3 & e & He). vm_compute in Hp3.
      injection Hp3 as <-. vm_compute in He. discriminate He.
    + intros [Hlen _]. vm_compute in Hlen. discriminate Hlen.
  - apply (proj1 (proj2 (proj2 (from_file_string_fails_iff
                                  "Buy milk|2 l|Home|3|not-a-date")))).
    split_and!.
    + vm_compute. lia.
    + intros (p3 & Hp3 & e & He). vm_compute in Hp3.
      injection Hp3 as <-. vm_compute in He. discriminate He.
    + intros [Hlen _]. vm_compute in Hlen. discriminate Hlen.
  - apply (proj1 (proj2 (from_file_string_fails_iff
                           "Buy milk|2 l|Home|three|2024-03-10|carol|False"))).
    left. exists "three". split; [reflexivity|]. exists ValueError. reflexivity.
  - apply (proj1 (proj2 (from_file_string_fails_iff
                           "Buy milk|2 l|Home|3|not-a-date|carol|False"))).
    right. split; [vm_compute; lia|]. exists "not-a-date".
    split; [reflexivity|]. exists ValueError. reflexivity.
Defined.

(** A file whose second line has eight fields is loaded, both lines of it. *)
Lemma eight_field_line_is_loaded :
  length (Str.split "|" Sample.long_line) = 8%nat
  ∧ ∃ self env',
      TaskManager.init [] Cases.long_env = (inr self, env')
      ∧ obj env' <$> tasks self =
          [Sample.milk;
           Task.mk "Pay rent" "" "Bills" 1 (Datetime.midnight 2099 1 1) true
                   "alice"].
Proof.
  split; [reflexivity|]. eexists _, _. split; [reflexivity|]. by vm_compute.
Qed.

(** C3, amended. Loading is all or nothing. When the backing file exists,
    the constructor of the manager raises exactly when one of its lines,
    stripped, splits on ['|'] into fewer than 7 parts, or has a fourth part
    that [int] rejects, or a fifth part that [strptime] rejects. It then
    raises a [ValueError] or an [IndexError], the caller gets no manager,
    hence no task, and the file is left as it was. Otherwise every line
    gives a task, lines of more than 7 fields included. *)
Theorem load_aborts_on_malformed_line (seen : list string) (env : Env)
    (content : string) :
  fs env !! "database.txt" = Some content →
  let rejected (line : string) : Prop :=
    let parts := Str.split "|" (Str.strip line) in
    (length parts < 7)%nat
    ∨ (∃ p3, parts !! 3%nat = Some p3 ∧ raises (Str.int p3))
    ∨ (∃ p4, parts !! 4%nat = Some p4 ∧ raises (Strptime.strptime p4)) in
  ((∃ line, line ∈ readlines content ∧ rejected line) ↔
     ∃ e env', TaskManager.init seen env = (inl e, env'))
  ∧ (∀ e env', TaskManager.init seen env = (inl e, env') →
       (e = ValueError ∨ e = IndexError)
       ∧ fs env' = fs env ∧ fs_writes env' = fs_writes env
       ∧ stdout env' = stdout env)
  ∧ ((∀ line, line ∈ readlines content → ¬ rejected line) →
     ∃ self env', TaskManager.init seen env = (inr self, env')
       ∧ length (tasks self) = length (readlines content)).
Proof.
  intros Hfile rejected.
  assert (∀ line, rejected line
                  ↔ raises (Task.from_file_string (Str.strip line))) as Hrej.
  { intros line. symmetry. apply from_file_string_raises_iff. }
  unfold init, load_tasks_from_file. cbn [file_path]. rewrite Hfile.
  destruct (load_lines (readlines content) (mk [] "database.txt" true []) env)
    as [[self1 env1] r] eqn:Hload.
  apply load_lines_end in Hload as (H1 & H2 & H3 & Hr).
  destruct r as [e|].
  - destruct Hr as (bad & Hin & Hbad). split_and!.
    + split; [intros _; by exists e, env1|]. intros _. exists bad.
      split; [done|]. apply Hrej. by exists e.
    + intros e' env' [= <- <-]. split_and!; try done.
      by eapply from_file_string_exn.
    + intros Hnone. destruct (Hnone bad Hin). apply Hrej. by exists e.
  - destruct Hr as [Hall Hlen]. split_and!.
    + split; [|by intros (? & ? & ?)].
      intros (line & Hin & [e He]%Hrej). destruct (Hall line Hin) as [t Ht].
      congruence.
    + by intros e env' ?.
    + intros _. by exists (start_notification_thread seen self1), env1.
Qed.

(** A well-formed line followed by a line of five fields. *)
Lemma sample_broken_file_aborts :
  ∃ e env', TaskManager.init [] Sample.broken_env = (inl e, env')
    ∧ (e = ValueError ∨ e = IndexError)
    ∧ fs env' = fs Sample.broken_env
    ∧ fs_writes env' = fs_writes Sample.broken_env
    ∧ stdout env' = stdout Sample.broken_env.
Proof.
  destruct (load_aborts_on_malformed_line [] Sample.broken_env
              Sample.broken_file eq_refl) as (Hiff & Hframe & _).
  destruct (proj1 Hiff) as (e & env' & Hinit).
  - exists ("Buy milk|2 l|Home|3|2024-03-10" +:+ String newline "").
    split; [vm_compute; right; left|]. left. vm_compute. lia.
  - exists e, env'. split; [exact Hinit|]. exact (Hframe e env' Hinit).
Defined.

(** A deadline with a month and a day of one digit is not in the strict
    form, and the task is created. *)
Lemma one_digit_month_and_day_are_accepted :
  strict_form "2024-1-5" = false
  ∧ Task.init "Pay rent" "" "Bills" 1 "2024-1-5" "alice" =
      inr (Task.mk "Pay rent" "" "Bills" 1 (Datetime.midnight 2024 1 5)
                   false "alice").
Proof. split; reflexivity. Qed.

(** C4, amended. Task creation succeeds exactly when the deadline string is
    one of the accepted forms of a date of the calendar (years 1 to 9999):
    a year of four digits, ['-'], the month with one or two digits, ['-'],
    the day with one or two digits, or a space and one digit. The task then
    has that date and is not completed. Any other string raises
    [ValueError] and gives no task. The strict form YYYY-MM-DD is among the
    accepted ones. *)
Theorem init_accepts_iff (title description category : string) (priority : Z)
    (deadline assigned_user : string) :
  (∀ t, Task.init title description category priority deadline assigned_user
        = inr t ↔
        ∃ y m d, Datetime.valid_date y m d = true
                 ∧ deadline ∈ accepted_forms y m d
                 ∧ t = Task.mk title description category priority
                               (Datetime.midnight y m d) false assigned_user)
  ∧ (∀ e, Task.init title description category priority deadline assigned_user
          = inl e → e = ValueError)
  ∧ (strict_form deadline = true →
     returns (Task.init title description category priority deadline
                        assigned_user)).
Proof.
  unfold Task.init. split; [|split].
  - intros t. split.
    + intros (dl & Hdl & [= <-])%bind_inr.
      apply strptime_inv in Hdl as (y & m & d & Hv & Hs & ->).
      by exists y, m, d.
    + intros (y & m & d & Hv & Hs & ->). by rewrite (strptime_accepted y m d).
  - intros e [H|(dl & _ & H)]%bind_inl; [by eapply strptime_raises|done].
  - intros (y & m & d & Hv & Hs)%strict_form_accepted.
    rewrite (strptime_accepted y m d) by done. by eexists.
Qed.

(** A deadline in the strict form. *)
Lemma sample_strict_deadline_is_accepted :
  returns (Task.init "Pay rent" "" "Bills" 1 "2099-01-01" "alice").
Proof.
  apply (proj2 (proj2 (init_accepts_iff "Pay rent" "" "Bills" 1 "2099-01-01"
                         "alice"))).
  reflexivity.
Defined.

(** C5. One scan cycle. For a valid [now] and tasks as the constructor builds
    them, the cycle ends normally and the list of reminders then holds, in
    the order of the tasks, the line "Task '<title>' has a deadline within
    24 hours!" of each task that is not completed and whose deadline is
    strictly after [now] and strictly before [now] plus 24 hours, and
    nothing else, whatever it held before: a deadline equal to [now] or to
    [now] plus 24 hours is left out, and so is every completed task. The
    other fields of the manager are as before. *)
Theorem scan_reminds_iff_due_within_24h (now : Datetime.t)
    (self : TaskManager.t) (env : Env) :
  Datetime.valid now = true →
  (∀ l, l ∈ tasks self → Task.wf (obj env l) = true) →
  (∃ after,
     check_upcoming_deadlines now self env = (after, None)
     ∧ upcoming_reminders after =
         (λ task, "Task '" +:+ Task.title task
                  +:+ "' has a deadline within 24 hours!")
           <$> filter (λ task, within_24h now task = true)
                      (obj env <$> tasks self)
     ∧ tasks after = tasks self ∧ file_path after = file_path self
     ∧ notification_active after = notification_active self)
  ∧ ∀ task, within_24h now task = true ↔
      Task.completed task = false
      ∧ timestamp now < timestamp (Task.deadline task)
      ∧ timestamp (Task.deadline task) < timestamp now + hours_24.
Proof.
  intros Hnow Hwf. split.
  - unfold check_upcoming_deadlines. rewrite scan_loop_spec by done.
    eexists. split; [done|]. by split_and!.
  - intros task. unfold within_24h.
    rewrite !andb_true_iff, negb_true_iff, !Z.ltb_lt. tauto.
Qed.

(** At 00:01 the two open tasks due at the next midnight are 23 h 59 min
    away and get a reminder; at 00:00 they are 24 hours away and get none.
    The completed task and the task due in 2099 never do, and the reminder
    that was in the list is gone. *)
Lemma sample_scans_at_the_boundary :
  ∃ after after',
    check_upcoming_deadlines Sample.now Sample.manager Sample.env
    = (after, None)
    ∧ upcoming_reminders after =
        ["Task 'Buy milk' has a deadline within 24 hours!";
         "Task 'PAY RENT' has a deadline within 24 hours!"]
    ∧ tasks after = [1%positive; 2%positive; 3%positive; 4%positive]
    ∧ check_upcoming_deadlines Sample.now_midnight Sample.manager Sample.env
      = (after', None)
    ∧ upcoming_reminders after' = []
    ∧ upcoming_reminders Sample.manager = ["stale reminder"].
Proof.
  assert (∀ l, l ∈ tasks Sample.manager → Task.wf (obj Sample.env l) = true)
    as Hwf.
  { intros l Hl. vm_compute in Hl.
    repeat (apply elem_of_cons in Hl as [->|Hl]; [reflexivity|]).
    by apply elem_of_nil in Hl. }
  destruct (proj1 (scan_reminds_iff_due_within_24h Sample.now Sample.manager
                     Sample.env eq_refl Hwf))
    as (after & Hrun & Hrem & Htasks & _).
  destruct (proj1 (scan_reminds_iff_due_within_24h Sample.now_midnight
                     Sample.manager Sample.env eq_refl Hwf))
    as (after' & Hrun' & Hrem' & _).
  exists after, after'. split_and!.
  - exact Hrun.
  - exact Hrem.
  - exact Htasks.
  - exact Hrun'.
  - exact Hrem'.
  - reflexivity.
Defined.

(** C6. First match only. When the task at index [i] is the first whose
    title equals [title] without regard to case, [mark_task_as_completed]
    sets the completed flag of that object, keeps its other fields and
    changes no other object and not the list; [delete_task] takes the entry
    at index [i] out of the list, keeps the other entries in their order,
    later tasks with the same title included, and changes no object. Both
    rewrite the file once. *)
Theorem first_match_only (title : string) (self : TaskManager.t) (env : Env)
    (i : nat) (l : loc) :
  tasks self !! i = Some l →
  equal_ignoring_case (Task.title (obj env l)) title = true →
  (∀ j l', (j < i)%nat → tasks self !! j = Some l' →
           equal_ignoring_case (Task.title (obj env l')) title = false) →
  (∃ env', mark_task_as_completed title self env = (self, env')
     ∧ objs env' =
         <[l := Task.mk (Task.title (obj env l)) (Task.description (obj env l))
                        (Task.category (obj env l)) (Task.priority (obj env l))
                        (Task.deadline (obj env l)) true
                        (Task.assigned_user (obj env l))]> (objs env)
     ∧ fs_writes env' = S (fs_writes env))
  ∧ (∃ self' env', delete_task title self env = inr (self', env')
     ∧ tasks self' = take i (tasks self) ++ drop (S i) (tasks self)
     ∧ file_path self' = file_path self
     ∧ notification_active self' = notification_active self
     ∧ upcoming_reminders self' = upcoming_reminders self
     ∧ objs env' = objs env
     ∧ fs_writes env' = S (fs_writes env)).
Proof.
  intros Hi Hm%lower_equal_ignoring_case Hno.
  assert (first_match title env (tasks self) i l) as Hf.
  { split; [done|]. split; [done|]. intros j l' Hj Hl'.
    apply lower_differs. by apply (Hno j). }
  split.
  - unfold mark_task_as_completed. rewrite (mark_loop_first _ _ _ _ i l Hf).
    by eexists.
  - unfold delete_task. rewrite (find_to_remove_first _ _ _ i l Hf).
    rewrite (list_remove_first title env _ i l Hf). cbn [bind ret].
    eexists _, _. split; [done|]. cbn [tasks set_tasks file_path
      notification_active upcoming_reminders].
    split_and!; try done. by rewrite delete_take_drop.
Qed.

(** Two tasks are titled "Pay rent" up to case; only the first is reached. *)
Lemma sample_first_rent_is_reached :
  (∃ env', mark_task_as_completed "pay rent" Sample.manager Sample.env
           = (Sample.manager, env')
     ∧ objs env' =
         <[1%positive := Task.mk "Pay rent" "" "Bills" 1
                                 (Datetime.midnight 2099 1 1) true "alice"]>
           (objs Sample.env)
     ∧ fs_writes env' = 1%nat)
  ∧ (∃ self' env', delete_task "pay rent" Sample.manager Sample.env
                   = inr (self', env')
     ∧ tasks self' = [2%positive; 3%positive; 4%positive]
     ∧ file_path self' = "database.txt"
     ∧ notification_active self' = true
     ∧ upcoming_reminders self' = ["stale reminder"]
     ∧ objs env' = objs Sample.env
     ∧ fs_writes env' = 1%nat).
Proof.
  apply (first_match_only "pay rent" Sample.manager Sample.env 0 1%positive).
  - reflexivity.
  - reflexivity.
  - intros j l' Hj. lia.
Defined.

(** C7. Not found. When no task has the title, compared without case,
    [mark_task_as_completed] and [delete_task] return normally, report
    "Task not found", and change neither the manager, nor any task, nor the
    file, which is not rewritten. *)
Theorem absent_title_changes_nothing (title : string) (self : TaskManager.t)
    (env : Env) :
  (∀ l, l ∈ tasks self →
        Str.lower (Task.title (obj env l)) ≠ Str.lower title) →
  let env' := print ("Task not found: " +:+ title) env in
  mark_task_as_completed title self env = (self, env')
  ∧ delete_task title self env = inr (self, env')
  ∧ objs env' = objs env ∧ fs env' = fs env ∧ fs_writes env' = fs_writes env
  ∧ stdout env' = stdout env ++ ["Task not found: " +:+ title].
Proof.
  intros Hno env'. split_and!; try done.
  - unfold mark_task_as_completed. by rewrite mark_loop_no_match.
  - unfold delete_task. by rewrite find_to_remove_no_match.
Qed.

(** No sample task is titled "Water plants". *)
Lemma sample_absent_title :
  let env' := print ("Task not found: " +:+ "Water plants") Sample.env in
  mark_task_as_completed "Water plants" Sample.manager Sample.env
  = (Sample.manager, env')
  ∧ delete_task "Water plants" Sample.manager Sample.env
    = inr (Sample.manager, env')
  ∧ objs env' = objs Sample.env ∧ fs env' = fs Sample.env
  ∧ fs_writes env' = fs_writes Sample.env
  ∧ stdout env' = stdout Sample.env ++ ["Task not found: " +:+ "Water plants"].
Proof.
  apply (absent_title_changes_nothing "Water plants" Sample.manager Sample.env).
  intros l Hl. vm_compute in Hl.
  repeat (apply elem_of_cons in Hl as [->|Hl]; [by vm_compute|]).
  by apply elem_of_nil in Hl.
Defined.

(** During a cycle over the sample tasks a reader can find one reminder in
    the list: neither the list before the cycle nor the list after it. *)
Lemma reader_sees_half_built_snapshot :
  let seen := ["Task 'Buy milk' has a deadline within 24 hours!"] in
  observable Sample.now Sample.env Sample.manager seen
  ∧ seen ≠ upcoming_reminders Sample.manager
  ∧ seen ≠ upcoming_reminders
             (check_upcoming_deadlines Sample.now Sample.manager Sample.env).1.
Proof.
  split; [|split; [done|by vm_compute]].
  exists (Loop 2, set_reminders
                    ["Task 'Buy milk' has a deadline within 24 hours!"]
                    Sample.manager).
  split; [|done]. unfold reachable.
  do 3 (eapply rtc_l; [by vm_compute|]). apply rtc_refl.
Qed.

(** C8, amended. The snapshot is rebuilt in place. What a reader can find in
    [upcoming_reminders] during a cycle is the list of before the cycle or
    a prefix of the list of after it, the empty list included, and each of
    these can be found; the cycle ends with the list of after. *)
Theorem snapshot_rebuilt_in_place (now : Datetime.t) (env : Env)
    (self : TaskManager.t) :
  let after := check_upcoming_deadlines now self env in
  (∀ seen, observable now env self seen ↔
           seen = upcoming_reminders self
           ∨ seen `prefix_of` upcoming_reminders after.1)
  ∧ reachable now env self
      (match after.2 with None => Finished | Some e => Failed e end, after.1).
Proof.
  intros after. split; [|apply reachable_end].
  intros seen. split.
  - intros (st & Hreach & <-).
    by apply cycle_inv_seen, cycle_inv_reachable.
  - intros [->|Hpre].
    + exists (Start, self). split; [apply rtc_refl|done].
    + destruct (scan_loop_prefixes now env (tasks self) (set_reminders [] self)
                  seen) as (i & s & Hi & Hs & Hseen).
      * apply prefix_nil.
      * done.
      * exists (Loop i, s). split; [|done]. by apply reachable_loop.
Qed.

(** C9. Listing by category. [list_tasks_by_category] builds the display
    rows of the tasks whose category equals the given one without regard to
    case: those tasks, all of them, in the order of the list. The call
    prints them as a table under a title line, or reports that there is
    none, and changes nothing else. *)
Theorem list_by_category_exact (category : string) (self : TaskManager.t)
    (env : Env) :
  let rows :=
    Task.to_row <$>
      filter (λ task, equal_ignoring_case (Task.category task) category = true)
             (obj env <$> tasks self) in
  ∃ idxs : list nat,
    StronglySorted Nat.lt idxs
    ∧ (∀ i, i ∈ idxs ↔
         ∃ l, tasks self !! i = Some l
              ∧ equal_ignoring_case (Task.category (obj env l)) category
                = true)
    ∧ Forall2 (λ i row, ∃ l, tasks self !! i = Some l
                             ∧ row = Task.to_row (obj env l))
              idxs rows
    ∧ ∃ env', list_tasks_by_category category self env = inr env'
        ∧ objs env' = objs env ∧ fs env' = fs env
        ∧ fs_writes env' = fs_writes env
        ∧ (idxs = [] →
           stdout env' =
             stdout env ++ ["No tasks found in category: " +:+ category])
        ∧ (idxs ≠ [] →
           ∃ table,
             format_as_table rows headers = inr table
             ∧ stdout env' =
                 stdout env ++ ["Tasks in category: " +:+ category; table]).
Proof.
  intros rows.
  assert (category_rows category self env = rows) as Hrows.
  { unfold category_rows. subst rows. f_equal. apply list_filter_iff.
    intros task. apply lower_equal_ignoring_case. }
  destruct (filter_positions
              (λ task, equal_ignoring_case (Task.category task) category = true)
              (obj env <$> tasks self)) as (idxs & Hs & Hm & Hf).
  exists idxs. split; [done|]. split; [|split].
  - intros i. rewrite Hm. setoid_rewrite list_lookup_fmap. split.
    + intros (x & Hx & HP). destruct (tasks self !! i) as [l|]; [|done].
      simpl in Hx. simplify_eq. by exists l.
    + intros (l & -> & HP). by eexists.
  - subst rows. apply Forall2_fmap_r.
    eapply Forall2_impl; [exact Hf|]. intros i x Hx. cbv beta in Hx.
    rewrite list_lookup_fmap in Hx. destruct (tasks self !! i) as [l|]; [|done].
    simpl in Hx. simplify_eq. by exists l.
  - destruct (print_rows_spec ("Tasks in category: " +:+ category)
                ("No tasks found in category: " +:+ category)
                (category_rows category self env) env)
      as (env' & Hp & H1 & H2 & H3 & He & Hn).
    { intros row. apply category_rows_width. }
    rewrite Hrows in He, Hn.
    exists env'. split; [done|]. split_and!; try done.
    + intros ->. apply He. subst rows.
      by apply Forall2_nil_inv_l in Hf as ->.
    + intros Hne. apply Hn. subst rows. intros Hnil.
      apply fmap_nil_inv in Hnil. rewrite Hnil in Hf.
      by apply Forall2_nil_inv_r in Hf.
Qed.

(** Asked for "BILLS", the call lists the three sample tasks filed under
    "Bills" and "bills", and not the one filed under "Home". *)
Lemma sample_bills_in_any_case :
  ∃ env' table,
    list_tasks_by_category "BILLS" Sample.manager Sample.env = inr env'
    ∧ format_as_table
        [["Pay rent"; ""; "Bills"; "High"; "2099-01-01"; "alice"; "No"];
         ["PAY RENT"; "second entry"; "bills"; "Medium"; "2024-03-10"; "bob";
          "No"];
         ["Call bank"; ""; "Bills"; "Medium"; "2024-03-10"; "alice"; "Yes"]]
        headers = inr table
    ∧ stdout env' = ["Tasks in category: BILLS"; table].
Proof.
  destruct (list_by_category_exact "BILLS" Sample.manager Sample.env)
    as (idxs & _ & Hm & _ & env' & Hrun & _ & _ & _ & _ & Hsome).
  destruct Hsome as (table & Htable & Hout).
  - intros Hnil. assert (0%nat ∈ idxs) as Hin.
    { apply Hm. exists 1%positive. split; reflexivity. }
    rewrite Hnil in Hin. by apply elem_of_nil in Hin.
  - exists env', table. split; [exact Hrun|]. split; [exact Htable|exact Hout].
Defined.

(** C10. Frame of marking. When some task has the title,
    [mark_task_as_completed] sets the completed flag of the first such task
    and changes nothing else: its other fields are kept, every other task
    is as before, and the list of the manager, hence its length and order,
    is the same. *)
Theorem mark_completed_frame (title : string) (self : TaskManager.t)
    (env : Env) (i : nat) (l : loc) (t : Task.t) :
  tasks self !! i = Some l →
  objs env !! l = Some t →
  Str.lower (Task.title t) = Str.lower title →
  (∀ j l', (j < i)%nat → tasks self !! j = Some l' →
           Str.lower (Task.title (obj env l')) ≠ Str.lower title) →
  ∃ env', mark_task_as_completed title self env = (self, env')
    ∧ objs env' !! l =
        Some (Task.mk (Task.title t) (Task.description t) (Task.category t)
                      (Task.priority t) (Task.deadline t) true
                      (Task.assigned_user t))
    ∧ ∀ l', l' ≠ l → objs env' !! l' = objs env !! l'.
Proof.
  intros Hi Hl Hm Hno.
  assert (obj env l = t) as Hobj by (by apply lookup_total_correct).
  assert (first_match title env (tasks self) i l) as Hf.
  { split; [done|]. split; [by rewrite Hobj|done]. }
  unfold mark_task_as_completed. rewrite (mark_loop_first _ _ _ _ i l Hf).
  eexists. split; [done|].
  cbn [objs print save_tasks_to_file completed_at]. split.
  - by rewrite lookup_insert_eq, Hobj.
  - intros l' Hne. by rewrite lookup_insert_ne.
Qed.

(** Marking "pay rent" on the sample tasks. *)
Lemma sample_marking_rent :
  ∃ env', mark_task_as_completed "pay rent" Sample.manager Sample.env
          = (Sample.manager, env')
    ∧ objs env' !! 1%positive =
        Some (Task.mk "Pay rent" "" "Bills" 1 (Datetime.midnight 2099 1 1)
                      true "alice")
    ∧ ∀ l', l' ≠ 1%positive → objs env' !! l' = objs Sample.env !! l'.
Proof.
  apply (mark_completed_frame "pay rent" Sample.manager Sample.env 0
           1%positive Sample.rent).
  - reflexivity.
  - reflexivity.
  - reflexivity.
  - intros j l' Hj. lia.
Defined.

(** * Further properties *)

Ltac each_member H :=
  vm_compute in H;
  repeat (apply elem_of_cons in H as [->|H]; [|]);
  [..|by apply elem_of_nil in H].

(** ** The file format, one line at a time *)

Lemma contains_app c (a b : string) :
  Str.contains c (a +:+ b) = Str.contains c a || Str.contains c b.
Proof.
  induction a as [|x a IH]; [done|]. rewrite app_cons. simpl.
  by rewrite IH, orb_assoc.
Qed.

Lemma lstrip_app_bar (title r : string) :
  Str.lstrip Str.isspace (title +:+ String "|" r)
  = Str.lstrip Str.isspace title +:+ String "|" r.
Proof.
  induction title as [|c title IH]; [done|]. rewrite app_cons. simpl.
  destruct (Str.isspace c); [done|by rewrite app_cons].
Qed.

Lemma lstrip_contains sp c s :
  Str.contains c s = false → Str.contains c (Str.lstrip sp s) = false.
Proof.
  induction s as [|x s IH]; [done|]. simpl.
  intros [Hx Hs]%orb_false_iff. destruct (sp x); [by apply IH|].
  simpl. by rewrite Hx, Hs.
Qed.

Lemma rstrip_all_space sp w : Str.all sp w = true → Str.rstrip sp w = "".
Proof.
  induction w as [|c w IH]; [done|]. simpl.
  intros [Hc Hw]%andb_true_iff. by rewrite (IH Hw), Hc.
Qed.

Lemma rstrip_tail sp (s : string) e w :
  sp e = false → Str.all sp w = true →
  Str.rstrip sp (s +:+ String e w) = s +:+ String e "".
Proof.
  intros He Hw. induction s as [|c s IH].
  - rewrite !app_empty_l. simpl. by rewrite (rstrip_all_space sp w Hw), He.
  - rewrite !app_cons. simpl. rewrite IH. by destruct s.
Qed.

Lemma rstrip_newline (x : string) e :
  Str.isspace e = false →
  Str.rstrip Str.isspace ((x +:+ String e "") +:+ String newline "")
  = x +:+ String e "".
Proof.
  intros He. rewrite app_assoc_str.
  change (String e "" +:+ String newline "") with (String e (String newline "")).
  by apply rstrip_tail.
Qed.

Lemma to_file_string_last t :
  ∃ x, Task.to_file_string t = x +:+ String "e" "".
Proof.
  exists (Task.title t +:+ "|" +:+ Task.description t +:+ "|"
          +:+ Task.category t +:+ "|" +:+ Str.of_int (Task.priority t) +:+ "|"
          +:+ Datetime.isoformat (Datetime.date (Task.deadline t)) +:+ "|"
          +:+ Task.assigned_user t +:+ "|"
          +:+ (if Task.completed t then "Tru" else "Fals")).
  unfold Task.to_file_string. rewrite !app_assoc_str. by destruct (Task.completed t).
Qed.

Lemma to_file_string_title t :
  Task.to_file_string t =
    Task.title t +:+ String "|"
      (Task.description t +:+ "|" +:+ Task.category t +:+ "|"
       +:+ Str.of_int (Task.priority t) +:+ "|"
       +:+ Datetime.isoformat (Datetime.date (Task.deadline t)) +:+ "|"
       +:+ Task.assigned_user t +:+ "|" +:+ Str.of_bool (Task.completed t)).
Proof. reflexivity. Qed.

Lemma app_cons_mid (a : string) c (b d : string) :
  (a +:+ String c b) +:+ d = a +:+ String c (b +:+ d).
Proof. by rewrite app_assoc_str, app_cons. Qed.

(** What [strip] leaves of a line of the file. *)

Lemma strip_line t :
  Str.strip (Task.to_file_string t +:+ String newline "")
  = Task.to_file_string (with_title (Str.lstrip Str.isspace (Task.title t)) t).
Proof.
  unfold Str.strip.
  assert (Str.lstrip Str.isspace (Task.to_file_string t +:+ String newline "")
          = Task.to_file_string
              (with_title (Str.lstrip Str.isspace (Task.title t)) t)
            +:+ String newline "") as ->.
  { rewrite to_file_string_title, app_cons_mid, lstrip_app_bar.
    by rewrite <- app_cons_mid. }
  destruct (to_file_string_last
              (with_title (Str.lstrip Str.isspace (Task.title t)) t)) as [x ->].
  by apply rstrip_newline.
Qed.

Lemma decode_encoded t :
  Datetime.valid_date (Datetime.year (Task.deadline t))
    (Datetime.month (Task.deadline t)) (Datetime.day (Task.deadline t)) = true →
  Str.contains "|" (Task.title t) = false →
  Str.contains "|" (Task.description t) = false →
  Str.contains "|" (Task.category t) = false →
  Str.contains "|" (Task.assigned_user t) = false →
  Task.from_file_string (Task.to_file_string t) =
    inr (Task.mk (Task.title t) (Task.description t) (Task.category t)
                 (Task.priority t) (Datetime.date (Task.deadline t))
                 (Task.completed t) (Task.assigned_user t)).
Proof.
  intros Hv Ht Hd Hc Hu.
  rewrite (from_file_string_steps _ _ _ _ _ _ _ _ [] (Task.priority t)
             (Datetime.date (Task.deadline t))
             (split_to_file_string t Hv Ht Hd Hc Hu)).
  - by rewrite lower_of_bool.
  - apply int_of_int.
  - by apply strptime_isoformat.
Qed.

(** X1. A line of the file read back. For a task with a valid deadline and no
    ['|'] in its four texts, the line that [save_tasks_to_file] writes,
    stripped as [load_tasks_from_file] strips it, is deserialized into the
    same task with the white space in front of the title removed and the
    time of day of the deadline dropped. *)
Theorem line_read_back (t : Task.t) :
  Datetime.valid (Task.deadline t) = true →
  Str.contains "|" (Task.title t) = false →
  Str.contains "|" (Task.description t) = false →
  Str.contains "|" (Task.category t) = false →
  Str.contains "|" (Task.assigned_user t) = false →
  Task.from_file_string
    (Str.strip (Task.to_file_string t +:+ String newline "")) =
    inr (Task.mk (Str.lstrip Str.isspace (Task.title t)) (Task.description t)
                 (Task.category t) (Task.priority t)
                 (Datetime.date (Task.deadline t)) (Task.completed t)
                 (Task.assigned_user t)).
Proof.
  intros [Hv _]%valid_spec Ht Hd Hc Hu. rewrite strip_line.
  rewrite decode_encoded; [done|done|..|done|done|done].
  by apply lstrip_contains.
Qed.

Lemma padded_line_comes_back_trimmed :
  Task.from_file_string
    (Str.strip (Task.to_file_string Cases.padded +:+ String newline "")) =
    inr (Task.mk "Pay rent" "" "Bills" 1 (Datetime.midnight 2099 1 1) false
                 "alice").
Proof.
  exact (line_read_back Cases.padded eq_refl eq_refl eq_refl eq_refl eq_refl).
Defined.

Lemma storable_spec t :
  storable t = true ↔
    Task.wf t = true
    ∧ plain (Task.title t) = true ∧ plain (Task.description t) = true
    ∧ plain (Task.category t) = true ∧ plain (Task.assigned_user t) = true
    ∧ Str.lstrip Str.isspace (Task.title t) = Task.title t.
Proof.
  unfold storable. rewrite !andb_true_iff, String.eqb_eq. tauto.
Qed.

Lemma plain_spec s :
  plain s = true ↔
    Str.contains "|" s = false ∧ Str.contains newline s = false
    ∧ Str.contains carriage_return s = false.
Proof.
  unfold plain. rewrite !andb_true_iff, !negb_true_iff. tauto.
Qed.

Lemma wf_date t : Task.wf t = true → Datetime.date (Task.deadline t) = Task.deadline t.
Proof.
  intros (_ & Hh & Hm & Hs & Hu)%wf_spec. destruct (Task.deadline t); simpl in *.
  unfold Datetime.date, Datetime.midnight. simpl. congruence.
Qed.

Lemma storable_read_back t :
  storable t = true →
  Task.from_file_string
    (Str.strip (Task.to_file_string t +:+ String newline "")) = inr t.
Proof.
  intros (Hwf & Ht%plain_spec & Hd%plain_spec & Hc%plain_spec & Hu%plain_spec & Hl)%storable_spec.
  pose proof Hwf as (Hv & _)%wf_spec.
  apply valid_spec in Hv as [Hv _]. rewrite strip_line.
  rewrite decode_encoded; [|done|by apply lstrip_contains; tauto|tauto..].
  cbn [with_title Task.title Task.description Task.category Task.priority
       Task.deadline Task.completed Task.assigned_user].
  rewrite Hl, wf_date by done. by destruct t.
Qed.

(** ** Lines of a text *)

Lemma readlines_line (b r : string) :
  Str.contains newline b = false →
  readlines (b +:+ String newline r) = (b +:+ String newline "") :: readlines r.
Proof.
  induction b as [|c b IH].
  - intros _. rewrite !app_empty_l. simpl. done.
  - rewrite !app_cons. simpl. intros [Hc Hb]%orb_false_iff.
    rewrite Hc, (IH Hb). done.
Qed.

Lemma readlines_concat (bodies : list string) :
  Forall (λ b, Str.contains newline b = false) bodies →
  readlines (concat_lines ((λ b, b +:+ String newline "") <$> bodies))
  = (λ b, b +:+ String newline "") <$> bodies.
Proof.
  induction 1 as [|b bodies Hb Hbs IH]; [done|]. csimpl.
  rewrite app_cons_mid, app_empty_l, readlines_line by done. by rewrite IH.
Qed.

Lemma digits_only_no c (s : string) :
  Str.all (λ x, Str.isdigit x || Ascii.eqb x "-") s = true →
  Str.isdigit c || Ascii.eqb c "-" = false → Str.contains c s = false.
Proof. intros. by eapply all_not_contains. Qed.

Lemma of_int_marks n : Str.all (λ x, Str.isdigit x || Ascii.eqb x "-") (Str.of_int n) = true.
Proof.
  unfold Str.of_int. destruct (n <? 0); simpl;
    (eapply all_impl; [|apply digits_all]); by intros c ->.
Qed.

Lemma isoformat_marks dt :
  Datetime.valid_date (Datetime.year dt) (Datetime.month dt) (Datetime.day dt) = true →
  Str.all (λ x, Str.isdigit x || Ascii.eqb x "-") (Datetime.isoformat (Datetime.date dt)) = true.
Proof.
  intros (Hy & Hm & Hd)%valid_date_spec.
  unfold Datetime.isoformat, Datetime.date.
  cbn [Datetime.year Datetime.month Datetime.day Datetime.midnight].
  rewrite !all_app.
  assert (∀ w n, 0 ≤ n →
    Str.all (λ c, Str.isdigit c || Ascii.eqb c "-") (Str.zero_padded w n) = true) as H.
  { intros w n Hn. eapply all_impl; [|by apply zero_padded_all]. by intros c ->. }
  rewrite !H by lia. done.
Qed.

Lemma to_file_string_one_line t :
  Datetime.valid (Task.deadline t) = true →
  Str.contains newline (Task.title t) = false →
  Str.contains newline (Task.description t) = false →
  Str.contains newline (Task.category t) = false →
  Str.contains newline (Task.assigned_user t) = false →
  Str.contains newline (Task.to_file_string t) = false.
Proof.
  intros [Hv _]%valid_spec Ht Hd Hc Hu. unfold Task.to_file_string.
  rewrite !contains_app, Ht, Hd, Hc, Hu.
  rewrite (digits_only_no newline (Str.of_int _)) by (apply of_int_marks || done).
  rewrite (digits_only_no newline (Datetime.isoformat _)) by (by apply isoformat_marks || done).
  by destruct (Task.completed t).
Qed.

(** ** Loading *)

Lemma set_tasks_set_tasks a b self : set_tasks a (set_tasks b self) = set_tasks a self.
Proof. done. Qed.

Lemma load_lines_returns lines vals self env :
  Forall2 (λ line t, Task.from_file_string (Str.strip line) = inr t) lines vals →
  ∃ locs env',
    load_lines lines self env = (set_tasks (tasks self ++ locs) self, env', None)
    ∧ obj env' <$> locs = vals
    ∧ (∀ l, l ∈ dom (objs env) → objs env' !! l = objs env !! l)
    ∧ dom (objs env) ⊆ dom (objs env')
    ∧ Forall (λ l, l ∉ dom (objs env)) locs
    ∧ fs env' = fs env ∧ fs_writes env' = fs_writes env ∧ stdout env' = stdout env.
Proof.
  intros H. revert self env.
  induction H as [|line t lines vals Hline Hrest IH]; intros self env.
  - exists [], env. rewrite app_nil_r. split_and!; try done. by destruct self.
  - simpl. rewrite Hline.
    set (l := fresh (dom (objs env))).
    assert (l ∉ dom (objs env)) as Hfresh by apply is_fresh.
    set (env1 := mk_env (<[l:=t]> (objs env)) (fs env) (fs_writes env) (stdout env)).
    destruct (IH (set_tasks (tasks self ++ [l]) self) env1)
      as (locs & env' & Hload & Hvals & Hold & Hdom & Hnew & Hfs & Hw & Hout).
    exists (l :: locs), env'. rewrite Hload. simpl.
    rewrite set_tasks_set_tasks, <- app_assoc. simpl.
    assert (dom (objs env1) = {[l]} ∪ dom (objs env)) as Hd1.
    { subst env1. simpl. by rewrite dom_insert_L. }
    assert (l ∈ dom (objs env1)) as Hl1
      by (rewrite Hd1; by apply elem_of_union_l, elem_of_singleton).
    assert (∀ l0, l0 ∈ dom (objs env) → l0 ∈ dom (objs env1)) as Hup
      by (intros l0 Hl0; rewrite Hd1; by apply elem_of_union_r).
    split_and!; try done.
    + f_equal; [|done]. unfold obj. apply lookup_total_correct.
      rewrite (Hold l Hl1). subst env1. simpl. by rewrite lookup_insert_eq.
    + intros l0 Hl0. rewrite (Hold l0 (Hup l0 Hl0)).
      subst env1. simpl. rewrite lookup_insert_ne; [done|]. by intros ->.
    + intros l0 Hl0. by apply Hdom, Hup.
    + constructor; [done|]. eapply Forall_impl; [exact Hnew|].
      intros l0 Hl0 Hin. by apply Hl0, Hup.
Qed.

Lemma file_text_lines self env :
  file_text self env =
    concat_lines ((λ b, b +:+ String newline "")
                    <$> (Task.to_file_string <$> (obj env <$> tasks self))).
Proof. unfold file_text. by rewrite <- !list_fmap_compose. Qed.

Lemma save_in_sync self env : in_sync self (save_tasks_to_file self env).
Proof. unfold in_sync, save_tasks_to_file. simpl. by rewrite lookup_insert_eq. Qed.

Lemma storable_one_line t :
  storable t = true → Str.contains newline (Task.to_file_string t) = false.
Proof.
  intros (Hwf & Ht%plain_spec & Hd%plain_spec & Hc%plain_spec & Hu%plain_spec & _)%storable_spec.
  apply wf_spec in Hwf as (Hv & _). apply to_file_string_one_line; tauto.
Qed.

(** X2. Save, then start again. When the backing file holds the tasks of the
    manager and every task is storable (deadline at midnight, texts without
    ['|'] or a line end, no white space in front of the title), a new
    [TaskManager()] loads equal tasks in the same order, leaves the objects
    that exist untouched and does not write the file. *)
Theorem saved_store_reloads (seen : list string) (self : TaskManager.t)
    (env : Env) :
  file_path self = "database.txt" →
  (∀ l, l ∈ tasks self → storable (obj env l) = true) →
  in_sync self env →
  ∃ self' env',
    TaskManager.init seen env = (inr self', env')
    ∧ obj env' <$> tasks self' = obj env <$> tasks self
    ∧ (∀ l, l ∈ dom (objs env) → objs env' !! l = objs env !! l)
    ∧ fs env' = fs env ∧ fs_writes env' = fs_writes env.
Proof.
  intros Hpath Hst Hsync. unfold in_sync in Hsync. rewrite Hpath in Hsync.
  unfold init, load_tasks_from_file. cbn [file_path]. rewrite Hsync.
  rewrite file_text_lines, readlines_concat.
  2:{ rewrite !Forall_fmap. apply Forall_forall. intros l Hl. simpl.
      by apply storable_one_line, Hst. }
  destruct (load_lines_returns
              ((λ b, b +:+ String newline "")
                 <$> (Task.to_file_string <$> (obj env <$> tasks self)))
              (obj env <$> tasks self) (mk [] "database.txt" true []) env)
    as (locs & env' & -> & Hvals & Hold & _ & _ & Hfs & Hw & _).
  { rewrite <- list_fmap_compose. apply Forall2_fmap_l, Forall2_fmap_l.
    apply Forall2_fmap_r. apply Forall_Forall2_diag, Forall_forall.
    intros l Hl. simpl. by apply storable_read_back, Hst. }
  eexists _, env'. split; [done|]. by split_and!.
Qed.

Lemma sample_store_reloads :
  ∃ self' env',
    TaskManager.init Cases.first_scan Cases.env = (inr self', env')
    ∧ obj env' <$> tasks self' = obj Cases.env <$> tasks Sample.manager
    ∧ (∀ l, l ∈ dom (objs Cases.env) →
            objs env' !! l = objs Cases.env !! l)
    ∧ fs env' = fs Cases.env ∧ fs_writes env' = fs_writes Cases.env.
Proof.
  apply (saved_store_reloads Cases.first_scan Sample.manager Cases.env).
  - reflexivity.
  - intros l Hl. each_member Hl; reflexivity.
  - reflexivity.
Defined.

(** ** The file after a mutation *)

Lemma in_sync_print line self env : in_sync self env → in_sync self (print line env).
Proof. done. Qed.

(** X3. The file follows every mutation. After [add_task], after
    [mark_task_as_completed] on a title that is found and after [delete_task]
    on a title that is found, the backing file is the serialization of the
    task list as it then is. *)
Theorem file_follows_mutations (title : string) (self : TaskManager.t)
    (env : Env) (i : nat) (l new : loc) :
  tasks self !! i = Some l →
  Str.lower (Task.title (obj env l)) = Str.lower title →
  (∀ j l', (j < i)%nat → tasks self !! j = Some l' →
           Str.lower (Task.title (obj env l')) ≠ Str.lower title) →
  in_sync (add_task new self env).1 (add_task new self env).2
  ∧ (∃ env', mark_task_as_completed title self env = (self, env')
             ∧ in_sync self env')
  ∧ (∃ self' env', delete_task title self env = inr (self', env')
                   ∧ in_sync self' env').
Proof.
  intros Hi Hm Hno.
  assert (first_match title env (tasks self) i l) as Hf by done.
  split; [apply save_in_sync|]. split.
  - unfold mark_task_as_completed. rewrite (mark_loop_first _ _ _ _ i l Hf).
    eexists. split; [done|]. apply in_sync_print, save_in_sync.
  - unfold delete_task. rewrite (find_to_remove_first _ _ _ i l Hf).
    rewrite (list_remove_first title env _ i l Hf). cbn [bind ret].
    eexists _, _. split; [done|]. apply in_sync_print, save_in_sync.
Qed.

Lemma sample_file_follows :
  in_sync (add_task 2%positive Sample.manager Sample.env).1
          (add_task 2%positive Sample.manager Sample.env).2
  ∧ (∃ env', mark_task_as_completed "pay rent" Sample.manager Sample.env
             = (Sample.manager, env')
             ∧ in_sync Sample.manager env')
  ∧ (∃ self' env', delete_task "pay rent" Sample.manager Sample.env
                   = inr (self', env')
                   ∧ in_sync self' env').
Proof.
  apply (file_follows_mutations "pay rent" Sample.manager Sample.env 0
           1%positive 2%positive).
  - reflexivity.
  - reflexivity.
  - intros j l' Hj. lia.
Defined.

Lemma filter_delete_length {A} (P : A → Prop) `{∀ x, Decision (P x)}
    (l : list A) i x :
  l !! i = Some x → P x →
  (length (filter P (delete i l)) + 1 = length (filter P l))%nat.
Proof.
  revert i. induction l as [|a l IH]; intros i Hi HP; [done|].
  destruct i as [|i]; simpl in Hi.
  - simplify_eq. simpl. rewrite filter_cons, decide_True by done. simpl. lia.
  - simpl. rewrite !filter_cons. destruct (decide (P a)); simpl; rewrite <- (IH i) by done; lia.
Qed.

Lemma filter_nil_no_match title env ts :
  filter (λ l, Str.lower (Task.title (obj env l)) = Str.lower title) ts = [] →
  no_match title env ts.
Proof.
  intros Hnil l Hl Hm.
  assert (l ∈ filter (λ l, Str.lower (Task.title (obj env l)) = Str.lower title) ts) as Hin
    by (by apply list_elem_of_filter).
  rewrite Hnil in Hin. by apply elem_of_nil in Hin.
Qed.

(** X4. Deleting takes one match away. When some task has the title,
    [delete_task] shortens the list by one and leaves one task fewer with
    that title; when it was the only one, deleting the same title again
    reports "Task not found" and changes nothing. *)
Theorem delete_takes_one_match_away (title : string) (self : TaskManager.t)
    (env : Env) (i : nat) (l : loc) :
  tasks self !! i = Some l →
  Str.lower (Task.title (obj env l)) = Str.lower title →
  (∀ j l', (j < i)%nat → tasks self !! j = Some l' →
           Str.lower (Task.title (obj env l')) ≠ Str.lower title) →
  let same_title (ts : list loc) :=
    filter (λ l, Str.lower (Task.title (obj env l)) = Str.lower title) ts in
  ∃ self' env',
    delete_task title self env = inr (self', env')
    ∧ (length (tasks self') + 1 = length (tasks self))%nat
    ∧ (length (same_title (tasks self')) + 1
       = length (same_title (tasks self)))%nat
    ∧ (length (same_title (tasks self)) = 1%nat →
       delete_task title self' env'
       = inr (self', print ("Task not found: " +:+ title) env')).
Proof.
  intros Hi Hm Hno same_title.
  assert (first_match title env (tasks self) i l) as Hf by done.
  unfold delete_task at 1. rewrite (find_to_remove_first _ _ _ i l Hf).
  rewrite (list_remove_first title env _ i l Hf). cbn [bind ret].
  eexists _, _. split; [done|]. cbn [tasks set_tasks].
  assert (length (same_title (delete i (tasks self))) + 1
          = length (same_title (tasks self)))%nat as Hcount.
  { subst same_title. by apply (filter_delete_length _ _ i l). }
  split_and!.
  - rewrite length_delete by eauto. apply lookup_lt_Some in Hi. lia.
  - done.
  - intros Hone. unfold delete_task. cbn [tasks set_tasks].
    rewrite find_to_remove_no_match; [done|].
    apply filter_nil_no_match. apply nil_length_inv.
    change (length (same_title (delete i (tasks self))) = 0%nat). lia.
Qed.

Lemma sample_delete_leaves_second_rent :
  ∃ self' env',
    delete_task "pay rent" Sample.manager Sample.env = inr (self', env')
    ∧ (length (tasks self') + 1 = length (tasks Sample.manager))%nat
    ∧ (length (filter (λ l, Str.lower (Task.title (obj Sample.env l))
                            = Str.lower "pay rent") (tasks self')) + 1
       = length (filter (λ l, Str.lower (Task.title (obj Sample.env l))
                              = Str.lower "pay rent") (tasks Sample.manager)))%nat
    ∧ (length (filter (λ l, Str.lower (Task.title (obj Sample.env l))
                            = Str.lower "pay rent") (tasks Sample.manager))
       = 1%nat →
       delete_task "pay rent" self' env'
       = inr (self', print ("Task not found: " +:+ "pay rent") env')).
Proof.
  apply (delete_takes_one_match_away "pay rent" Sample.manager Sample.env 0
           1%positive).
  - reflexivity.
  - reflexivity.
  - intros j l' Hj. lia.
Defined.

Lemma obj_print line env l : obj (print line env) l = obj env l.
Proof. done. Qed.

Lemma obj_save self env l : obj (save_tasks_to_file self env) l = obj env l.
Proof. done. Qed.

Lemma obj_completed_at l env l' :
  obj (completed_at l env) l' =
    if decide (l' = l) then Task.mark_as_completed (obj env l) else obj env l'.
Proof.
  unfold obj, completed_at. simpl. destruct (decide (l' = l)) as [->|Hne].
  - by rewrite lookup_total_insert_eq.
  - by rewrite lookup_total_insert_ne.
Qed.

Lemma title_completed_at l env l' :
  Task.title (obj (completed_at l env) l') = Task.title (obj env l').
Proof. rewrite obj_completed_at. by destruct (decide (l' = l)) as [->|]. Qed.

(** X5. Marking again. A second [mark_task_as_completed] with the same title
    finds the same task, changes no task and leaves the file content as it
    is, but rewrites the file and prints the message once more. *)
Theorem marking_twice (title : string) (self : TaskManager.t) (env : Env)
    (i : nat) (l : loc) :
  tasks self !! i = Some l →
  Str.lower (Task.title (obj env l)) = Str.lower title →
  (∀ j l', (j < i)%nat → tasks self !! j = Some l' →
           Str.lower (Task.title (obj env l')) ≠ Str.lower title) →
  ∃ env1 env2,
    mark_task_as_completed title self env = (self, env1)
    ∧ mark_task_as_completed title self env1 = (self, env2)
    ∧ objs env2 = objs env1 ∧ fs env2 = fs env1
    ∧ fs_writes env2 = S (fs_writes env1)
    ∧ stdout env2 =
        stdout env1 ++ ["Task marked as completed: " +:+ Task.title (obj env l)].
Proof.
  intros Hi Hm Hno.
  assert (first_match title env (tasks self) i l) as Hf by done.
  set (env1 := print ("Task marked as completed: " +:+ Task.title (obj env l))
                    (save_tasks_to_file self (completed_at l env))).
  assert (∀ l', Task.title (obj env1 l') = Task.title (obj env l')) as Htitle.
  { intros l'. subst env1. rewrite obj_print, obj_save. apply title_completed_at. }
  assert (first_match title env1 (tasks self) i l) as Hf1.
  { split; [done|]. split; [by rewrite Htitle|].
    intros j l' Hj Hl'. rewrite Htitle. by apply (Hno j). }
  assert (obj env1 l = Task.mark_as_completed (obj env l)) as Hl1.
  { subst env1. rewrite obj_print, obj_save, obj_completed_at.
    by rewrite decide_True. }
  assert (objs (completed_at l env1) = objs env1) as Hobjs.
  { unfold completed_at. cbn [objs]. rewrite Hl1. subst env1.
    cbn [objs print save_tasks_to_file completed_at].
    by rewrite insert_insert_eq. }
  exists env1. eexists. unfold mark_task_as_completed.
  rewrite (mark_loop_first _ _ _ _ i l Hf), (mark_loop_first _ _ _ _ i l Hf1).
  split; [done|]. split; [done|].
  cbn [objs fs fs_writes stdout print save_tasks_to_file].
  split_and!.
  - exact Hobjs.
  - unfold obj. rewrite Hobjs. subst env1.
    cbn [fs objs print save_tasks_to_file completed_at].
    by rewrite insert_insert_eq.
  - done.
  - by rewrite Htitle.
Qed.

Lemma sample_marking_rent_twice :
  ∃ env1 env2,
    mark_task_as_completed "pay rent" Sample.manager Sample.env
    = (Sample.manager, env1)
    ∧ mark_task_as_completed "pay rent" Sample.manager env1
      = (Sample.manager, env2)
    ∧ objs env2 = objs env1 ∧ fs env2 = fs env1
    ∧ fs_writes env2 = S (fs_writes env1)
    ∧ stdout env2 =
        stdout env1 ++ ["Task marked as completed: "
                        +:+ Task.title (obj Sample.env 1%positive)].
Proof.
  apply (marking_twice "pay rent" Sample.manager Sample.env 0 1%positive).
  - reflexivity.
  - reflexivity.
  - intros j l' Hj. lia.
Defined.

(** ** Listing, scanning and loading *)

(** X6. [list_tasks] never raises and changes neither a task nor the file:
    with no task it prints "No tasks available.", otherwise it prints one
    table with the row of every task. *)
Theorem list_tasks_prints_every_task (self : TaskManager.t) (env : Env) :
  ∃ env', list_tasks self env = inr env'
    ∧ objs env' = objs env ∧ fs env' = fs env ∧ fs_writes env' = fs_writes env
    ∧ (tasks self = [] → stdout env' = stdout env ++ ["No tasks available."])
    ∧ (tasks self ≠ [] →
       ∃ table,
         format_as_table ((λ l, Task.to_row (obj env l)) <$> tasks self) headers
         = inr table
         ∧ stdout env' = stdout env ++ [table]).
Proof.
  unfold list_tasks. destruct (tasks self) as [|l ts] eqn:Hts.
  - eexists. split; [done|]. by split_and!.
  - destruct (format_as_table_returns
                ((λ l, Task.to_row (obj env l)) <$> l :: ts) headers) as [table Ht].
    { by intros row (l' & -> & _)%list_elem_of_fmap. }
    rewrite Ht. eexists. split; [done|]. split_and!; try done.
    intros _. by exists table.
Qed.

(** X7. [list_tasks_by_priority] selects exactly the tasks whose priority
    equals the argument, in the order of the list, never raises and changes
    neither a task nor the file: it prints the "No tasks found" message with
    the number when none is selected, otherwise the title line with the name
    of the priority and the table of the selected rows. *)
Theorem list_by_priority_exact (priority : Z) (self : TaskManager.t) (env : Env) :
  ∃ idxs : list nat,
    StronglySorted Nat.lt idxs
    ∧ (∀ i, i ∈ idxs ↔
         ∃ l, tasks self !! i = Some l ∧ Task.priority (obj env l) = priority)
    ∧ Forall2 (λ i row, ∃ l, tasks self !! i = Some l
                             ∧ row = Task.to_row (obj env l))
              idxs (priority_rows priority self env)
    ∧ ∃ env', list_tasks_by_priority priority self env = inr env'
        ∧ objs env' = objs env ∧ fs env' = fs env
        ∧ fs_writes env' = fs_writes env
        ∧ (idxs = [] →
           stdout env' =
             stdout env ++ ["No tasks found with priority: "
                            +:+ Str.of_int priority])
        ∧ (idxs ≠ [] →
           ∃ table,
             format_as_table (priority_rows priority self env) headers
             = inr table
             ∧ stdout env' =
                 stdout env ++ ["Tasks with priority: "
                                +:+ Task.priority_str priority; table]).
Proof.
  destruct (filter_positions (λ task, Task.priority task = priority)
              (obj env <$> tasks self)) as (idxs & Hs & Hm & Hf).
  exists idxs. split; [done|]. split; [|split].
  - intros i. rewrite Hm. setoid_rewrite list_lookup_fmap. split.
    + intros (x & Hx & HP). destruct (tasks self !! i) as [l|]; [|done].
      simpl in Hx. simplify_eq. by exists l.
    + intros (l & -> & HP). by eexists.
  - unfold priority_rows. apply Forall2_fmap_r.
    eapply Forall2_impl; [exact Hf|]. intros i x Hx. cbv beta in Hx.
    rewrite list_lookup_fmap in Hx. destruct (tasks self !! i) as [l|]; [|done].
    simpl in Hx. simplify_eq. by exists l.
  - destruct (print_rows_spec ("Tasks with priority: " +:+ Task.priority_str priority)
                ("No tasks found with priority: " +:+ Str.of_int priority)
                (priority_rows priority self env) env)
      as (env' & Hp & H1 & H2 & H3 & He & Hn).
    { unfold priority_rows. by intros row (t & -> & _)%list_elem_of_fmap. }
    exists env'. split; [done|]. split_and!; try done.
    + intros ->. apply He. unfold priority_rows.
      by apply Forall2_nil_inv_l in Hf as ->.
    + intros Hne. apply Hn. unfold priority_rows. intros Hrows.
      apply fmap_nil_inv in Hrows. rewrite Hrows in Hf.
      by apply Forall2_nil_inv_r in Hf.
Qed.

(** X8. A reminder means due tomorrow. Deadlines are dates at midnight, so
    the test of [check_upcoming_deadlines] holds exactly for a task that is
    not completed and whose deadline is the day after [now], unless [now] is
    midnight to the microsecond. *)
Theorem reminder_means_due_tomorrow (now : Datetime.t) (task : Task.t) :
  Datetime.valid now = true → Task.wf task = true →
  due now task =
    inr (negb (Task.completed task)
         && (Datetime.toordinal (Task.deadline task)
             =? Datetime.toordinal now + 1)
         && negb (Datetime.is_midnight now)).
Proof.
  intros Hnow Hwf. rewrite due_within_24h by done. f_equal.
  unfold within_24h. destruct (Task.completed task); [done|]. simpl.
  apply wf_spec in Hwf as (Hdl & Hh & Hmi & Hs & Hus).
  pose proof Hnow as (_ & Bh & Bm & Bs & Bu)%valid_spec.
  unfold timestamp, hours_24, Datetime.is_midnight. rewrite Hh, Hmi, Hs, Hus.
  set (od := Datetime.toordinal (Task.deadline task)).
  set (on := Datetime.toordinal now).
  apply eq_true_iff_eq.
  rewrite !andb_true_iff, !Z.ltb_lt, negb_true_iff, Z.eqb_eq.
  rewrite !andb_false_iff, !Z.eqb_neq. lia.
Qed.

Lemma sample_milk_is_due_tomorrow :
  due Sample.now Sample.milk = inr true
  ∧ due Sample.now_midnight Sample.milk = inr false.
Proof.
  split.
  - exact (reminder_means_due_tomorrow Sample.now Sample.milk eq_refl eq_refl).
  - exact (reminder_means_due_tomorrow Sample.now_midnight Sample.milk
             eq_refl eq_refl).
Defined.

Lemma scan_loop_shape now pending self env :
  ∃ rs, (scan_loop now pending self env).1
        = set_reminders (upcoming_reminders self ++ rs) self
        ∧ (length rs ≤ length pending)%nat.
Proof.
  revert self. induction pending as [|l pending IH]; intros self.
  - exists []. rewrite app_nil_r. split; [by destruct self|done].
  - simpl. destruct (due now (obj env l)) as [e|[]].
    + exists []. rewrite app_nil_r. split; [by destruct self|simpl; lia].
    + destruct (IH (set_reminders (upcoming_reminders self ++ [reminder (obj env l)]) self))
        as (rs & -> & Hlen).
      exists (reminder (obj env l) :: rs). simpl. rewrite <- app_assoc.
      split; [done|lia].
    + destruct (IH self) as (rs & -> & Hlen). exists rs. split; [done|lia].
Qed.

(** X9. A scan touches only the reminders. [check_upcoming_deadlines] leaves
    the task list, the file path and the flag of the manager as they are,
    leaves at most one reminder per task, and its outcome does not depend on
    the reminders that were there before. *)
Theorem scan_touches_only_reminders (now : Datetime.t) (self : TaskManager.t)
    (env : Env) (stale : list string) :
  let after := (check_upcoming_deadlines now self env).1 in
  tasks after = tasks self
  ∧ file_path after = file_path self
  ∧ notification_active after = notification_active self
  ∧ (length (upcoming_reminders after) ≤ length (tasks self))%nat
  ∧ check_upcoming_deadlines now (set_reminders stale self) env
    = check_upcoming_deadlines now self env.
Proof.
  intros after. subst after. unfold check_upcoming_deadlines.
  destruct (scan_loop_shape now (tasks self) (set_reminders [] self) env)
    as (rs & -> & Hlen).
  by split_and!.
Qed.

Lemma load_lines_inv lines self env self' env' :
  load_lines lines self env = (self', env', None) →
  ∃ vals, Forall2 (λ line t, Task.from_file_string (Str.strip line) = inr t)
                  lines vals.
Proof.
  revert self env. induction lines as [|line lines IH]; intros self env.
  - intros _. by exists [].
  - simpl. destruct (Task.from_file_string (Str.strip line)) as [e|t] eqn:Hline; [done|].
    intros (vals & Hvals)%IH. exists (t :: vals). by constructor.
Qed.

Lemma parsed_lines_exist lines :
  (∀ line, line ∈ lines → returns (Task.from_file_string (Str.strip line))) →
  ∃ vals, Forall2 (λ line t, Task.from_file_string (Str.strip line) = inr t)
                  lines vals.
Proof.
  induction lines as [|line lines IH]; intros H; [by exists []|].
  destruct (H line) as [t Ht]; [left|].
  destruct IH as [vals Hvals]; [intros; apply H; by right|].
  exists (t :: vals). by constructor.
Qed.

(** X10. Loading takes every line. When the file exists and every line of
    it is accepted, [TaskManager()] returns a manager with one new object per
    line, in the order of the file, each the deserialization of its stripped
    line; the flag is set, objects that exist are untouched, and nothing is
    written or printed. The reminders are left out: the scanner that the
    constructor has started rewrites them from then on. *)
Theorem load_takes_every_line (seen : list string) (env : Env)
    (content : string) :
  fs env !! "database.txt" = Some content →
  (∀ line, line ∈ readlines content →
           returns (Task.from_file_string (Str.strip line))) →
  ∃ self env',
    TaskManager.init seen env = (inr self, env')
    ∧ Forall2 (λ line l, Task.from_file_string (Str.strip line)
                         = inr (obj env' l))
              (readlines content) (tasks self)
    ∧ file_path self = "database.txt" ∧ notification_active self = true
    ∧ (∀ l, l ∈ dom (objs env) → objs env' !! l = objs env !! l)
    ∧ Forall (λ l, l ∉ dom (objs env)) (tasks self)
    ∧ fs env' = fs env ∧ fs_writes env' = fs_writes env
    ∧ stdout env' = stdout env.
Proof.
  intros Hfile Hall. destruct (parsed_lines_exist _ Hall) as [vals Hvals].
  unfold init, load_tasks_from_file. cbn [file_path]. rewrite Hfile.
  destruct (load_lines_returns (readlines content) vals
              (mk [] "database.txt" true []) env Hvals)
    as (locs & env' & -> & Hobj & Hold & _ & Hnew & Hfs & Hw & Hout).
  eexists _, env'. split; [done|]. cbn [tasks set_tasks app file_path
    notification_active start_notification_thread set_reminders].
  split_and!; try done.
  rewrite <- Hobj in Hvals. by apply Forall2_fmap_r in Hvals.
Qed.

Lemma sample_file_is_taken_whole :
  ∃ self env',
    TaskManager.init Cases.first_scan Cases.env = (inr self, env')
    ∧ Forall2 (λ line l, Task.from_file_string (Str.strip line)
                         = inr (obj env' l))
              (readlines (file_text Sample.manager Sample.env)) (tasks self)
    ∧ file_path self = "database.txt" ∧ notification_active self = true
    ∧ (∀ l, l ∈ dom (objs Cases.env) →
            objs env' !! l = objs Cases.env !! l)
    ∧ Forall (λ l, l ∉ dom (objs Cases.env)) (tasks self)
    ∧ fs env' = fs Cases.env ∧ fs_writes env' = fs_writes Cases.env
    ∧ stdout env' = stdout Cases.env.
Proof.
  apply (load_takes_every_line Cases.first_scan Cases.env
           (file_text Sample.manager Sample.env)).
  - reflexivity.
  - intros line Hl. each_member Hl; eexists; vm_compute; reflexivity.
Defined.

(** X11. A manager that was loaded can be scanned. Every task of a manager
    that [TaskManager()] returned has a date at midnight as its deadline, and
    [check_upcoming_deadlines] raises nothing on it at any valid [now]. *)
Theorem loaded_manager_scans (seen : list string) (env env' : Env)
    (self : TaskManager.t) (now : Datetime.t) :
  TaskManager.init seen env = (inr self, env') →
  Datetime.valid now = true →
  (∀ l, l ∈ tasks self → Task.wf (obj env' l) = true)
  ∧ ∃ after, check_upcoming_deadlines now self env' = (after, None).
Proof.
  intros Hinit Hnow.
  assert (∀ l, l ∈ tasks self → Task.wf (obj env' l) = true) as Hwf.
  { unfold init, load_tasks_from_file in Hinit. cbn [file_path] in Hinit.
    destruct (fs env !! "database.txt") as [content|].
    - destruct (load_lines (readlines content) (mk [] "database.txt" true []) env)
        as [[self1 env1] [e|]] eqn:Hload; [done|].
      injection Hinit as <- <-.
      pose proof (load_lines_inv _ _ _ _ _ Hload) as [vals Hvals].
      destruct (load_lines_returns _ _ (mk [] "database.txt" true []) env Hvals)
        as (locs & env2 & Hload2 & Hobj & _).
      rewrite Hload in Hload2. injection Hload2 as -> ->.
      cbn [tasks set_tasks app]. intros l Hl.
      assert (Forall2 (λ line l, Task.from_file_string (Str.strip line)
                                 = inr (obj env2 l)) (readlines content) locs) as HF.
      { rewrite <- Hobj in Hvals. by apply Forall2_fmap_r in Hvals. }
      apply list_elem_of_lookup in Hl as [i Hi].
      destruct (Forall2_lookup_r _ _ _ _ _ HF Hi) as (line & _ & Hline).
      by eapply from_file_string_wf.
    - injection Hinit as <- <-. by intros l ?%elem_of_nil. }
  split; [done|]. unfold check_upcoming_deadlines.
  rewrite scan_loop_spec by done. by eexists.
Qed.

Lemma sample_restart_scans :
  (∀ l, l ∈ tasks Cases.manager →
        Task.wf (obj (TaskManager.init Cases.first_scan Cases.env).2 l) = true)
  ∧ ∃ after, check_upcoming_deadlines Sample.now Cases.manager
               (TaskManager.init Cases.first_scan Cases.env).2 = (after, None).
Proof.
  apply (loaded_manager_scans Cases.first_scan Cases.env
           (TaskManager.init Cases.first_scan Cases.env).2
           Cases.manager Sample.now).
  - vm_compute. reflexivity.
  - reflexivity.
Defined.

(** ** The delimiter inside a field *)

Lemma str_length_app (a b : string) :
  String.length (a +:+ b) = (String.length a + String.length b)%nat.
Proof. induction a as [|c a IH]; [done|]. rewrite app_cons. simpl. by rewrite IH. Qed.

Lemma app_longer (a : string) c b : a ≠ a +:+ String c b.
Proof.
  intros H. apply (f_equal String.length) in H.
  rewrite str_length_app in H. simpl in H. lia.
Qed.

Lemma contains_cut c s :
  Str.contains c s = true →
  ∃ a b, s = a +:+ String c b ∧ Str.contains c a = false.
Proof.
  induction s as [|x s IH]; [done|]. simpl.
  destruct (Ascii.eqb_spec x c) as [->|Hne]; simpl.
  - intros _. by exists "", s.
  - intros (a & b & -> & Ha)%IH. exists (String x a), b. split; [done|].
    simpl. rewrite Ha, orb_false_r. by apply Ascii.eqb_neq.
Qed.

Lemma from_file_string_fields line t :
  Task.from_file_string line = inr t →
  ∃ p0 p1 p2 p3 p4 p5 p6 extra,
    Str.split "|" line = p0 :: p1 :: p2 :: p3 :: p4 :: p5 :: p6 :: extra
    ∧ Task.title t = p0 ∧ Task.description t = p1 ∧ Task.category t = p2
    ∧ Task.assigned_user t = p5.
Proof.
  unfold Task.from_file_string, Task.init.
  destruct (Str.split "|" line) as [|p0 [|p1 [|p2 [|p3 [|p4 [|p5 [|p6 extra]]]]]]];
    cbn [getitem lookup list_lookup bind ret raise]; try done.
  all: destruct (Str.int p3) as [e3|n]; cbn [bind]; try done.
  all: destruct (Strptime.strptime p4) as [e4|dl]; cbn [bind ret]; try done.
  intros H. exists p0, p1, p2, p3, p4, p5, p6, extra. split; [done|].
  destruct (String.eqb (Str.lower p6) "true"); by injection H as <-.
Qed.

Lemma split_cut (a b r : string) :
  Str.contains "|" a = false →
  ∃ rest, Str.split "|" ((a +:+ String "|" b) +:+ r) = a :: rest.
Proof. intros Ha. rewrite app_cons_mid, split_app by done. by eexists. Qed.

(** X12. A delimiter is not read back. When the title, the description, the
    category or the assigned user of a task holds ['|'], the line of the
    task, if it is deserialized at all, gives a task that differs from it in
    one of these four texts. *)
Theorem delimiter_is_not_read_back (t t' : Task.t) :
  Datetime.valid (Task.deadline t) = true →
  Str.contains "|" (Task.title t) || Str.contains "|" (Task.description t)
  || Str.contains "|" (Task.category t)
  || Str.contains "|" (Task.assigned_user t) = true →
  Task.from_file_string (Task.to_file_string t) = inr t' →
  Task.title t' ≠ Task.title t ∨ Task.description t' ≠ Task.description t
  ∨ Task.category t' ≠ Task.category t
  ∨ Task.assigned_user t' ≠ Task.assigned_user t.
Proof.
  intros [Hv _]%valid_spec Hbar
    (p0 & p1 & p2 & p3 & p4 & p5 & p6 & extra & Hsplit & -> & -> & -> & ->)%from_file_string_fields.
  unfold Task.to_file_string in Hsplit.
  repeat match type of Hsplit with
  | context [ "|" +:+ ?x ] => change ("|" +:+ x) with (String "|" x) in Hsplit
  end.
  destruct (Str.contains "|" (Task.title t)) eqn:Ht.
  { apply contains_cut in Ht as (a & b & Ht & Ha). left.
    rewrite Ht in Hsplit |- *.
    rewrite app_cons_mid, split_app in Hsplit by done.
    injection Hsplit as <-. apply app_longer. }
  rewrite split_app in Hsplit by done.
  destruct (Str.contains "|" (Task.description t)) eqn:Hd.
  { apply contains_cut in Hd as (a & b & Hd & Ha). right. left.
    rewrite Hd in Hsplit |- *.
    rewrite app_cons_mid, split_app in Hsplit by done.
    injection Hsplit as _ <-. apply app_longer. }
  rewrite split_app in Hsplit by done.
  destruct (Str.contains "|" (Task.category t)) eqn:Hc.
  { apply contains_cut in Hc as (a & b & Hc & Ha). right. right. left.
    rewrite Hc in Hsplit |- *.
    rewrite app_cons_mid, split_app in Hsplit by done.
    injection Hsplit as _ _ <-. apply app_longer. }
  rewrite split_app in Hsplit by done.
  rewrite split_app in Hsplit by apply of_int_no_bar.
  rewrite split_app in Hsplit by (by apply isoformat_no_bar).
  simpl in Hbar. apply contains_cut in Hbar as (a & b & Hu & Ha).
  right. right. right. rewrite Hu in Hsplit |- *.
  rewrite app_cons_mid, split_app in Hsplit by done.
  injection Hsplit as _ _ _ _ _ <-. apply app_longer.
Qed.

Lemma sample_bars_shift_the_fields :
  Task.title (Task.mk "a" "b" "c" 5 (Datetime.midnight 2024 1 1) false "1")
    ≠ Task.title Cases.barred
  ∨ Task.description
      (Task.mk "a" "b" "c" 5 (Datetime.midnight 2024 1 1) false "1")
    ≠ Task.description Cases.barred
  ∨ Task.category
      (Task.mk "a" "b" "c" 5 (Datetime.midnight 2024 1 1) false "1")
    ≠ Task.category Cases.barred
  ∨ Task.assigned_user
      (Task.mk "a" "b" "c" 5 (Datetime.midnight 2024 1 1) false "1")
    ≠ Task.assigned_user Cases.barred.
Proof.
  apply (delimiter_is_not_read_back Cases.barred
           (Task.mk "a" "b" "c" 5 (Datetime.midnight 2024 1 1) false "1")).
  - reflexivity.
  - reflexivity.
  - reflexivity.
Defined.

Example delimiter_sample :
  Task.from_file_string
    (Task.to_file_string
       (Task.mk "a|b|c" "5" "2024-01-01" 1 (Datetime.midnight 2099 1 1) false "alice"))
  = inr (Task.mk "a" "b" "c" 5 (Datetime.midnight 2024 1 1) false "1").
Proof. reflexivity. Qed.

(** ** The table *)

Lemma mapM_Forall2 {A B} (f : A → result B) (l : list A) ys :
  mapM f l = inr ys → Forall2 (λ x y, f x = inr y) l ys.
Proof.
  revert ys. induction l as [|x l IH]; intros ys; simpl.
  - intros [= <-]. constructor.
  - intros (y & Hy & (ys' & Hys & [= <-])%bind_inr)%bind_inr.
    constructor; [done|by apply IH].
Qed.

Lemma replicate_length n c : String.length (Str.replicate n c) = n.
Proof. induction n as [|n IH]; [done|]. simpl. by rewrite IH. Qed.

Lemma join_length sep1 sep2 xs ys :
  String.length sep1 = String.length sep2 →
  Forall2 (λ a b, String.length a = String.length b) xs ys →
  String.length (Str.join sep1 xs) = String.length (Str.join sep2 ys).
Proof.
  intros Hsep H. induction H as [|x y xs ys Hxy H IH]; [done|].
  destruct H as [|x' y' xs ys Hxy' H]; [done|].
  change (Str.join sep1 (x :: x' :: xs)) with (x +:+ sep1 +:+ Str.join sep1 (x' :: xs)).
  change (Str.join sep2 (y :: y' :: ys)) with (y +:+ sep2 +:+ Str.join sep2 (y' :: ys)).
  rewrite !str_length_app, IH. lia.
Qed.

Lemma foldl_max_ge x l : x ≤ foldl Z.max x l ∧ ∀ v, v ∈ l → v ≤ foldl Z.max x l.
Proof.
  revert x. induction l as [|a l IH]; intros x; simpl.
  - split; [lia|]. by intros v ?%elem_of_nil.
  - destruct (IH (Z.max x a)) as [H1 H2]. split; [lia|].
    intros v [->|Hv]%elem_of_cons; [lia|by apply H2].
Qed.

Lemma max_of_ge ws w v : max_of ws = inr w → v ∈ ws → v ≤ w.
Proof.
  destruct ws as [|x l]; [done|]. intros [= <-].
  destruct (foldl_max_ge x l) as [H1 H2].
  intros [->|Hv]%elem_of_cons; [done|by apply H2].
Qed.

Lemma getitem_Some {A} (l : list A) i x : getitem l i = inr x ↔ l !! i = Some x.
Proof.
  unfold getitem, ret, raise. destruct (l !! i); split; intros H;
    congruence.
Qed.

(** The width of column [i] is at least the length of every cell of it. *)

Lemma column_width_bound (rows : list (list string)) i w row x :
  (do ws <- mapM (λ row, do x <- getitem row i; ret (Str.len x)) rows;
   max_of ws) = inr w →
  row ∈ rows → row !! i = Some x → Str.len x ≤ w.
Proof.
  intros (ws & Hws & Hmax)%bind_inr Hrow Hx.
  apply mapM_Forall2 in Hws. apply list_elem_of_lookup in Hrow as [k Hk].
  destruct (Forall2_lookup_l _ _ _ _ _ Hws Hk) as (v & Hv & Hcell).
  apply (max_of_ge ws w); [done|].
  apply getitem_Some in Hx. rewrite Hx in Hcell. cbn [bind ret] in Hcell.
  injection Hcell as <-. by eapply list_elem_of_lookup_2.
Qed.

Lemma foldl_max_in x l : foldl Z.max x l ∈ x :: l.
Proof.
  revert x. induction l as [|a l IH]; intros x; simpl; [left|].
  pose proof (IH (Z.max x a)) as [Heq|Hin]%elem_of_cons.
  - rewrite Heq. destruct (Z.max_spec x a) as [[_ ->]|[_ ->]].
    + right. left.
    + left.
  - right. by right.
Qed.

Lemma max_of_in ws w : max_of ws = inr w → w ∈ ws.
Proof.
  destruct ws as [|x l]; [done|]. intros [= <-]. apply foldl_max_in.
Qed.

(** The width of column [i] is the length of one of its cells. *)
Lemma column_width_attained (rows : list (list string)) i w :
  (do ws <- mapM (λ row, do x <- getitem row i; ret (Str.len x)) rows;
   max_of ws) = inr w →
  ∃ row x, row ∈ rows ∧ row !! i = Some x ∧ Str.len x = w.
Proof.
  intros (ws & Hws & Hmax%max_of_in)%bind_inr.
  apply mapM_Forall2 in Hws. apply list_elem_of_lookup in Hmax as [k Hk].
  destruct (Forall2_lookup_r _ _ _ _ _ Hws Hk) as (row & Hrow & Hcell).
  cbv beta in Hcell.
  apply bind_inr in Hcell as (x & Hx%getitem_Some & [= <-]).
  exists row, x. split; [by eapply list_elem_of_lookup_2|done].
Qed.

Lemma Forall2_fmap_eq {A B} (f : A → B) (l : list A) (k : list B) :
  Forall2 (λ x y, y = f x) l k → k = f <$> l.
Proof. induction 1 as [|x y l k -> _ ->]; by csimpl. Qed.

(** The cells of a line, padded to the widths of their columns. *)
Lemma cells_padded (widths : list Z) (row : list string) n cells :
  length row = n → length widths = n →
  Forall2 (λ i c, ljust_cell widths row i = inr c) (seq 0 n) cells →
  cells = zip_with (λ w x, x +:+ Str.replicate (Z.to_nat (w - Str.len x)) " ")
                   widths row.
Proof.
  intros Hrow Hwidths Hcells. apply list_eq. intros i.
  pose proof (Forall2_length _ _ _ Hcells) as Hlen. rewrite length_seq in Hlen.
  destruct (decide (i < n)%nat) as [Hi|Hi].
  - assert (seq 0 n !! i = Some i) as Hseq by (apply lookup_seq; lia).
    destruct (Forall2_lookup_l _ _ _ _ _ Hcells Hseq) as (c & -> & Hc).
    unfold ljust_cell in Hc.
    apply bind_inr in Hc as (x & Hx%getitem_Some
                               & (w & Hw%getitem_Some & [= <-])%bind_inr).
    rewrite lookup_zip_with, Hw. simpl. by rewrite Hx.
  - rewrite !lookup_ge_None_2; [done|rewrite length_zip_with; lia|lia].
Qed.

Lemma rule_cells_dashes (widths : list Z) n cells :
  length widths = n →
  Forall2 (λ i c, (do w <- getitem widths i;
                   ret (Str.replicate (Z.to_nat w) "-")) = inr c)
          (seq 0 n) cells →
  cells = (λ w, Str.replicate (Z.to_nat w) "-") <$> widths.
Proof.
  intros Hwidths Hcells. apply list_eq. intros i.
  pose proof (Forall2_length _ _ _ Hcells) as Hlen. rewrite length_seq in Hlen.
  destruct (decide (i < n)%nat) as [Hi|Hi].
  - assert (seq 0 n !! i = Some i) as Hseq by (apply lookup_seq; lia).
    destruct (Forall2_lookup_l _ _ _ _ _ Hcells Hseq) as (c & -> & Hc).
    apply bind_inr in Hc as (w & Hw%getitem_Some & [= <-]).
    by rewrite list_lookup_fmap, Hw.
  - rewrite !lookup_ge_None_2; [done|rewrite length_fmap; lia|lia].
Qed.

(** A line of padded cells is as long as the rule. *)
Lemma padded_line_length (widths : list Z) (row : list string) :
  length row = length widths →
  (∀ i w x, widths !! i = Some w → row !! i = Some x → Str.len x ≤ w) →
  String.length
    (Str.join " | "
       (zip_with (λ w x, x +:+ Str.replicate (Z.to_nat (w - Str.len x)) " ")
                 widths row))
  = String.length
      (Str.join "-+-" ((λ w, Str.replicate (Z.to_nat w) "-") <$> widths)).
Proof.
  intros Hlen Hle. apply join_length; [done|].
  revert row Hlen Hle. induction widths as [|w widths IH]; intros row Hlen Hle.
  - constructor.
  - destruct row as [|x row]; [done|]. csimpl. constructor.
    + rewrite str_length_app, !replicate_length.
      pose proof (Hle 0%nat w x eq_refl eq_refl) as H. unfold Str.len in *. lia.
    + apply IH; [simpl in Hlen; lia|].
      intros i w' x' Hw Hx. by apply (Hle (S i)).
Qed.

(** X13. The table is aligned. For rows as long as the header there are
    column widths, one per header cell, each the greatest length of the
    cells of its column, the header cell included, such that
    [format_as_table] returns these lines joined by newlines: the header
    cells, each followed by spaces up to the width of its column, joined by
    " | "; the rule, as many dashes as each width, joined by "-+-"; and one
    line per row, in order, built as the header line is. The header line
    and every row line are as long as the rule. *)
Theorem table_is_aligned (rows : list (list string)) (headers : list string) :
  (∀ row, row ∈ rows → length row = length headers) →
  ∃ widths : list Z,
    length widths = length headers
    ∧ (∀ i w, widths !! i = Some w →
         (∀ row x, row ∈ rows ++ [headers] → row !! i = Some x →
                   Str.len x ≤ w)
         ∧ ∃ row x, row ∈ rows ++ [headers] ∧ row !! i = Some x
                    ∧ Str.len x = w)
    ∧ let line (row : list string) :=
        Str.join " | "
          (zip_with (λ w x, x +:+ Str.replicate (Z.to_nat (w - Str.len x)) " ")
                    widths row) in
      let rule :=
        Str.join "-+-" ((λ w, Str.replicate (Z.to_nat w) "-") <$> widths) in
      format_as_table rows headers =
        inr (Str.join (String newline "")
               (line headers :: rule :: (line <$> rows)))
      ∧ Forall (λ row, String.length (line row) = String.length rule)
               (headers :: rows).
Proof.
  intros Hrows. unfold format_as_table.
  set (n := length headers).
  set (width_of := λ i : nat,
         do ws <- mapM (λ row : list string, do x <- getitem row i; ret (Str.len x))
                       (rows ++ [headers]);
         max_of ws).
  destruct (mapM width_of (seq 0 n)) as [e|widths] eqn:Hcw.
  { exfalso. destruct (format_as_table_returns rows headers Hrows) as [t Ht].
    unfold format_as_table in Ht. fold n in Ht. fold width_of in Ht.
    by rewrite Hcw in Ht. }
  cbn [bind].
  destruct (mapM (ljust_cell widths headers) (seq 0 n)) as [e|header_cells] eqn:Hhc.
  { exfalso. destruct (format_as_table_returns rows headers Hrows) as [t Ht].
    unfold format_as_table in Ht. fold n in Ht. fold width_of in Ht.
    rewrite Hcw in Ht. cbn [bind] in Ht. by rewrite Hhc in Ht. }
  cbn [bind].
  set (rule_of := λ i : nat,
         do w <- getitem widths i; ret (Str.replicate (Z.to_nat w) "-")).
  destruct (mapM rule_of (seq 0 n)) as [e|rule_cells] eqn:Hrc.
  { exfalso. destruct (format_as_table_returns rows headers Hrows) as [t Ht].
    unfold format_as_table in Ht. fold n in Ht. fold width_of in Ht.
    rewrite Hcw in Ht. cbn [bind] in Ht. rewrite Hhc in Ht. cbn [bind] in Ht.
    fold rule_of in Ht. by rewrite Hrc in Ht. }
  cbn [bind].
  set (line_of := λ row : list string,
         do cells <- mapM (ljust_cell widths row) (seq 0 (length row));
         ret (Str.join " | " cells)).
  destruct (mapM line_of rows) as [e|row_lines] eqn:Hrl.
  { exfalso. destruct (format_as_table_returns rows headers Hrows) as [t Ht].
    unfold format_as_table in Ht. fold n in Ht. fold width_of in Ht.
    rewrite Hcw in Ht. cbn [bind] in Ht. rewrite Hhc in Ht. cbn [bind] in Ht.
    fold rule_of in Ht. rewrite Hrc in Ht. cbn [bind] in Ht.
    fold line_of in Ht. by rewrite Hrl in Ht. }
  cbn [bind ret].
  apply mapM_Forall2 in Hcw, Hhc, Hrc, Hrl.
  assert (length widths = n) as Hn.
  { apply Forall2_length in Hcw. by rewrite length_seq in Hcw. }
  assert (∀ i w, widths !! i = Some w → width_of i = inr w) as Hwidth.
  { intros i w Hw. destruct (Forall2_lookup_r _ _ _ _ _ Hcw Hw) as (i' & Hi' & H).
    by apply lookup_seq in Hi' as [-> _]. }
  exists widths. split; [done|]. split.
  { intros i w Hw%Hwidth. split.
    - intros row x. by apply column_width_bound.
    - by apply column_width_attained. }
  cbv zeta. split.
  - do 2 f_equal. f_equal; [|f_equal].
    + f_equal. by apply (cells_padded widths headers n).
    + f_equal. by apply (rule_cells_dashes widths n).
    + apply Forall2_fmap_eq. apply Forall2_same_length_lookup.
      split; [by eapply Forall2_length|]. intros k row l Hrow Hline.
      destruct (Forall2_lookup_l _ _ _ _ _ Hrl Hrow) as (l' & Hl' & Hl).
      rewrite Hline in Hl'. injection Hl' as <-. unfold line_of in Hl.
      apply bind_inr in Hl as (cells & Hcells%mapM_Forall2 & [= <-]).
      f_equal. apply list_elem_of_lookup_2 in Hrow.
      apply (cells_padded widths row (length row)); [done| |done].
      by rewrite (Hrows row Hrow).
  - apply Forall_forall. intros row Hrow. apply padded_line_length.
    + apply elem_of_cons in Hrow as [->|Hrow]; [done|].
      by rewrite (Hrows row Hrow).
    + intros i w x Hw%Hwidth Hx.
      apply (column_width_bound (rows ++ [headers]) i w row x); [done| |done].
      apply elem_of_app.
      apply elem_of_cons in Hrow as [->|Hrow]; [right; left|by left].
Qed.

(** Two rows under a header of two cells. *)
Lemma sample_table_is_aligned :
  format_as_table Cases.rows Cases.headers =
    inr ("Title    | Assigned To" +:+ String newline
           ("---------+------------" +:+ String newline
              ("Pay rent | alice      " +:+ String newline
                 "Buy milk | carol      "))).
Proof.
  destruct (table_is_aligned Cases.rows Cases.headers)
    as (widths & Hlen & Hmax & Htable & _).
  { intros row Hrow. vm_compute in Hrow.
    repeat (apply elem_of_cons in Hrow as [->|Hrow]; [reflexivity|]).
    by apply elem_of_nil in Hrow. }
  destruct widths as [|w0 [|w1 [|w2 widths]]]; try discriminate Hlen.
  assert (w0 = 8) as ->.
  { destruct (Hmax 0%nat w0 eq_refl) as [Hub (row & x & Hrow & Hx & Heq)].
    pose proof (Hub ["Pay rent"; "alice"] "Pay rent"
                    (list_elem_of_here _ _) eq_refl) as H8.
    vm_compute in Hrow.
    repeat (apply elem_of_cons in Hrow as [->|Hrow]);
      [..|by apply elem_of_nil in Hrow];
      injection Hx as <-; vm_compute in Heq; vm_compute in H8; subst w0;
      first [reflexivity|by destruct H8]. }
  assert (w1 = 11) as ->.
  { destruct (Hmax 1%nat w1 eq_refl) as [Hub (row & x & Hrow & Hx & Heq)].
    pose proof (Hub Cases.headers "Assigned To"
                    ltac:(vm_compute; do 2 right; left) eq_refl) as H11.
    vm_compute in Hrow.
    repeat (apply elem_of_cons in Hrow as [->|Hrow]);
      [..|by apply elem_of_nil in Hrow];
      injection Hx as <-; vm_compute in Heq; vm_compute in H11; subst w1;
      first [reflexivity|by destruct H11]. }
  exact Htable.
Defined.

Lemma mapM_exn {A B} (f : A → result B) (l : list A) e :
  mapM f l = inl e → ∃ x, x ∈ l ∧ f x = inl e.
Proof.
  induction l as [|x l IH]; simpl; [done|].
  intros [H|(y & Hy & [H|(ys & Hys & H)]%bind_inl)]%bind_inl.
  - exists x. split; [left|done].
  - destruct (IH H) as (x' & ? & ?). exists x'. split; [by right|done].
  - done.
Qed.

Lemma getitem_exn {A} (l : list A) i e : getitem l i = inl e → e = IndexError.
Proof. unfold getitem, ret, raise. destruct (l !! i); congruence. Qed.

Lemma getitem_inr_lt {A} (l : list A) i x : getitem l i = inr x → (i < length l)%nat.
Proof. intros H%getitem_Some. by eapply lookup_lt_Some. Qed.

Lemma ljust_cell_exn col_widths row i e :
  ljust_cell col_widths row i = inl e → e = IndexError.
Proof.
  unfold ljust_cell.
  intros [H|(x & _ & [H|(w & _ & H)]%bind_inl)]%bind_inl;
    [by eapply getitem_exn|by eapply getitem_exn|done].
Qed.

Lemma max_of_exn ws e : max_of ws = inl e → ws = [].
Proof. by destruct ws. Qed.

(** The only exception [format_as_table] can raise is [IndexError]. *)

Lemma format_as_table_exn rows headers e :
  format_as_table rows headers = inl e → e = IndexError.
Proof.
  unfold format_as_table.
  intros [H|(cw & Hcw & [H|(hc & _ & [H|(rc & _ & [H|(rl & _ & H)]%bind_inl)]%bind_inl)]%bind_inl)]%bind_inl.
  - apply mapM_exn in H as (i & _ & [H|(ws & Hws & H)]%bind_inl).
    + apply mapM_exn in H as (row & _ & [H|(x & _ & H)]%bind_inl);
        [by eapply getitem_exn|done].
    + apply max_of_exn in H as ->. apply mapM_Forall2, Forall2_length in Hws.
      rewrite length_app in Hws. simpl in Hws. lia.
  - apply mapM_exn in H as (i & _ & H). by eapply ljust_cell_exn.
  - apply mapM_exn in H as (i & _ & [H|(w & _ & H)]%bind_inl);
      [by eapply getitem_exn|done].
  - apply mapM_exn in H as (row & _ & [H|(cells & _ & H)]%bind_inl); [|done].
    apply mapM_exn in H as (i & _ & H). by eapply ljust_cell_exn.
  - done.
Qed.

(** A table is produced only from rows as long as the header. *)

Lemma format_as_table_inr rows headers t row :
  format_as_table rows headers = inr t → row ∈ rows →
  length row = length headers.
Proof.
  unfold format_as_table.
  intros (cw & Hcw & (hc & _ & (rc & _ & (rl & Hrl & _)%bind_inr)%bind_inr)%bind_inr)%bind_inr Hrow.
  apply mapM_Forall2 in Hcw, Hrl.
  pose proof (Forall2_length _ _ _ Hcw) as Hn. rewrite length_seq in Hn.
  apply Nat.le_antisymm.
  - destruct (length row) as [|k] eqn:Hk; [lia|].
    apply list_elem_of_lookup in Hrow as [j Hj].
    destruct (Forall2_lookup_l _ _ _ _ _ Hrl Hj) as (line & _ & Hline).
    cbv beta in Hline. apply bind_inr in Hline as (cells & Hcells & _).
    apply mapM_Forall2 in Hcells.
    assert (seq 0 (length row) !! k = Some k) as Hlast
      by (apply lookup_seq; lia).
    destruct (Forall2_lookup_l _ _ _ _ _ Hcells Hlast) as (c & _ & Hc).
    unfold ljust_cell in Hc.
    apply bind_inr in Hc as (x & _ & (w & Hw%getitem_inr_lt & _)%bind_inr).
    lia.
  - destruct (length headers) as [|k] eqn:Hk; [lia|].
    assert (seq 0 (S k) !! k = Some k) as Hlast by (apply lookup_seq; lia).
    destruct (Forall2_lookup_l _ _ _ _ _ Hcw Hlast) as (w & _ & Hw).
    cbv beta in Hw. apply bind_inr in Hw as (ws & Hws & _).
    apply mapM_Forall2 in Hws.
    apply list_elem_of_lookup in Hrow as [j Hj].
    assert ((rows ++ [headers]) !! j = Some row) as Hj'
      by (by apply lookup_app_l_Some).
    destruct (Forall2_lookup_l _ _ _ _ _ Hws Hj') as (v & _ & Hv).
    cbv beta in Hv. apply bind_inr in Hv as (x & Hx%getitem_inr_lt & _). lia.
Qed.

(** X14. Ragged rows. [format_as_table] raises [IndexError] exactly when
    some row has a length other than that of the header, be it shorter or
    longer. *)
Theorem ragged_rows_raise (rows : list (list string)) (headers : list string) :
  format_as_table rows headers = inl IndexError
  ↔ ∃ row, row ∈ rows ∧ length row ≠ length headers.
Proof.
  split.
  - intros Hraise.
    destruct (decide (Forall (λ row, length row = length headers) rows))
      as [Hall|Hex].
    + destruct (format_as_table_returns rows headers) as [t Ht].
      { intros row. by apply (proj1 (Forall_forall _ _) Hall). }
      congruence.
    + apply not_Forall_Exists in Hex; [|intros row; apply _].
      apply Exists_exists in Hex as (row & ? & ?). by exists row.
  - intros (row & Hrow & Hlen).
    destruct (format_as_table rows headers) as [e|t] eqn:Ht.
    + by rewrite (format_as_table_exn _ _ _ Ht).
    + destruct Hlen. by eapply format_as_table_inr.
Qed.

Lemma sample_short_row_raises :
  format_as_table Cases.ragged Cases.headers = inl IndexError.
Proof.
  apply (proj2 (ragged_rows_raise Cases.ragged Cases.headers)).
  exists ["Buy milk"]. split; [|by vm_compute].
  apply elem_of_cons. right. apply elem_of_cons. by left.
Defined.

(** ** A start that fails *)

Lemma load_lines_first_failure good bad rest e self env :
  (∀ line, line ∈ good → returns (Task.from_file_string (Str.strip line))) →
  Task.from_file_string (Str.strip bad) = inl e →
  ∃ self' env', load_lines (good ++ bad :: rest) self env = (self', env', Some e)
    ∧ length (tasks self') = (length (tasks self) + length good)%nat.
Proof.
  intros Hgood Hbad. revert self env.
  induction good as [|line good IH]; intros self env.
  - simpl. rewrite Hbad. exists self, env. split; [done|lia].
  - destruct (Hgood line) as [t Ht]; [left|].
    change ((line :: good) ++ bad :: rest) with (line :: (good ++ bad :: rest)).
    cbn [load_lines]. rewrite Ht. cbn [alloc].
    destruct (IH (λ x Hx, Hgood x (list_elem_of_further _ _ _ Hx))
                (set_tasks (tasks self ++ [fresh (dom (objs env))]) self)
                (alloc t env).2) as (self' & env' & Hl & Hlen).
    exists self', env'. split; [exact Hl|].
    rewrite Hlen. cbn [tasks set_tasks]. rewrite length_app. simpl. lia.
Qed.

Lemma lstrip_all_space sp w : Str.all sp w = true → Str.lstrip sp w = "".
Proof.
  induction w as [|c w IH]; [done|]. simpl.
  intros [Hc Hw]%andb_true_iff. rewrite Hc. by apply IH.
Qed.

Lemma blank_line_rejected line :
  Str.all Str.isspace line = true →
  Task.from_file_string (Str.strip line) = inl IndexError.
Proof.
  intros H. unfold Str.strip. by rewrite (lstrip_all_space _ _ H).
Qed.

(** X15. The first rejected line decides. When the lines before a line are
    accepted and that line is rejected, [TaskManager()] raises the exception
    of that line, whatever follows it: a [ValueError] or an [IndexError]. *)
Theorem startup_fails_with_first_error (seen : list string) (env : Env)
    (content : string) (good : list string) (bad : string)
    (rest : list string) (e : exn) :
  fs env !! "database.txt" = Some content →
  readlines content = good ++ bad :: rest →
  (∀ line, line ∈ good → returns (Task.from_file_string (Str.strip line))) →
  Task.from_file_string (Str.strip bad) = inl e →
  ∃ env', TaskManager.init seen env = (inl e, env')
    ∧ (e = ValueError ∨ e = IndexError).
Proof.
  intros Hfile Hlines Hgood Hbad.
  unfold init, load_tasks_from_file. cbn [file_path]. rewrite Hfile, Hlines.
  destruct (load_lines_first_failure good bad rest e
              (mk [] "database.txt" true []) env Hgood Hbad)
    as (self' & env' & -> & _).
  exists env'. split; [done|]. by eapply from_file_string_exn.
Qed.

Lemma sample_broken_file_fails_at_line_two :
  ∃ env', TaskManager.init [] Sample.broken_env = (inl IndexError, env')
    ∧ (IndexError = ValueError ∨ IndexError = IndexError).
Proof.
  apply (startup_fails_with_first_error [] Sample.broken_env
           Sample.broken_file
           ["Pay rent||Bills|1|2099-01-01|alice|False" +:+ String newline ""]
           ("Buy milk|2 l|Home|3|2024-03-10" +:+ String newline "") []).
  - reflexivity.
  - reflexivity.
  - intros line Hl. each_member Hl; eexists; vm_compute; reflexivity.
  - reflexivity.
Defined.

(** X16. A blank line stops the start. When the first line that is not
    accepted consists of white space only, as an empty line does,
    [TaskManager()] raises [IndexError]. *)
Theorem blank_line_stops_startup (seen : list string) (env : Env)
    (content : string) (good : list string) (blank : string)
    (rest : list string) :
  fs env !! "database.txt" = Some content →
  readlines content = good ++ blank :: rest →
  (∀ line, line ∈ good → returns (Task.from_file_string (Str.strip line))) →
  Str.all Str.isspace blank = true →
  ∃ env', TaskManager.init seen env = (inl IndexError, env').
Proof.
  intros Hfile Hlines Hgood Hblank.
  unfold init, load_tasks_from_file. cbn [file_path]. rewrite Hfile, Hlines.
  destruct (load_lines_first_failure good blank rest IndexError
              (mk [] "database.txt" true []) env Hgood
              (blank_line_rejected _ Hblank)) as (self' & env' & -> & _).
  by exists env'.
Qed.

Lemma sample_blank_line_fails :
  ∃ env', TaskManager.init [] Cases.blank_env = (inl IndexError, env').
Proof.
  apply (blank_line_stops_startup [] Cases.blank_env Cases.blank_file
           ["Pay rent||Bills|1|2099-01-01|alice|False" +:+ String newline ""]
           (String newline "") []).
  - reflexivity.
  - reflexivity.
  - intros line Hl. each_member Hl; eexists; vm_compute; reflexivity.
  - reflexivity.
Defined.
